(** * AsyncMongo: connection lifecycle, registry and data-access facades

    A shallow embedding of [app/db/mongo/client.py], [factory.py],
    [operations.py] and [repository.py], and of the route handlers and
    the start and stop of the web application built on them
    ([app/api], [main.py]).

    Coroutines are embedded as finite resumption trees ([Co]): the code
    between two [await]s is an atomic state transformer (asyncio schedules
    cooperatively on one thread), and every [await] is a node at which the
    event loop may run somebody else and later resumes the coroutine with
    the result of the awaited operation.  The same tree is run
    sequentially against an environment ([run]) and interleaved with other
    coroutines in the turns that the event loop gives them ([turns]). *)

From Stdlib Require Import QArith ZArith Lia String Ascii List.
From stdpp Require Import base option gmap strings pretty list.

Set Default Proof Using "Type".
Local Open Scope string_scope.

(** ** Exceptions *)

(** The exception classes that occur in the modelled code.  Everything
    except [CancelledError] derives from [Exception]; since Python 3.8
    [asyncio.CancelledError] derives from [BaseException] only. *)
Inductive exn : Type :=
| ConnectionFailure   (* pymongo.errors.ConnectionFailure and its subclasses *)
| OperationFailure    (* any other pymongo.errors.PyMongoError *)
| InvalidId           (* bson.errors.InvalidId *)
| ConnectionError     (* builtin, raised by get_database *)
| ValueError          (* builtin, raised by create_client *)
| RuntimeError        (* builtin, raised by RLock.release *)
| AttributeError      (* builtin, raised by a method call on None *)
| CancelledError.     (* asyncio.CancelledError *)

#[global] Instance exn_eq_dec : EqDecision exn.
Proof. solve_decision. Defined.

(** [isinstance(e, ConnectionFailure)] *)
Definition is_ConnectionFailure (e : exn) : bool :=
  match e with ConnectionFailure => true | _ => false end.

(** [isinstance(e, asyncio.CancelledError)] *)
Definition is_CancelledError (e : exn) : bool :=
  match e with CancelledError => true | _ => false end.

(** [isinstance(e, Exception)] *)
Definition is_Exception (e : exn) : bool :=
  match e with CancelledError => false | _ => true end.

(** ** Objects of the driver and of the runtime *)

Definition conn := nat.     (* identity of an AsyncIOMotorClient object *)
Definition task := nat.     (* identity of an asyncio.Task *)
Definition thread := nat.   (* threading.get_ident() *)

(** Every coroutine of the application runs on the thread of the event
    loop. *)
Definition loop_thread : thread := 0%nat.

(** [threading.RLock]: the owning thread and the recursion level. *)
Record RLock := mkRLock { owner : option thread; level : nat }.

Definition RLock_new : RLock := mkRLock None 0.

(** [RLock.acquire()] from thread [t]; [None] when the call blocks. *)
Definition RLock_acquire (t : thread) (l : RLock) : option RLock :=
  match owner l with
  | None => Some (mkRLock (Some t) 1)
  | Some o => if decide (o = t) then Some (mkRLock (Some o) (S (level l))) else None
  end.

(** [RLock.release()] from thread [t]; [None] when it raises
    [RuntimeError] (the lock is not held by [t]). *)
Definition RLock_release (t : thread) (l : RLock) : option RLock :=
  match owner l with
  | None => None
  | Some o =>
      if decide (o = t) then
        match level l with
        | O => None
        | S O => Some (mkRLock None 0)
        | S n => Some (mkRLock (Some o) n)
        end
      else None
  end.

(** ** Configuration *)

Record MongoDBConfig := mkConfig {
  uri : string;
  max_pool_size : Z;
  min_pool_size : Z;
  max_idle_time_ms : Z;
  connect_timeout_ms : Z;
  server_selection_timeout_ms : Z;
  database : string
}.

(** [MongoDBConfig(uri, database=...)] with the defaults of [__init__]. *)
Definition default_config (u d : string) : MongoDBConfig :=
  mkConfig u 10 1 60000 5000 5000 d.

Definition get_connection_options (cfg : MongoDBConfig) : list (string * Z) :=
  [ ("maxPoolSize", max_pool_size cfg);
    ("minPoolSize", min_pool_size cfg);
    ("maxIdleTimeMS", max_idle_time_ms cfg);
    ("connectTimeoutMS", connect_timeout_ms cfg);
    ("serverSelectionTimeoutMS", server_selection_timeout_ms cfg) ].

(** ** The handle and the world around it *)

Record MongoDBClient := mkClient {
  config : MongoDBConfig;
  client : option conn;
  is_ready : bool;
  last_refresh_time : Q;
  _refresh_interval : Q;
  _lock : RLock;
  _health_check_task : option task
}.

(** [MongoDBClient.__init__] *)
Definition __init__ (cfg : MongoDBConfig) : MongoDBClient :=
  mkClient cfg None false 0 300 RLock_new None.

Definition set_client (v : option conn) (h : MongoDBClient) : MongoDBClient :=
  mkClient (config h) v (is_ready h) (last_refresh_time h)
           (_refresh_interval h) (_lock h) (_health_check_task h).
Definition set_is_ready (v : bool) (h : MongoDBClient) : MongoDBClient :=
  mkClient (config h) (client h) v (last_refresh_time h)
           (_refresh_interval h) (_lock h) (_health_check_task h).
Definition set_last_refresh_time (v : Q) (h : MongoDBClient) : MongoDBClient :=
  mkClient (config h) (client h) (is_ready h) v
           (_refresh_interval h) (_lock h) (_health_check_task h).
Definition set_lock (v : RLock) (h : MongoDBClient) : MongoDBClient :=
  mkClient (config h) (client h) (is_ready h) (last_refresh_time h)
           (_refresh_interval h) v (_health_check_task h).
Definition set_health_check_task (v : option task) (h : MongoDBClient) : MongoDBClient :=
  mkClient (config h) (client h) (is_ready h) (last_refresh_time h)
           (_refresh_interval h) (_lock h) v.

(** The messages of [app.logger], by call site. *)
Inductive log_msg :=
| MsgConnecting | MsgConnected | MsgConnectFailed | MsgClosed | MsgRefreshing
| MsgHealthCancelled | MsgHealthError | MsgUnhealthy | MsgHealthStarted.

Inductive log_level := INFO | WARNING | ERROR.

(** What a coroutine can wait for. *)
Inductive awaitable :=
| Ping (c : conn)      (* client.admin.command('ping') *)
| Sleep (secs : Z)     (* asyncio.sleep(secs) *)
| Join (t : task).     (* await task *)

(** Effects on the outside of the handle, in program order. *)
Inductive event :=
| EvLog (l : log_level) (m : log_msg)
| EvOpen (c : conn) (u : string) (opts : list (string * Z))
| EvClose (c : conn)
| EvSpawn (t : task)
| EvCancel (t : task)
| EvAwait (q : awaitable).

Record World := mkWorld {
  time_reads : nat;     (* calls of time.time() so far *)
  answered : nat;       (* awaits the environment has answered so far *)
  next_conn : conn;     (* next fresh AsyncIOMotorClient identity *)
  live : gset conn;     (* clients constructed and not closed *)
  next_task : task;     (* next fresh task identity *)
  tasks : gset task;    (* health-check tasks created and not cancelled *)
  trace : list event    (* most recent first *)
}.

Definition World_init : World := mkWorld 0 0 0 ∅ 0 ∅ [].

Record CState := mkCState { self : MongoDBClient; world : World }.

Definition on_self (f : MongoDBClient → MongoDBClient) (s : CState) : CState :=
  mkCState (f (self s)) (world s).
Definition on_world (f : World → World) (s : CState) : CState :=
  mkCState (self s) (f (world s)).

Definition emit (e : event) (w : World) : World :=
  mkWorld (time_reads w) (answered w) (next_conn w) (live w)
          (next_task w) (tasks w) (e :: trace w).

(** ** Coroutines as resumption trees *)

Inductive Co (A : Type) : Type :=
| Ret (a : A)
| Raise (e : exn)
| Block                                        (* the thread waits for a lock for ever *)
| Get (k : CState → Co A)
| Put (s : CState) (k : Co A)
| Now (k : Q → Co A)                           (* time.time() *)
| Await (q : awaitable) (k : option exn → Co A). (* suspension point *)

Arguments Ret {A} a.
Arguments Raise {A} e.
Arguments Block {A}.
Arguments Get {A} k.
Arguments Put {A} s k.
Arguments Now {A} k.
Arguments Await {A} q k.

(** Continue [m] with [kr] when it returns and with [ke] when it raises:
    the common shape of sequencing, [try]/[except] and [finally]. *)
Fixpoint handle {A B} (m : Co A) (kr : A → Co B) (ke : exn → Co B) : Co B :=
  match m with
  | Ret a => kr a
  | Raise e => ke e
  | Block => Block
  | Get k => Get (λ s, handle (k s) kr ke)
  | Put s k => Put s (handle k kr ke)
  | Now k => Now (λ t, handle (k t) kr ke)
  | Await q k => Await q (λ r, handle (k r) kr ke)
  end.

#[global] Instance Co_ret : MRet Co := λ A a, Ret a.
#[global] Instance Co_bind : MBind Co := λ A B f m, handle m f Raise.

(** [try: body  except <classes accepted by h>: h e] *)
Definition try_except {A} (body : Co A) (h : exn → option (Co A)) : Co A :=
  handle body Ret (λ e, match h e with Some m => m | None => Raise e end).

(** [try: body  finally: fin] *)
Definition try_finally {A} (body : Co A) (fin : Co unit) : Co A :=
  handle body (λ a, fin ;; Ret a) (λ e, fin ;; Raise e).

Definition get_self : Co MongoDBClient := Get (λ s, Ret (self s)).
Definition modify_self (f : MongoDBClient → MongoDBClient) : Co unit :=
  Get (λ s, Put (on_self f s) (Ret tt)).
Definition modify_world (f : World → World) : Co unit :=
  Get (λ s, Put (on_world f s) (Ret tt)).

Definition logger (l : log_level) (m : log_msg) : Co unit :=
  modify_world (emit (EvLog l m)).

Definition time_time : Co Q := Now Ret.

(** [await q]: the result of the awaited operation is returned or raised. *)
Definition await (q : awaitable) : Co unit :=
  modify_world (emit (EvAwait q)) ;;
  Await q (λ r, match r with None => Ret tt | Some e => Raise e end).

(** [AsyncIOMotorClient(uri, **options)]: a fresh client object. *)
Definition AsyncIOMotorClient (u : string) (opts : list (string * Z)) : Co conn :=
  Get (λ s,
    let w := world s in
    let c := next_conn w in
    Put (mkCState (self s)
           (mkWorld (time_reads w) (answered w) (S c) ({[c]} ∪ live w)
                    (next_task w) (tasks w) (EvOpen c u opts :: trace w)))
        (Ret c)).

(** [client.close()] *)
Definition close (c : conn) : Co unit :=
  modify_world (λ w,
    mkWorld (time_reads w) (answered w) (next_conn w) (live w ∖ {[c]})
            (next_task w) (tasks w) (EvClose c :: trace w)).

(** [asyncio.create_task(...)]: a fresh task object. *)
Definition create_task : Co task :=
  Get (λ s,
    let w := world s in
    let t := next_task w in
    Put (mkCState (self s)
           (mkWorld (time_reads w) (answered w) (next_conn w) (live w)
                    (S t) ({[t]} ∪ tasks w) (EvSpawn t :: trace w)))
        (Ret t)).

(** [task.cancel()] *)
Definition cancel (t : task) : Co unit :=
  modify_world (λ w,
    mkWorld (time_reads w) (answered w) (next_conn w) (live w)
            (next_task w) (tasks w ∖ {[t]}) (EvCancel t :: trace w)).

(** [with self._lock: body] *)
Definition with_lock {A} (body : Co A) : Co A :=
  Get (λ s,
    match RLock_acquire loop_thread (_lock (self s)) with
    | None => Block
    | Some l =>
        Put (on_self (set_lock l) s)
          (try_finally body
             (Get (λ s',
                match RLock_release loop_thread (_lock (self s')) with
                | None => Raise RuntimeError
                | Some l' => Put (on_self (set_lock l') s') (Ret tt)
                end)))
    end).

(** ** The methods of [MongoDBClient] *)

Definition _start_health_check : Co unit :=
  t ← create_task ;
  modify_self (set_health_check_task (Some t)) ;;
  logger INFO MsgHealthStarted.

Definition connect : Co unit :=
  h ← get_self ;
  match client h with
  | Some _ => Ret tt
  | None =>
      logger INFO MsgConnecting ;;
      try_except
        (c ← AsyncIOMotorClient (uri (config h)) (get_connection_options (config h)) ;
         modify_self (set_client (Some c)) ;;
         await (Ping c) ;;
         modify_self (set_is_ready true) ;;
         t ← time_time ;
         modify_self (set_last_refresh_time t) ;;
         logger INFO MsgConnected ;;
         _start_health_check)
        (λ e, if is_ConnectionFailure e
              then Some (modify_self (set_is_ready false) ;;
                         logger ERROR MsgConnectFailed ;;
                         Raise e)
              else None)
  end.

Definition disconnect : Co unit :=
  h ← get_self ;
  match client h with
  | None => Ret tt
  | Some _ =>
      match _health_check_task h with
      | None => Ret tt
      | Some t =>
          cancel t ;;
          try_except (await (Join t))
            (λ e, if is_CancelledError e then Some (Ret tt) else None) ;;
          modify_self (set_health_check_task None)
      end ;;
      h' ← get_self ;
      match client h' with
      | Some c => close c
      | None => Raise AttributeError   (* None.close() *)
      end ;;
      modify_self (set_client None) ;;
      modify_self (set_is_ready false) ;;
      logger INFO MsgClosed
  end.

Definition is_connected : Co bool :=
  h ← get_self ;
  match client h with
  | None => Ret false
  | Some c =>
      if negb (is_ready h) then Ret false
      else
        try_except (await (Ping c) ;; Ret true)
          (λ e, if is_Exception e
                then Some (modify_self (set_is_ready false) ;; Ret false)
                else None)
  end.

Definition refresh_connection : Co unit :=
  logger INFO MsgRefreshing ;;
  with_lock (disconnect ;; connect) ;;
  t ← time_time ;
  modify_self (set_last_refresh_time t).

(** ** Sequential execution against an environment *)

(** What the outside decides: the readings of the wall clock, how each
    liveness probe ends ([None]: the server answered), whether the
    coroutine is cancelled while it sleeps, and whether the task it waits
    for ends cancelled (awaiting it then raises [CancelledError]) or
    returns.  Readings and answers are indexed by their position in the
    run. *)
Record Env := mkEnv {
  clock : nat → Q;
  probe : nat → option exn;
  cancelled : nat → bool;
  joined_cancelled : nat → bool
}.

Definition answer (env : Env) (k : nat) (q : awaitable) : option exn :=
  match q with
  | Ping _ => probe env k
  | Sleep _ => if cancelled env k then Some CancelledError else None
  | Join _ => if joined_cancelled env k then Some CancelledError else None
  end.

Inductive outcome (A : Type) : Type :=
| Returned (a : A)
| Raised (e : exn)
| Deadlocked.

Arguments Returned {A} a.
Arguments Raised {A} e.
Arguments Deadlocked {A}.

Definition tick (w : World) : World :=
  mkWorld (S (time_reads w)) (answered w) (next_conn w) (live w)
          (next_task w) (tasks w) (trace w).
Definition resume (w : World) : World :=
  mkWorld (time_reads w) (S (answered w)) (next_conn w) (live w)
          (next_task w) (tasks w) (trace w).

(** The coroutine runs to completion with nothing scheduled in between:
    every await is answered by the environment at once. *)
Fixpoint run {A} (env : Env) (m : Co A) (s : CState) : outcome A * CState :=
  match m with
  | Ret a => (Returned a, s)
  | Raise e => (Raised e, s)
  | Block => (Deadlocked, s)
  | Get k => run env (k s) s
  | Put s' k => run env k s'
  | Now k => run env (k (clock env (time_reads (world s)))) (on_world tick s)
  | Await q k => run env (k (answer env (answered (world s)) q)) (on_world resume s)
  end.

(** The awaits of that run, in order, each with the state in which the
    coroutine is suspended at it: what the other coroutines of the event
    loop find when they are given a turn in between. *)
Fixpoint suspensions {A} (env : Env) (m : Co A) (s : CState)
    : list (awaitable * CState) :=
  match m with
  | Ret _ | Raise _ | Block => []
  | Get k => suspensions env (k s) s
  | Put s' k => suspensions env k s'
  | Now k => suspensions env (k (clock env (time_reads (world s)))) (on_world tick s)
  | Await q k =>
      (q, s) :: suspensions env (k (answer env (answered (world s)) q)) (on_world resume s)
  end.

(** ** The health-check loop *)

Inductive loop_end := Break | StillRunning.

(** One pass through the [try] block of [health_check_routine]. *)
Definition health_check_body : Co unit :=
  now ← time_time ;
  h ← get_self ;
  (if negb (Qle_bool (now - last_refresh_time h) (_refresh_interval h))
   then refresh_connection else Ret tt) ;;
  await (Sleep 30) ;;
  is_healthy ← is_connected ;
  if negb is_healthy
  then logger WARNING MsgUnhealthy ;; refresh_connection
  else Ret tt.

(** [while True: try: ... except CancelledError: break
    except Exception: ...; await asyncio.sleep(5)], unrolled [fuel] times;
    [StillRunning] says that the loop is about to start the next pass. *)
Fixpoint health_check_routine (fuel : nat) : Co loop_end :=
  match fuel with
  | O => Ret StillRunning
  | S n =>
      handle health_check_body
        (λ _, health_check_routine n)
        (λ e, if is_CancelledError e then
                logger INFO MsgHealthCancelled ;; Ret Break
              else if is_Exception e then
                logger ERROR MsgHealthError ;;
                await (Sleep 5) ;;
                health_check_routine n
              else Raise e)
  end.

(** ** Properties of the sequential runs *)

Section Runs.
Variable env : Env.

Lemma run_handle {A B} (m : Co A) (kr : A → Co B) (ke : exn → Co B) s :
  run env (handle m kr ke) s =
  match run env m s with
  | (Returned a, s') => run env (kr a) s'
  | (Raised e, s') => run env (ke e) s'
  | (Deadlocked, s') => (Deadlocked, s')
  end.
Proof. revert s. induction m; intros; simpl; auto. Qed.

Lemma run_bind {A B} (m : Co A) (f : A → Co B) s :
  run env (m ≫= f) s =
  match run env m s with
  | (Returned a, s') => run env (f a) s'
  | (Raised e, s') => (Raised e, s')
  | (Deadlocked, s') => (Deadlocked, s')
  end.
Proof. unfold mbind, Co_bind. rewrite run_handle. by destruct (run env m s) as [[]]. Qed.

Lemma suspensions_handle {A B} (m : Co A) (kr : A → Co B) (ke : exn → Co B) s :
  suspensions env (handle m kr ke) s =
  (suspensions env m s ++
   match run env m s with
   | (Returned a, s') => suspensions env (kr a) s'
   | (Raised e, s') => suspensions env (ke e) s'
   | (Deadlocked, _) => []
   end)%list.
Proof.
  revert s. induction m as [a|e| |k IH|s' k IH|k IH|q k IH]; intros s0; simpl;
    try done; try apply IH.
  f_equal. apply IH.
Qed.

Lemma suspensions_bind {A B} (m : Co A) (f : A → Co B) s :
  suspensions env (m ≫= f) s =
  (suspensions env m s ++
   match run env m s with
   | (Returned a, s') => suspensions env (f a) s'
   | _ => []
   end)%list.
Proof.
  unfold mbind, Co_bind. rewrite suspensions_handle.
  by destruct (run env m s) as [[]].
Qed.

End Runs.


(** ** Properties of the handle *)

(** The states of the handle that the methods distinguish. *)
Definition Connected (h : MongoDBClient) : Prop :=
  is_Some (client h) ∧ is_ready h = true.
Definition Disconnected (h : MongoDBClient) : Prop :=
  client h = None ∧ is_ready h = false.

(** The store is reachable: every liveness probe is answered. *)
Definition reachable (env : Env) : Prop := ∀ k, probe env k = None.

(** The lock is free, or held by the thread of the event loop. *)
Definition lock_ok (l : RLock) : Prop :=
  match owner l with
  | None => level l = 0%nat
  | Some o => o = loop_thread ∧ (0 < level l)%nat
  end.


(** The state in which the critical section of [refresh_connection]
    starts: the message is logged and the lock is taken. *)
Definition enter (l : RLock) (s : CState) : CState :=
  on_self (set_lock l) (on_world (emit (EvLog INFO MsgRefreshing)) s).

(** The state in which [refresh_connection] returns, from the state [s2]
    in which the critical section ends. *)
Definition leave (env : Env) (l : RLock) (s2 : CState) : CState :=
  on_self (set_last_refresh_time (clock env (time_reads (world s2))))
    (on_world tick (on_self (set_lock l) s2)).

(** [m], [n] times in a row. *)
Fixpoint times (n : nat) (m : Co unit) : Co unit :=
  match n with
  | O => Ret tt
  | S n' => m ;; times n' m
  end.

Lemma lock_ok_new : lock_ok RLock_new.
Proof. reflexivity. Qed.

Lemma lock_ok_acquire l :
  lock_ok l →
  ∃ l', RLock_acquire loop_thread l = Some l' ∧
        RLock_release loop_thread l' = Some l ∧ lock_ok l'.
Proof.
  destruct l as [[o|] n]; unfold lock_ok; simpl.
  - intros [-> Hn]. destruct n as [|n]; [lia|].
    eexists. split; [reflexivity|]. split; [reflexivity|]. simpl. split; [done|lia].
  - intros ->. eexists. split; [reflexivity|]. split; [reflexivity|].
    simpl. split; [done|lia].
Qed.

Section ClientProps.
Variable env : Env.

Lemma run_connect_present s c :
  client (self s) = Some c → run env connect s = (Returned tt, s).
Proof. destruct s as [[cfg cl rdy lrt ri lk tk] w]; simpl. by intros ->. Qed.

Lemma run_connect_absent_ok s :
  client (self s) = None →
  probe env (answered (world s)) = None →
  ∃ s', run env connect s = (Returned tt, s') ∧
    client (self s') = Some (next_conn (world s)) ∧
    is_ready (self s') = true ∧
    last_refresh_time (self s') = clock env (time_reads (world s)) ∧
    _health_check_task (self s') = Some (next_task (world s)) ∧
    _lock (self s') = _lock (self s) ∧
    config (self s') = config (self s) ∧
    live (world s') = {[next_conn (world s)]} ∪ live (world s) ∧
    time_reads (world s') = S (time_reads (world s)).
Proof.
  destruct s as [[cfg cl rdy lrt ri lk tk] w]; simpl. intros -> Hp.
  unfold connect, mbind, Co_bind, try_except; simpl. rewrite Hp; simpl.
  eexists. split; [reflexivity|]. simpl. tauto.
Qed.

Lemma run_connect_absent_fail s e :
  client (self s) = None →
  probe env (answered (world s)) = Some e →
  ∃ s', run env connect s = (Raised e, s') ∧
    client (self s') = Some (next_conn (world s)) ∧
    is_ready (self s') = (if is_ConnectionFailure e then false else is_ready (self s)) ∧
    _health_check_task (self s') = _health_check_task (self s) ∧
    _lock (self s') = _lock (self s) ∧
    live (world s') = {[next_conn (world s)]} ∪ live (world s).
Proof.
  destruct s as [[cfg cl rdy lrt ri lk tk] w]; simpl. intros -> Hp.
  unfold connect, mbind, Co_bind, try_except; simpl. rewrite Hp; simpl.
  destruct (is_ConnectionFailure e); simpl;
    (eexists; split; [reflexivity|]; simpl; tauto).
Qed.

Lemma run_disconnect s :
  ∃ s', run env disconnect s = (Returned tt, s') ∧
    client (self s') = None ∧
    (is_Some (client (self s)) → is_ready (self s') = false) ∧
    (client (self s) = None → s' = s) ∧
    _lock (self s') = _lock (self s) ∧
    config (self s') = config (self s) ∧
    last_refresh_time (self s') = last_refresh_time (self s) ∧
    live (world s') =
      live (world s) ∖ (match client (self s) with Some c => {[c]} | None => ∅ end) ∧
    next_conn (world s') = next_conn (world s) ∧
    time_reads (world s') = time_reads (world s).
Proof.
  destruct s as [[cfg cl rdy lrt ri lk tk] w].
  unfold disconnect, mbind, Co_bind, try_except; simpl.
  destruct cl as [c|]; simpl.
  - destruct tk as [t|]; simpl; [destruct (joined_cancelled env (answered w)); simpl|];
      (eexists; split; [reflexivity|]; simpl;
       repeat split; done).
  - eexists; split; [reflexivity|]; simpl.
    repeat split; try done. by rewrite difference_empty_L.
Qed.

Lemma run_is_connected s :
  run env is_connected s =
  match client (self s) with
  | None => (Returned false, s)
  | Some c =>
      if is_ready (self s) then
        let s1 := on_world resume (on_world (emit (EvAwait (Ping c))) s) in
        match probe env (answered (world s)) with
        | None => (Returned true, s1)
        | Some e =>
            if is_Exception e
            then (Returned false, on_self (set_is_ready false) s1)
            else (Raised e, s1)
        end
      else (Returned false, s)
  end.
Proof.
  destruct s as [[cfg cl rdy lrt ri lk tk] w].
  unfold is_connected, mbind, Co_bind, try_except; simpl.
  destruct cl as [c|]; [|done]. destruct rdy; [|done]. simpl.
  destruct (probe env (answered w)) as [e|]; [|done].
  simpl. by destruct (is_Exception e).
Qed.

Lemma run_logger l m s :
  run env (logger l m) s = (Returned tt, on_world (emit (EvLog l m)) s).
Proof. reflexivity. Qed.

Lemma run_with_lock {A} (body : Co A) s l :
  RLock_acquire loop_thread (_lock (self s)) = Some l →
  run env (with_lock body) s =
  match run env body (on_self (set_lock l) s) with
  | (Deadlocked, s') => (Deadlocked, s')
  | (r, s') =>
      match RLock_release loop_thread (_lock (self s')) with
      | Some l' => (r, on_self (set_lock l') s')
      | None => (Raised RuntimeError, s')
      end
  end.
Proof.
  intros Hl. unfold with_lock. simpl. rewrite Hl. simpl.
  unfold try_finally. rewrite run_handle.
  destruct (run env body (on_self (set_lock l) s)) as [[a|e|] s']; simpl; [| |done].
  - destruct (RLock_release loop_thread (_lock (self s'))); done.
  - destruct (RLock_release loop_thread (_lock (self s'))); done.
Qed.

(** [refresh_connection], step by step: the lock is taken, [disconnect]
    and [connect] run one after the other, the lock is given back on
    every way out, and the time of the refresh is recorded last. *)
Lemma run_refresh_connection s l :
  RLock_acquire loop_thread (_lock (self s)) = Some l →
  run env refresh_connection s =
  match run env disconnect (enter l s) with
  | (Returned _, s1) =>
      match run env connect s1 with
      | (Returned _, s2) =>
          match RLock_release loop_thread (_lock (self s2)) with
          | Some l' => (Returned tt, leave env l' s2)
          | None => (Raised RuntimeError, s2)
          end
      | (Raised e, s2) =>
          match RLock_release loop_thread (_lock (self s2)) with
          | Some l' => (Raised e, on_self (set_lock l') s2)
          | None => (Raised RuntimeError, s2)
          end
      | (Deadlocked, s2) => (Deadlocked, s2)
      end
  | (Raised e, s1) =>
      match RLock_release loop_thread (_lock (self s1)) with
      | Some l' => (Raised e, on_self (set_lock l') s1)
      | None => (Raised RuntimeError, s1)
      end
  | (Deadlocked, s1) => (Deadlocked, s1)
  end.
Proof.
  intros Hl. unfold refresh_connection.
  rewrite run_bind, run_logger, run_bind.
  rewrite (run_with_lock _ _ l) by done.
  rewrite run_bind. fold (enter l s).
  destruct (run env disconnect (enter l s)) as [[[]|e|] s1].
  - destruct (run env connect s1) as [[[]|e|] s2].
    + destruct (RLock_release loop_thread (_lock (self s2))); done.
    + destruct (RLock_release loop_thread (_lock (self s2))); done.
    + done.
  - destruct (RLock_release loop_thread (_lock (self s1))); done.
  - done.
Qed.
End ClientProps.

(** What holds of every handle between two method calls: the lock is
    free or held by the event loop's thread, and a handle without a
    connection object is not ready. *)
Record handle_ok (h : MongoDBClient) : Prop := mk_handle_ok {
  ok_lock : lock_ok (_lock h);
  ok_ready : client h = None → is_ready h = false
}.

Lemma handle_ok_init cfg : handle_ok (__init__ cfg).
Proof. by split. Qed.

Section Refresh.
Variable env : Env.

(** With a reachable store the refresh returns, and this is the state
    it returns in. *)
Lemma run_refresh_connection_reachable s :
  handle_ok (self s) →
  reachable env →
  ∃ l s1 s2,
    RLock_acquire loop_thread (_lock (self s)) = Some l ∧
    run env disconnect (enter l s) = (Returned tt, s1) ∧
    Disconnected (self s1) ∧
    run env connect s1 = (Returned tt, s2) ∧
    Connected (self s2) ∧
    run env refresh_connection s = (Returned tt, leave env (_lock (self s)) s2) ∧
    client (self s2) = Some (next_conn (world s)) ∧
    time_reads (world s2) = S (time_reads (world s)) ∧
    live (world s2) =
      {[next_conn (world s)]} ∪
      live (world s) ∖ (match client (self s) with Some c => {[c]} | None => ∅ end).
Proof.
  intros [Hlock Hready] Hreach.
  destruct (lock_ok_acquire _ Hlock) as (l & Hacq & Hrel & _).
  destruct (run_disconnect env (enter l s))
    as (s1 & Hd & Hc1 & Hr1 & Hsame & Hl1 & _ & _ & Hlive1 & Hnc1 & Htr1).
  simpl in Hr1, Hsame, Hl1, Hlive1, Hnc1, Htr1.
  assert (is_ready (self s1) = false) as Hready1.
  { destruct (client (self s)) as [c|] eqn:Hc.
    - apply Hr1. by eexists.
    - rewrite Hsame by done. simpl. by apply Hready. }
  destruct (run_connect_absent_ok env s1 Hc1 (Hreach _))
    as (s2 & Hcn & Hc2 & Hr2 & _ & _ & Hl2 & _ & Hlive2 & Htr2).
  exists l, s1, s2. rewrite (run_refresh_connection env s l Hacq), Hd, Hcn.
  rewrite Hl2, Hl1, Hrel, Hc2, Hnc1, Hlive2, Hlive1, Hnc1, Htr2, Htr1.
  repeat split; done.
Qed.

Lemma suspensions_disconnect s :
  map fst (suspensions env disconnect s) =
    match client (self s), _health_check_task (self s) with
    | Some _, Some t => [Join t]
    | _, _ => []
    end ∧
  Forall (λ p, _lock (self p.2) = _lock (self s)) (suspensions env disconnect s).
Proof.
  destruct s as [[cfg cl rdy lrt ri lk tk] w].
  unfold disconnect, mbind, Co_bind, try_except; simpl.
  destruct cl as [c|]; simpl; [|done].
  destruct tk as [t|]; simpl; [|done].
  destruct (joined_cancelled env (answered w)); simpl; (split; [done|by repeat constructor]).
Qed.

Lemma suspensions_connect s :
  client (self s) = None →
  map fst (suspensions env connect s) = [Ping (next_conn (world s))] ∧
  Forall (λ p, _lock (self p.2) = _lock (self s)) (suspensions env connect s).
Proof.
  destruct s as [[cfg cl rdy lrt ri lk tk] w]; simpl. intros ->.
  unfold connect, mbind, Co_bind, try_except; simpl.
  destruct (probe env (answered w)) as [e|]; simpl.
  - destruct (is_ConnectionFailure e); simpl; (split; [done|by repeat constructor]).
  - split; [done|by repeat constructor].
Qed.

Lemma suspensions_with_lock {A} (body : Co A) s l :
  RLock_acquire loop_thread (_lock (self s)) = Some l →
  suspensions env (with_lock body) s = suspensions env body (on_self (set_lock l) s).
Proof.
  intros Hl. unfold with_lock. simpl. rewrite Hl. simpl.
  unfold try_finally. rewrite suspensions_handle.
  destruct (run env body (on_self (set_lock l) s)) as [[a|e|] s']; simpl.
  - destruct (RLock_release loop_thread (_lock (self s'))); simpl; by rewrite app_nil_r.
  - destruct (RLock_release loop_thread (_lock (self s'))); simpl; by rewrite app_nil_r.
  - by rewrite app_nil_r.
Qed.

(** The awaits of [refresh_connection]: the join of the cancelled task
    (when the handle holds a connection and a task) and the probe of the
    new connection, both with the lock as [with self._lock] took it. *)
Lemma suspensions_refresh_connection s l :
  RLock_acquire loop_thread (_lock (self s)) = Some l →
  map fst (suspensions env refresh_connection s) =
    (match client (self s), _health_check_task (self s) with
     | Some _, Some t => [Join t]
     | _, _ => []
     end ++ [Ping (next_conn (world s))])%list ∧
  Forall (λ p, _lock (self p.2) = l) (suspensions env refresh_connection s).
Proof.
  intros Hl. unfold refresh_connection.
  rewrite suspensions_bind, run_logger. cbn [suspensions logger modify_world app].
  rewrite suspensions_bind.
  rewrite (suspensions_with_lock _ _ l) by done.
  fold (enter l s).
  assert (suspensions env (time_time ≫= λ t, modify_self (set_last_refresh_time t)) = λ _, [])
    as Htail by done.
  assert (∀ r : outcome unit * CState,
    match r with
    | (Returned a, s') =>
        suspensions env (time_time ≫= λ t, modify_self (set_last_refresh_time t)) s'
    | _ => []
    end = []) as Hnone.
  { intros [[a|e|] s']; [|done..]. by rewrite Htail. }
  rewrite Hnone, app_nil_r, suspensions_bind.
  destruct (suspensions_disconnect (enter l s)) as [Hd1 Hd2].
  destruct (run_disconnect env (enter l s))
    as (s1 & Hd & Hc1 & _ & _ & Hl1 & _ & _ & _ & Hnc1 & _).
  rewrite Hd. destruct (suspensions_connect s1 Hc1) as [Hc2 Hc3].
  rewrite map_app, Hd1, Hc2, Hnc1. split; [done|].
  apply Forall_app. split; [exact Hd2|].
  eapply Forall_impl; [exact Hc3|]. intros p Hp. simpl in Hp. by rewrite Hp, Hl1.
Qed.
End Refresh.

(** ** Concrete inputs *)

Definition local_config : MongoDBConfig :=
  default_config "mongodb://localhost:27017" "fastapi_demo".

(** A handle just constructed, in a world where nothing has happened. *)
Definition fresh_state : CState := mkCState (__init__ local_config) World_init.

(** Every probe is answered; the wall clock reads 1000, 1001 and is then
    set back to 900. *)
Definition clock_set_back : Env :=
  mkEnv (λ k, match k with O => 1000 | S O => 1001 | _ => 900 end%Q)
        (λ _, None) (λ _, false) (λ _, false).

(** The server cannot be reached: every probe fails. *)
Definition server_down : Env :=
  mkEnv (λ _, 1000%Q) (λ _, Some ConnectionFailure) (λ _, false) (λ _, false).

(** Every probe is answered and the clock advances by one per reading. *)
Definition server_up : Env :=
  mkEnv (λ k, inject_Z (1000 + Z.of_nat k)) (λ _, None) (λ _, false) (λ _, false).

Lemma reachable_server_up : reachable server_up.
Proof. by intros k. Qed.

Section ClientTheorems.
Variable env : Env.

(** C1 (amended): on a handle whose store is reachable,
    [refresh_connection()] takes the lock, runs [disconnect()] and then
    [connect()] inside it, releases the lock and returns with the handle
    connected (connection object present, ready flag true).  The two
    calls are one critical section: the call is suspended only in
    between taking and releasing the lock (at the join of the cancelled
    health-check task and at the probe of the new connection), and at
    each of these awaits the lock is held by the thread of the event
    loop, one level deeper than before the call; it is given back as it
    was.  On return [last_refresh_time] is the reading of the wall clock
    taken after the reconnect; it is greater than before the call
    exactly when that reading is later than the time stamp the handle
    held, as it is when the clock only advances and the time stamp was
    read off it. *)
Theorem refresh_connection_reconnects s :
  handle_ok (self s) →
  reachable env →
  ∃ l s1 s2 s',
    RLock_acquire loop_thread (_lock (self s)) = Some l ∧
    run env disconnect (enter l s) = (Returned tt, s1) ∧
    run env connect s1 = (Returned tt, s2) ∧
    s' = leave env (_lock (self s)) s2 ∧
    run env refresh_connection s = (Returned tt, s') ∧
    Connected (self s') ∧
    handle_ok (self s') ∧
    last_refresh_time (self s') = clock env (S (time_reads (world s))) ∧
    ((last_refresh_time (self s) < last_refresh_time (self s'))%Q ↔
     (last_refresh_time (self s) < clock env (S (time_reads (world s))))%Q) ∧
    ((∀ i j, (i < j)%nat → (clock env i < clock env j)%Q) →
     ∀ k, (k ≤ time_reads (world s))%nat →
       last_refresh_time (self s) = clock env k →
       (last_refresh_time (self s) < last_refresh_time (self s'))%Q) ∧
    owner l = Some loop_thread ∧
    level l = S (level (_lock (self s))) ∧
    map fst (suspensions env refresh_connection s) =
      (match client (self s), _health_check_task (self s) with
       | Some _, Some t => [Join t]
       | _, _ => []
       end ++ [Ping (next_conn (world s))])%list ∧
    Forall (λ p, _lock (self p.2) = l) (suspensions env refresh_connection s) ∧
    _lock (self s1) = l ∧ _lock (self s2) = l ∧
    _lock (self s') = _lock (self s).
Proof.
  intros Hok Hreach.
  destruct (run_refresh_connection_reachable env s Hok Hreach)
    as (l & s1 & s2 & Hacq & Hd & _ & Hc & [Hcl Hrd] & Hrun & _ & Htr & _).
  exists l, s1, s2, (leave env (_lock (self s)) s2).
  assert (last_refresh_time (self (leave env (_lock (self s)) s2))
          = clock env (S (time_reads (world s)))) as Hstamp.
  { simpl. by rewrite Htr. }
  destruct (suspensions_refresh_connection env s l Hacq) as [Hawaits Hheld].
  assert (owner l = Some loop_thread ∧ level l = S (level (_lock (self s)))) as [Hown Hlev].
  { pose proof (ok_lock _ Hok) as Hlock. revert Hacq Hlock.
    unfold RLock_acquire, lock_ok. destruct (owner (_lock (self s))) as [o|].
    - intros Hacq [-> _]. rewrite decide_True in Hacq by done. by injection Hacq as <-.
    - intros [= <-] ->. done. }
  assert (_lock (self s1) = l ∧ _lock (self s2) = l) as [Hl1 Hl2].
  { destruct (run_disconnect env (enter l s))
      as (s1' & Hd' & Hc1 & _ & _ & Hl1 & _).
    rewrite Hd in Hd'. injection Hd' as <-.
    destruct (run_connect_absent_ok env s1 Hc1 (Hreach _))
      as (s2' & Hc' & _ & _ & _ & _ & Hl2 & _).
    rewrite Hc in Hc'. injection Hc' as <-.
    split; [exact Hl1|by rewrite Hl2]. }
  split; [exact Hacq|]. split; [exact Hd|]. split; [exact Hc|]. split; [reflexivity|].
  split; [exact Hrun|]. split; [by split|]. split.
  { split; [apply Hok|]. simpl. intros Hnone. rewrite Hnone in Hcl. by destruct Hcl. }
  split; [exact Hstamp|]. split; [by rewrite Hstamp|]. split.
  { intros Hmono k Hk Hlrt. rewrite Hstamp, Hlrt. apply Hmono. lia. }
  split; [exact Hown|]. split; [exact Hlev|]. split; [exact Hawaits|].
  split; [exact Hheld|]. split; [exact Hl1|]. split; [exact Hl2|]. reflexivity.
Qed.

(** C9: when [connect()] raises, the probe has failed after the
    connection object was assigned: the object stays in the handle and
    the ready flag is false.  From then on [connect()] returns at once,
    however often it is called, without touching the handle or the
    world (no new connection, no probe), and [is_connected()] answers
    false; [disconnect()] followed by [connect()], or
    [refresh_connection()], bring the handle back to the connected
    state once the store is reachable. *)
Theorem connect_failure_is_sticky s e s' :
  handle_ok (self s) →
  run env connect s = (Raised e, s') →
  client (self s) = None ∧
  probe env (answered (world s)) = Some e ∧
  client (self s') = Some (next_conn (world s)) ∧
  is_ready (self s') = false ∧
  (∀ env' n, run env' (times n connect) s' = (Returned tt, s')) ∧
  (∀ env', run env' is_connected s' = (Returned false, s')) ∧
  (∀ env', reachable env' →
     ∃ s'', run env' (disconnect ;; connect) s' = (Returned tt, s'') ∧
            Connected (self s'')) ∧
  (∀ env', reachable env' →
     ∃ s'', run env' refresh_connection s' = (Returned tt, s'') ∧
            Connected (self s'')).
Proof.
  intros [Hlock Hready] Hrun.
  destruct (client (self s)) as [c|] eqn:Hc.
  { rewrite (run_connect_present env s c Hc) in Hrun. done. }
  destruct (probe env (answered (world s))) as [e'|] eqn:Hp.
  2:{ destruct (run_connect_absent_ok env s Hc Hp) as (s2 & Hr2 & _).
      rewrite Hr2 in Hrun. done. }
  destruct (run_connect_absent_fail env s e' Hc Hp)
    as (s2 & Hr2 & Hc2 & Hrd2 & _ & Hl2 & _).
  rewrite Hr2 in Hrun. injection Hrun as -> ->.
  assert (is_ready (self s') = false) as Hnr.
  { rewrite Hrd2. destruct (is_ConnectionFailure e); [done|]. by apply Hready. }
  assert (handle_ok (self s')) as Hok'.
  { split; [by rewrite Hl2|]. by rewrite Hc2. }
  repeat split; try done.
  - intros env' n. induction n as [|n IH]; [done|].
    change (times (S n) connect) with (connect ;; times n connect).
    rewrite run_bind, (run_connect_present env' s' _ Hc2). apply IH.
  - intros env'. by rewrite run_is_connected, Hc2, Hnr.
  - intros env' Hreach.
    destruct (run_disconnect env' s') as (s1 & Hd & Hc1 & Hr1 & _).
    destruct (run_connect_absent_ok env' s1 Hc1 (Hreach _))
      as (s3 & Hr3 & Hc3 & Hrd3 & _).
    exists s3. rewrite run_bind, Hd, Hr3. split; [done|].
    split; [by rewrite Hc3|done].
  - intros env' Hreach.
    destruct (run_refresh_connection_reachable env' s' Hok' Hreach)
      as (l & s1 & s3 & _ & _ & _ & _ & Hconn & Hrun & _).
    eexists. split; [exact Hrun|]. exact Hconn.
Qed.

(** C7: [is_connected()] lets no exception of the driver (no
    [Exception] at all) through to its caller.  Without a connection
    object, and so after [disconnect()], it returns false and touches
    nothing; when the probe it issues fails it clears the ready flag
    and returns false; it returns true only when the probe was issued
    and has succeeded. *)
Theorem is_connected_never_raises s :
  (∀ e, fst (run env is_connected s) = Raised e → is_Exception e = false) ∧
  fst (run env is_connected s) ≠ Deadlocked ∧
  (client (self s) = None → run env is_connected s = (Returned false, s)) ∧
  (∃ s1, run env disconnect s = (Returned tt, s1) ∧
         run env is_connected s1 = (Returned false, s1)) ∧
  (∀ c e, client (self s) = Some c → is_ready (self s) = true →
          probe env (answered (world s)) = Some e → is_Exception e = true →
          ∃ s', run env is_connected s = (Returned false, s') ∧
                is_ready (self s') = false) ∧
  (∀ s', run env is_connected s = (Returned true, s') →
         ∃ c, client (self s) = Some c ∧ is_ready (self s) = true ∧
              probe env (answered (world s)) = None ∧
              trace (world s') = EvAwait (Ping c) :: trace (world s)).
Proof.
  rewrite run_is_connected.
  repeat split.
  - intros e. destruct (client (self s)); [|done].
    destruct (is_ready (self s)); [|done].
    destruct (probe env (answered (world s))) as [e'|]; [|done].
    destruct (is_Exception e') eqn:He'; [done|]. simpl. by intros [= ->].
  - destruct (client (self s)); [|done].
    destruct (is_ready (self s)); [|done].
    destruct (probe env (answered (world s))) as [e'|]; [|done].
    by destruct (is_Exception e').
  - by intros ->.
  - destruct (run_disconnect env s) as (s1 & Hd & Hc1 & _).
    exists s1. split; [done|]. by rewrite run_is_connected, Hc1.
  - intros c e -> -> -> ->. by eexists.
  - intros s'. destruct (client (self s)) as [c|]; [|done].
    destruct (is_ready (self s)); [|done].
    destruct (probe env (answered (world s))) as [e'|].
    + by destruct (is_Exception e').
    + intros [= <-]. by exists c.
Qed.
End ClientTheorems.

(** The handle after a first successful [connect()]. *)
Definition connected_state (env : Env) : CState := snd (run env connect fresh_state).

Lemma handle_ok_fresh : handle_ok (self fresh_state).
Proof. apply handle_ok_init. Qed.

Lemma handle_ok_connected : handle_ok (self (connected_state server_up)).
Proof. by split. Qed.

(** The refresh of a connected handle: both awaits occur, and at both
    the lock is held once. *)
Lemma refresh_connection_reconnects_witness :
  handle_ok (self (connected_state server_up)) ∧ reachable server_up ∧
  ∃ s', run server_up refresh_connection (connected_state server_up) = (Returned tt, s') ∧
        Connected (self s') ∧
        (last_refresh_time (self (connected_state server_up))
         < last_refresh_time (self s'))%Q ∧
        map fst (suspensions server_up refresh_connection (connected_state server_up))
          = [Join 0%nat; Ping 1%nat] ∧
        Forall (λ p, _lock (self p.2) = mkRLock (Some loop_thread) 1)
          (suspensions server_up refresh_connection (connected_state server_up)).
Proof.
  split; [exact handle_ok_connected|]. split; [exact reachable_server_up|].
  destruct (refresh_connection_reconnects server_up (connected_state server_up)
              handle_ok_connected reachable_server_up)
    as (l & s1 & s2 & s' & Hacq & _ & _ & _ & Hrun & Hconn & _ & _ & Hlt & _ & _ & _
        & Hawaits & Hheld & _).
  injection Hacq as <-.
  exists s'. split; [exact Hrun|]. split; [exact Hconn|].
  split; [apply Hlt; reflexivity|]. split; [exact Hawaits|exact Hheld].
Defined.

(** C1, as stated, fails: the store is reachable and the refresh
    reconnects, but the wall clock was set back in between, and
    [last_refresh_time] is 900 where it was 1000. *)
Lemma refresh_connection_stamp_not_increased :
  let s := connected_state clock_set_back in
  let r := run clock_set_back refresh_connection s in
  reachable clock_set_back ∧ handle_ok (self s) ∧
  fst r = Returned tt ∧ Connected (self (snd r)) ∧
  last_refresh_time (self s) = 1000%Q ∧
  last_refresh_time (self (snd r)) = 900%Q ∧
  ¬ (last_refresh_time (self s) < last_refresh_time (self (snd r)))%Q.
Proof.
  cbv zeta.
  assert (reachable clock_set_back) as Hreach by (by intros k).
  assert (handle_ok (self (connected_state clock_set_back))) as Hok by (by split).
  destruct (run_refresh_connection_reachable clock_set_back _ Hok Hreach)
    as (l & s1 & s2 & _ & _ & _ & _ & Hconn & Hrun & _ & Htr & _).
  assert (last_refresh_time (self (connected_state clock_set_back)) = 1000%Q) as H0
    by reflexivity.
  assert (last_refresh_time
            (self (leave clock_set_back
                     (_lock (self (connected_state clock_set_back))) s2)) = 900%Q)
    as H1 by (simpl; by rewrite Htr).
  assert (Connected (self (leave clock_set_back
                     (_lock (self (connected_state clock_set_back))) s2)))
    as Hconn' by exact Hconn.
  clear Hconn. revert Hrun H1 Hconn'.
  generalize (leave clock_set_back
                (_lock (self (connected_state clock_set_back))) s2).
  intros s' Hrun H1 Hconn. rewrite Hrun. cbn [fst snd]. rewrite H0, H1.
  split; [done|]. split; [done|]. split; [done|]. split; [exact Hconn|].
  split; [done|]. split; [done|]. by intros H.
Qed.

(** C3 fails on the code: the probe of the first [connect()] fails, the
    failure reaches the caller, and the handle keeps the connection
    object it has just created: it is not back in the disconnected state
    in which [connect()] found it, and the client is left open. *)
Theorem connect_probe_failure_keeps_client :
  let r := run server_down connect fresh_state in
  Disconnected (self fresh_state) ∧
  fst r = Raised ConnectionFailure ∧
  client (self (snd r)) = Some 0%nat ∧
  is_ready (self (snd r)) = false ∧
  ¬ Disconnected (self (snd r)) ∧
  live (world (snd r)) = {[ 0%nat ]} ∪ ∅ ∧
  trace (world (snd r)) =
    [ EvLog ERROR MsgConnectFailed;
      EvAwait (Ping 0);
      EvOpen 0 "mongodb://localhost:27017" (get_connection_options local_config);
      EvLog INFO MsgConnecting ].
Proof.
  cbv zeta. repeat split; try reflexivity. by intros [H _].
Qed.

Lemma connect_failure_is_sticky_witness :
  handle_ok (self fresh_state) ∧
  run server_down connect fresh_state
    = (Raised ConnectionFailure, snd (run server_down connect fresh_state)) ∧
  ∀ n, run server_up (times n connect) (snd (run server_down connect fresh_state))
       = (Returned tt, snd (run server_down connect fresh_state)).
Proof.
  split; [exact handle_ok_fresh|]. split; [reflexivity|].
  intros n.
  destruct (connect_failure_is_sticky server_down fresh_state ConnectionFailure
              (snd (run server_down connect fresh_state))
              handle_ok_fresh eq_refl)
    as (_ & _ & _ & _ & Hn & _).
  apply Hn.
Defined.

(** ** The health-check loop never ends by itself *)

(** The handle is due for a refresh at the wall-clock reading [now]. *)
Definition stale (now : Q) (h : MongoDBClient) : bool :=
  negb (Qle_bool (now - last_refresh_time h) (_refresh_interval h)).

Section HealthCheck.
Variable env : Env.












(** The three ways out of a pass through the loop. *)
Lemma run_health_check_routine_S n s :
  run env (health_check_routine (S n)) s =
  match run env health_check_body s with
  | (Returned _, s1) => run env (health_check_routine n) s1
  | (Raised e, s1) =>
      if is_CancelledError e then
        (Returned Break, on_world (emit (EvLog INFO MsgHealthCancelled)) s1)
      else if is_Exception e then
        let s2 := on_world resume
                    (on_world (emit (EvAwait (Sleep 5)))
                       (on_world (emit (EvLog ERROR MsgHealthError)) s1)) in
        if cancelled env (answered (world s1))
        then (Raised CancelledError, s2)
        else run env (health_check_routine n) s2
      else (Raised e, s1)
  | (Deadlocked, s1) => (Deadlocked, s1)
  end.
Proof.
  change (health_check_routine (S n)) with
    (handle health_check_body
      (λ _, health_check_routine n)
      (λ e, if is_CancelledError e then
              logger INFO MsgHealthCancelled ;; Ret Break
            else if is_Exception e then
              logger ERROR MsgHealthError ;;
              await (Sleep 5) ;;
              health_check_routine n
            else Raise e)).
  rewrite run_handle.
  destruct (run env health_check_body s) as [[[]|e|] s1]; [done| |done].
  destruct (is_CancelledError e); [done|].
  destruct (is_Exception e); [|done].
  rewrite run_bind, run_logger, run_bind.
  unfold await at 1. rewrite run_bind. simpl.
  by destruct (cancelled env (answered (world s1))).
Qed.


Lemma run_sleep d s :
  cancelled env (answered (world s)) = false →
  run env (await (Sleep d)) s =
  (Returned tt, on_world resume (on_world (emit (EvAwait (Sleep d))) s)).
Proof. intros Hc. unfold await, mbind, Co_bind. simpl. by rewrite Hc. Qed.

Lemma run_health_check_body s :
  run env health_check_body s =
  let now := clock env (time_reads (world s)) in
  let s0 := on_world tick s in
  match
    (if stale now (self s) then run env refresh_connection s0 else (Returned tt, s0))
  with
  | (Returned _, s1) =>
      match run env (await (Sleep 30)) s1 with
      | (Returned _, s2) =>
          match run env is_connected s2 with
          | (Returned true, s3) => (Returned tt, s3)
          | (Returned false, s3) =>
              run env refresh_connection
                (on_world (emit (EvLog WARNING MsgUnhealthy)) s3)
          | (Raised e, s3) => (Raised e, s3)
          | (Deadlocked, s3) => (Deadlocked, s3)
          end
      | (Raised e, s2) => (Raised e, s2)
      | (Deadlocked, s2) => (Deadlocked, s2)
      end
  | (Raised e, s1) => (Raised e, s1)
  | (Deadlocked, s1) => (Deadlocked, s1)
  end.
Proof.
  unfold health_check_body. rewrite run_bind. simpl (run env time_time s).
  cbv beta iota. rewrite run_bind. simpl (run env get_self _).
  cbv beta iota zeta. rewrite run_bind. unfold stale.
  assert (run env
            (if negb (Qle_bool (clock env (time_reads (world s)) -
                                last_refresh_time (self s))
                        (_refresh_interval (self s)))
             then refresh_connection else Ret ()) (on_world tick s) =
          (if negb (Qle_bool (clock env (time_reads (world s)) -
                              last_refresh_time (self s))
                      (_refresh_interval (self s)))
           then run env refresh_connection (on_world tick s)
           else (Returned (), on_world tick s))) as ->.
  { by destruct (negb _). }
  destruct (if negb _ then _ else _) as [[[]|e|] s1]; [|done..].
  rewrite run_bind.
  destruct (run env (await (Sleep 30)) s1) as [[[]|e|] s2]; [|done..].
  rewrite run_bind.
  destruct (run env is_connected s2) as [[[]|e|] s3]; [done| |done..].
  simpl negb. cbv iota. by rewrite run_bind, run_logger.
Qed.

End HealthCheck.

(** *** What the loop does not notice *)

(** Two environments that differ only in how the joins end. *)
Section JoinBlind.
Variables env env' : Env.
Hypothesis Hclock : ∀ k, clock env k = clock env' k.
Hypothesis Hprobe : ∀ k, probe env k = probe env' k.
Hypothesis Hcancelled : ∀ k, cancelled env k = cancelled env' k.












End JoinBlind.







(** The probe of the first pass fails and so does the probe of the
    reconnect; the cancellation arrives in the sleep of the second pass.
    The error is logged, the loop backs off for 5 seconds, starts the
    second pass and leaves by [break]. *)
Definition cancelled_later : Env :=
  mkEnv (λ _, 1000%Q)
        (λ k, match k with
              | 2%nat => Some OperationFailure
              | 4%nat => Some ConnectionFailure
              | _ => None
              end)
        (λ k, match k with 6%nat => true | _ => false end)
        (λ _, false).

Example health_check_routine_backs_off :
  let r := run cancelled_later (health_check_routine 5)
               (connected_state cancelled_later) in
  fst r = Returned Break ∧
  drop 6 (reverse (trace (world (snd r)))) =
    [ EvAwait (Sleep 30); EvAwait (Ping 0); EvLog WARNING MsgUnhealthy;
      EvLog INFO MsgRefreshing; EvCancel 0; EvAwait (Join 0); EvClose 0;
      EvLog INFO MsgClosed; EvLog INFO MsgConnecting;
      EvOpen 1 "mongodb://localhost:27017" (get_connection_options local_config);
      EvAwait (Ping 1); EvLog ERROR MsgConnectFailed;
      EvLog ERROR MsgHealthError; EvAwait (Sleep 5);
      EvAwait (Sleep 30); EvLog INFO MsgHealthCancelled ].
Proof. cbv zeta. split; reflexivity. Qed.

(** ** The registry of handles ([factory.py]) *)

Definition loc := nat.   (* identity of a Python object *)

(** The state of the one [MongoDBClientFactory] instance, and the
    handles it has constructed, by identity. *)
Record Registry := mkRegistry {
  _configs : gmap string MongoDBConfig;
  _clients : gmap string loc;
  handles : gmap loc MongoDBClient
}.

(** [MongoDBClientFactory.__init__], first call *)
Definition Registry_init : Registry := mkRegistry ∅ ∅ ∅.

Definition register_config (config_name : string) (cfg : MongoDBConfig)
    (r : Registry) : Registry :=
  mkRegistry (<[config_name := cfg]> (_configs r)) (_clients r) (handles r).

Definition create_client (config_name : string) (r : Registry)
    : outcome loc * Registry :=
  match _configs r !! config_name with
  | None => (Raised ValueError, r)
  | Some cfg =>
      match _clients r !! config_name with
      | Some l => (Returned l, r)
      | None =>
          let l := fresh (dom (handles r)) in
          (Returned l,
           mkRegistry (_configs r) (<[config_name := l]> (_clients r))
                      (<[l := __init__ cfg]> (handles r)))
      end
  end.

(** The calls a program can make on the registry. *)
Inductive registry_call :=
| Register (config_name : string) (cfg : MongoDBConfig)
| Create (config_name : string).

Definition call_registry (c : registry_call) (r : Registry) : Registry :=
  match c with
  | Register n cfg => register_config n cfg r
  | Create n => snd (create_client n r)
  end.

Definition calls_registry (cs : list registry_call) (r : Registry) : Registry :=
  foldl (λ r c, call_registry c r) r cs.

Definition registers (n : string) (c : registry_call) : Prop :=
  match c with Register n' _ => n' = n | Create _ => False end.

Section RegistryProps.

Lemma create_client_keeps_configs n r :
  _configs (snd (create_client n r)) = _configs r.
Proof.
  unfold create_client. destruct (_configs r !! n); [|done].
  by destruct (_clients r !! n).
Qed.

Lemma create_client_keeps_clients n m l r :
  _clients r !! m = Some l → _clients (snd (create_client n r)) !! m = Some l.
Proof.
  intros Hm. unfold create_client. destruct (_configs r !! n); [|done].
  destruct (_clients r !! n) eqn:Hn; [done|]. simpl.
  rewrite lookup_insert_ne; [done|]. intros ->. congruence.
Qed.

Lemma calls_registry_keep_clients cs : ∀ r m l,
  _clients r !! m = Some l → _clients (calls_registry cs r) !! m = Some l.
Proof.
  induction cs as [|c cs IH]; intros r m l Hm; [done|].
  simpl. apply IH. destruct c as [n cfg|n]; [done|].
  by apply create_client_keeps_clients.
Qed.

Lemma calls_registry_never_registered cs : ∀ r n,
  _configs r !! n = None →
  Forall (λ c, ¬ registers n c) cs →
  _configs (calls_registry cs r) !! n = None.
Proof.
  induction cs as [|c cs IH]; intros r n Hn Hcs; [done|].
  inversion Hcs as [|? ? Hc Hcs']; subst. simpl. apply IH; [|done].
  destruct c as [m cfg|m]; simpl.
  - rewrite lookup_insert_ne; [done|]. intros ->. by apply Hc.
  - by rewrite create_client_keeps_configs.
Qed.

Lemma calls_registry_keep_registered cs : ∀ r n,
  is_Some (_configs r !! n) → is_Some (_configs (calls_registry cs r) !! n).
Proof.
  induction cs as [|c cs IH]; intros r n Hn; [done|].
  simpl. apply IH. destruct c as [m cfg|m]; simpl.
  - destruct (decide (m = n)) as [->|Hne].
    + rewrite lookup_insert_eq. by eexists.
    + by rewrite lookup_insert_ne.
  - by rewrite create_client_keeps_configs.
Qed.

(** C5: [create_client(name)] fails with [ValueError] (config not
    found) and changes nothing, so constructs no handle, when [name]
    is not registered, as it is after any calls none of which
    registers it.  When [name] is registered it returns a handle; the
    first call constructs the handle from the stored configuration,
    under a fresh identity, and every later call, whatever is
    registered or created in between, returns the same handle and
    changes nothing. *)
Theorem create_client_one_handle_per_name name r :
  (_configs r !! name = None →
   create_client name r = (Raised ValueError, r)) ∧
  (∀ cs, Forall (λ c, ¬ registers name c) cs →
   create_client name (calls_registry cs Registry_init)
     = (Raised ValueError, calls_registry cs Registry_init)) ∧
  (∀ cfg, _configs r !! name = Some cfg →
   ∃ l r',
     create_client name r = (Returned l, r') ∧
     _clients r' !! name = Some l ∧
     (_clients r !! name = None →
        handles r !! l = None ∧
        r' = mkRegistry (_configs r) (<[name := l]> (_clients r))
                        (<[l := __init__ cfg]> (handles r))) ∧
     (is_Some (_clients r !! name) → r' = r) ∧
     (∀ cs, create_client name (calls_registry cs r')
            = (Returned l, calls_registry cs r'))).
Proof.
  split; [|split].
  - intros Hn. unfold create_client. by rewrite Hn.
  - intros cs Hcs. unfold create_client.
    by rewrite (calls_registry_never_registered cs Registry_init name).
  - intros cfg Hcfg.
    assert (∀ l r', _clients r' !! name = Some l →
              is_Some (_configs r' !! name) →
              ∀ cs, create_client name (calls_registry cs r')
                    = (Returned l, calls_registry cs r')) as Hstable.
    { intros l r' Hl Hc cs. unfold create_client.
      destruct (calls_registry_keep_registered cs r' name Hc) as [cfg' ->].
      by rewrite (calls_registry_keep_clients cs r' name l Hl). }
    unfold create_client at 1. rewrite Hcfg.
    destruct (_clients r !! name) as [l|] eqn:Hl.
    + exists l, r. repeat split; try done.
      apply Hstable; [done|]. rewrite Hcfg. by eexists.
    + eexists _, _. split; [reflexivity|]. simpl.
      split; [by rewrite lookup_insert_eq|].
      split; [|split].
      * intros _. split; [|done].
        apply not_elem_of_dom, is_fresh.
      * by intros [? ?].
      * apply Hstable; simpl; [by rewrite lookup_insert_eq|].
        rewrite Hcfg. by eexists.
Qed.
End RegistryProps.

(** The start of [main.py]: the configuration is registered under
    "default", and two calls of [create_client("default")] give the same
    handle, the only one there is. *)
Example create_client_default :
  let r0 := register_config "default" local_config Registry_init in
  let '(a, r1) := create_client "default" r0 in
  let '(b, r2) := create_client "default" r1 in
  a = Returned 0%nat ∧ b = Returned 0%nat ∧ r2 = r1 ∧
  handles r2 = {[ 0%nat := __init__ local_config ]} ∧
  fst (create_client "other" r2) = Raised ValueError.
Proof. vm_compute. repeat split. Qed.

(** ** Documents and identifiers *)

(** [bytes.fromhex]: pairs of hexadecimal digits, with ASCII white space
    allowed between the pairs. *)
Definition hex_digit (c : ascii) : option N :=
  let n := N_of_ascii c in
  if (48 <=? n)%N && (n <=? 57)%N then Some (n - 48)%N
  else if (97 <=? n)%N && (n <=? 102)%N then Some (n - 87)%N
  else if (65 <=? n)%N && (n <=? 70)%N then Some (n - 55)%N
  else None.

Definition is_space (c : ascii) : bool :=
  let n := N_of_ascii c in
  (n =? 32)%N || ((9 <=? n)%N && (n <=? 13)%N).

Fixpoint fromhex (s : string) : option string :=
  match s with
  | EmptyString => Some EmptyString
  | String c rest =>
      if is_space c then fromhex rest
      else
        match rest with
        | EmptyString => None
        | String d rest' =>
            match hex_digit c, hex_digit d, fromhex rest' with
            | Some h, Some l, Some bs =>
                Some (String (ascii_of_N (16 * h + l)) bs)
            | _, _, _ => None
            end
        end
  end.

(** [bson.ObjectId(oid)] for a [str]: the 12 bytes that 24 hexadecimal
    digits spell; [None] stands for [InvalidId]. *)
Definition ObjectId (oid : string) : option string :=
  if decide (String.length oid = 24%nat) then fromhex oid else None.

Inductive value :=
| VNone
| VBool (b : bool)
| VInt (z : Z)
| VStr (s : string)
| VObjectId (binary : string).

#[global] Instance value_eq_dec : EqDecision value.
Proof. solve_decision. Defined.

(** A [Dict[str, Any]] with scalar values, and a dictionary of such
    dictionaries: an update with its operators, a stage of a pipeline. *)
Abbreviation document := (gmap string value).
Abbreviation opdoc := (gmap string (gmap string value)).
Abbreviation kwargs := (list (string * value)).

Example ObjectId_valid :
  ObjectId "507f1f77bcf86cd799439011" =
  Some (string_of_list_ascii
          (map ascii_of_N [80; 127; 31; 119; 188; 248; 108; 215; 153; 67; 144; 17]%N)).
Proof. reflexivity. Qed.

Example ObjectId_invalid : ObjectId "missing-id" = None.
Proof. reflexivity. Qed.

(** ** Lookups on the handle *)

Record Database := mkDatabase { db_client : conn; db_name : string }.
Record Collection := mkCollection { col_database : Database; col_name : string }.

(** [database_name or self.config.database] *)
Definition or_default (database_name : option string) (d : string) : string :=
  match database_name with
  | Some n => if decide (n = "") then d else n
  | None => d
  end.

Definition get_database (h : MongoDBClient) (database_name : option string)
    : outcome Database :=
  match client h with
  | None => Raised ConnectionError
  | Some c => Returned (mkDatabase c (or_default database_name (database (config h))))
  end.

Definition get_collection (h : MongoDBClient) (collection_name : string)
    (database_name : option string) : outcome Collection :=
  match get_database h database_name with
  | Returned db => Returned (mkCollection db collection_name)
  | Raised e => Raised e
  | Deadlocked => Deadlocked
  end.

(** ** The driver *)

(** The collection-scoped calls of the driver that the facade uses,
    each with what the facade reads off its result.  The driver and the
    store behind it are external: the facade is verified for every
    implementation of this interface. *)
Class Driver (Server : Type) := {
  drv_find_one :
    Collection → document → kwargs → Server → outcome (option document) * Server;
  drv_find :                                       (* find(...).to_list(None) *)
    Collection → document → kwargs → Server → outcome (list document) * Server;
  drv_insert_one :                                 (* .inserted_id *)
    Collection → document → kwargs → Server → outcome value * Server;
  drv_insert_many :                                (* .inserted_ids *)
    Collection → list document → kwargs → Server → outcome (list value) * Server;
  drv_update_one :                                 (* .modified_count *)
    Collection → document → opdoc → kwargs → Server → outcome Z * Server;
  drv_update_many :                                (* .modified_count *)
    Collection → document → opdoc → kwargs → Server → outcome Z * Server;
  drv_delete_one :                                 (* .deleted_count *)
    Collection → document → kwargs → Server → outcome Z * Server;
  drv_delete_many :                                (* .deleted_count *)
    Collection → document → kwargs → Server → outcome Z * Server;
  drv_count_documents :
    Collection → document → kwargs → Server → outcome Z * Server;
  drv_aggregate :                                  (* aggregate(...).to_list(None) *)
    Collection → list opdoc → kwargs → Server → outcome (list document) * Server;
  drv_ObjectId :        (* ObjectId(), as insert_one makes one for a document without *)
    Server → value * Server
}.

(** ** The program state above the handle *)

#[global] Instance MongoDBClient_inhabited : Inhabited MongoDBClient :=
  populate (__init__ (default_config "" "")).

(** The objects that the facades share: the handles and the dictionaries
    of the callers, by identity; the world of the handles; the store. *)
Record Sys (Server : Type) := mkSys {
  sys_handles : gmap loc MongoDBClient;
  sys_dicts : gmap loc document;
  sys_world : World;
  sys_server : Server
}.

Arguments mkSys {Server}.
Arguments sys_handles {Server}.
Arguments sys_dicts {Server}.
Arguments sys_world {Server}.
Arguments sys_server {Server}.

Definition SysM (Server A : Type) : Type := Sys Server → outcome A * Sys Server.

#[global] Instance SysM_ret {Server} : MRet (SysM Server) := λ A a s, (Returned a, s).
#[global] Instance SysM_bind {Server} : MBind (SysM Server) := λ A B f m s,
  match m s with
  | (Returned a, s') => f a s'
  | (Raised e, s') => (Raised e, s')
  | (Deadlocked, s') => (Deadlocked, s')
  end.

(** The handle behind a reference.  A reference always points to an
    object; the default is never read. *)
Definition deref {Server} (l : loc) (s : Sys Server) : MongoDBClient :=
  sys_handles s !!! l.

(** A method of the handle at [l], run as a coroutine to its end. *)
Definition invoke {Server A} (env : Env) (l : loc) (m : Co A) : SysM Server A :=
  λ s,
    let '(r, cs) := run env m (mkCState (deref l s) (sys_world s)) in
    (r, mkSys (<[l := self cs]> (sys_handles s)) (sys_dicts s) (world cs) (sys_server s)).

(** A call of the driver. *)
Definition driver {Server A} (f : Server → outcome A * Server) : SysM Server A :=
  λ s,
    let '(r, srv) := f (sys_server s) in
    (r, mkSys (sys_handles s) (sys_dicts s) (sys_world s) srv).

(** The dictionary behind a reference. *)
Definition read_dict {Server} (l : loc) : SysM Server document :=
  λ s, (Returned (sys_dicts s !!! l), s).

Definition with_dict {Server} (l : loc) (d : document) (s : Sys Server) : Sys Server :=
  mkSys (sys_handles s) (<[l := d]> (sys_dicts s)) (sys_world s) (sys_server s).

Definition write_dict {Server} (l : loc) (d : document) : SysM Server unit :=
  λ s, (Returned tt, with_dict l d s).

(** [ObjectId()] *)
Definition new_ObjectId `{Driver Server} : SysM Server value :=
  λ s,
    let '(oid, srv) := drv_ObjectId (sys_server s) in
    (Returned oid, mkSys (sys_handles s) (sys_dicts s) (sys_world s) srv).

(** [str(value)] *)
Definition hex_char (n : N) : ascii :=
  ascii_of_N (if (n <? 10)%N then 48 + n else 87 + n).

Fixpoint hex (bs : string) : string :=
  match bs with
  | EmptyString => EmptyString
  | String b rest =>
      let n := N_of_ascii b in
      String (hex_char (n / 16)) (String (hex_char (n mod 16)) (hex rest))
  end.

Definition str (v : value) : string :=
  match v with
  | VNone => "None"
  | VBool true => "True"
  | VBool false => "False"
  | VInt z => pretty z
  | VStr s => s
  | VObjectId b => hex b
  end.

(** ** The operation facade ([operations.py]) *)

Module MongoOperation.

Record t := mk {
  client : loc;
  collection_name : string;
  database_name : option string
}.

Section Methods.
Context {Server : Type} `{Driver Server}.

Definition get_collection (self : t) : SysM Server Collection :=
  λ s, (get_collection (deref (client self) s)
          (collection_name self) (database_name self), s).

Definition find_one (self : t) (query : document) (kw : kwargs)
    : SysM Server (option document) :=
  collection ← get_collection self ;
  driver (drv_find_one collection query kw).

Definition find_many (self : t) (query : document) (kw : kwargs)
    : SysM Server (list document) :=
  collection ← get_collection self ;
  driver (drv_find collection query kw).

Definition insert_one (self : t) (doc : document) (kw : kwargs)
    : SysM Server string :=
  collection ← get_collection self ;
  inserted_id ← driver (drv_insert_one collection doc kw) ;
  mret (str inserted_id).

(** [insert_one] on a dictionary that the caller keeps.  The driver
    gives a document without "_id" a new [ObjectId], in place, before
    it sends it: the caller's dictionary has the identifier afterwards,
    whether the store has accepted the document or not. *)
Definition insert_one_at (self : t) (document : loc) (kw : kwargs)
    : SysM Server string :=
  collection ← get_collection self ;
  d ← read_dict document ;
  (if decide (is_Some (d !! "_id")) then mret tt
   else
     oid ← new_ObjectId ;
     write_dict document (<["_id" := oid]> d)) ;;
  d' ← read_dict document ;
  inserted_id ← driver (drv_insert_one collection d' kw) ;
  mret (str inserted_id).

Definition insert_many (self : t) (docs : list document) (kw : kwargs)
    : SysM Server (list string) :=
  collection ← get_collection self ;
  inserted_ids ← driver (drv_insert_many collection docs kw) ;
  mret (map str inserted_ids).

Definition update_one (self : t) (query : document) (update : opdoc)
    (kw : kwargs) : SysM Server Z :=
  collection ← get_collection self ;
  driver (drv_update_one collection query update kw).

Definition update_many (self : t) (query : document) (update : opdoc)
    (kw : kwargs) : SysM Server Z :=
  collection ← get_collection self ;
  driver (drv_update_many collection query update kw).

Definition delete_one (self : t) (query : document) (kw : kwargs)
    : SysM Server Z :=
  collection ← get_collection self ;
  driver (drv_delete_one collection query kw).

Definition delete_many (self : t) (query : document) (kw : kwargs)
    : SysM Server Z :=
  collection ← get_collection self ;
  driver (drv_delete_many collection query kw).

Definition count_documents (self : t) (query : document) (kw : kwargs)
    : SysM Server Z :=
  collection ← get_collection self ;
  driver (drv_count_documents collection query kw).

Definition aggregate (self : t) (pipeline : list opdoc) (kw : kwargs)
    : SysM Server (list document) :=
  collection ← get_collection self ;
  driver (drv_aggregate collection pipeline kw).

(** The ten operations, as one type of requests. *)
Inductive request : Type → Type :=
| FindOne (query : document) (kw : kwargs) : request (option document)
| FindMany (query : document) (kw : kwargs) : request (list document)
| InsertOne (doc : document) (kw : kwargs) : request string
| InsertMany (docs : list document) (kw : kwargs) : request (list string)
| UpdateOne (query : document) (update : opdoc) (kw : kwargs) : request Z
| UpdateMany (query : document) (update : opdoc) (kw : kwargs) : request Z
| DeleteOne (query : document) (kw : kwargs) : request Z
| DeleteMany (query : document) (kw : kwargs) : request Z
| CountDocuments (query : document) (kw : kwargs) : request Z
| Aggregate (pipeline : list opdoc) (kw : kwargs) : request (list document).

Definition call {A} (self : t) (r : request A) : SysM Server A :=
  match r with
  | FindOne q kw => find_one self q kw
  | FindMany q kw => find_many self q kw
  | InsertOne d kw => insert_one self d kw
  | InsertMany ds kw => insert_many self ds kw
  | UpdateOne q u kw => update_one self q u kw
  | UpdateMany q u kw => update_many self q u kw
  | DeleteOne q kw => delete_one self q kw
  | DeleteMany q kw => delete_many self q kw
  | CountDocuments q kw => count_documents self q kw
  | Aggregate p kw => aggregate self p kw
  end.
End Methods.
End MongoOperation.

(** What a request asks of the driver on the collection [coll], and what
    the facade makes of the driver's result. *)
Definition then_map {S A B} (f : A → B) (r : outcome A * S) : outcome B * S :=
  match r with
  | (Returned a, s) => (Returned (f a), s)
  | (Raised e, s) => (Raised e, s)
  | (Deadlocked, s) => (Deadlocked, s)
  end.

Definition on_collection `{Driver Server} {A} (r : MongoOperation.request A)
    (coll : Collection) : Server → outcome A * Server :=
  match r with
  | MongoOperation.FindOne q kw => drv_find_one coll q kw
  | MongoOperation.FindMany q kw => drv_find coll q kw
  | MongoOperation.InsertOne d kw => λ srv, then_map str (drv_insert_one coll d kw srv)
  | MongoOperation.InsertMany ds kw => λ srv, then_map (map str) (drv_insert_many coll ds kw srv)
  | MongoOperation.UpdateOne q u kw => drv_update_one coll q u kw
  | MongoOperation.UpdateMany q u kw => drv_update_many coll q u kw
  | MongoOperation.DeleteOne q kw => drv_delete_one coll q kw
  | MongoOperation.DeleteMany q kw => drv_delete_many coll q kw
  | MongoOperation.CountDocuments q kw => drv_count_documents coll q kw
  | MongoOperation.Aggregate p kw => drv_aggregate coll p kw
  end.

(** The collection that the facade [op] names on the connection [c] of
    the handle [h]. *)
Definition collection_on (op : MongoOperation.t) (h : MongoDBClient) (c : conn)
    : Collection :=
  mkCollection
    (mkDatabase c (or_default (MongoOperation.database_name op) (database (config h))))
    (MongoOperation.collection_name op).

Section OperationProps.
Context {Server : Type} `{Driver Server}.

Lemma call_resolves {A} (op : MongoOperation.t) (r : MongoOperation.request A)
    (s : Sys Server) :
  MongoOperation.call op r s =
  match client (deref (MongoOperation.client op) s) with
  | None => (Raised ConnectionError, s)
  | Some c =>
      let '(res, srv) :=
        on_collection r (collection_on op (deref (MongoOperation.client op) s) c)
                      (sys_server s) in
      (res, mkSys (sys_handles s) (sys_dicts s) (sys_world s) srv)
  end.
Proof.
  destruct r; simpl;
    unfold MongoOperation.find_one, MongoOperation.find_many,
      MongoOperation.insert_one, MongoOperation.insert_many,
      MongoOperation.update_one, MongoOperation.update_many,
      MongoOperation.delete_one, MongoOperation.delete_many,
      MongoOperation.count_documents, MongoOperation.aggregate,
      MongoOperation.get_collection, get_collection, get_database,
      mbind, SysM_bind, driver, collection_on; simpl;
    destruct (client (deref (MongoOperation.client op) s)) as [c|]; try done.
  - by destruct (drv_insert_one _ _ _ _) as [[?|?|] ?].
  - by destruct (drv_insert_many _ _ _ _) as [[?|?|] ?].
Qed.

Lemma deref_insert l h hs ds w (srv : Server) :
  deref l (mkSys (<[l := h]> hs) ds w srv) = h.
Proof. unfold deref. simpl. apply lookup_total_insert_eq. Qed.

Lemma invoke_refresh_connection env l (s : Sys Server) :
  handle_ok (deref l s) →
  reachable env →
  ∃ s', invoke env l refresh_connection s = (Returned tt, s') ∧
    client (deref l s') = Some (next_conn (sys_world s)) ∧
    is_ready (deref l s') = true ∧
    config (deref l s') = config (deref l s) ∧
    next_conn (sys_world s) ∈ live (sys_world s') ∧
    (∀ c, client (deref l s) = Some c → c ≠ next_conn (sys_world s) →
          c ∉ live (sys_world s')) ∧
    sys_server s' = sys_server s ∧
    sys_dicts s' = sys_dicts s.
Proof.
  intros Hok Hreach. unfold invoke.
  destruct (run_refresh_connection_reachable env
              (mkCState (deref l s) (sys_world s)) Hok Hreach)
    as (l0 & s1 & s2 & _ & Hd & _ & Hc & [_ Hrd] & -> & Hcl & _ & Hlive).
  simpl in Hcl, Hlive.
  eexists. split; [reflexivity|]. rewrite !deref_insert. simpl.
  assert (config (self s2) = config (deref l s)) as Hcfg.
  { destruct (run_disconnect env (enter l0 (mkCState (deref l s) (sys_world s))))
      as (s1' & Hd' & Hc1 & _ & _ & _ & Hcfg1 & _).
    rewrite Hd in Hd'. injection Hd' as <-.
    destruct (run_connect_absent_ok env s1 Hc1 (Hreach _))
      as (s2' & Hc' & _ & _ & _ & _ & _ & Hcfg2 & _).
    rewrite Hc in Hc'. injection Hc' as <-.
    by rewrite Hcfg2, Hcfg1. }
  rewrite Hlive. repeat split; try done.
  - by apply elem_of_union_l, elem_of_singleton.
  - intros c Hc0 Hne. rewrite Hc0.
    intros [Hin|Hin]%elem_of_union.
    + by apply elem_of_singleton in Hin.
    + apply elem_of_difference in Hin as [_ Hnot].
      by apply Hnot, elem_of_singleton.
Qed.

(** C4: the facade holds a reference to the handle, the name of the
    collection and the optional name of the database ([MongoOperation.t]
    has no other field, and no operation changes it).  Each of the ten
    operations resolves the collection from the connection that the
    handle holds at the time of the call, which fails with
    [ConnectionError] when there is none, and hands its arguments to the
    driver on that collection.  After a refresh of the handle, the same
    facade works on the connection that the refresh has opened. *)
Theorem operation_resolves_collection_per_call {A}
    (op : MongoOperation.t) (r : MongoOperation.request A) (s : Sys Server) :
  let h := deref (MongoOperation.client op) s in
  MongoOperation.call op r s =
    match client h with
    | None => (Raised ConnectionError, s)
    | Some c =>
        let '(res, srv) := on_collection r (collection_on op h c) (sys_server s) in
        (res, mkSys (sys_handles s) (sys_dicts s) (sys_world s) srv)
    end ∧
  ∀ env, handle_ok h → reachable env →
    ∃ s', invoke env (MongoOperation.client op) refresh_connection s
            = (Returned tt, s') ∧
      let c' := next_conn (sys_world s) in
      client (deref (MongoOperation.client op) s') = Some c' ∧
      c' ∈ live (sys_world s') ∧
      (∀ c, client h = Some c → c ≠ c' → c ∉ live (sys_world s')) ∧
      MongoOperation.call op r s' =
        let '(res, srv) := on_collection r (collection_on op h c') (sys_server s) in
        (res, mkSys (sys_handles s') (sys_dicts s') (sys_world s') srv).
Proof.
  cbv zeta. split; [apply call_resolves|].
  intros env Hok Hreach.
  destruct (invoke_refresh_connection env _ s Hok Hreach)
    as (s' & Hrun & Hc & _ & Hcfg & Hlive & Hold & Hsrv & _).
  exists s'. split; [done|]. split; [done|]. split; [done|]. split; [done|].
  rewrite call_resolves, Hc, Hsrv. unfold collection_on. by rewrite Hcfg.
Qed.
End OperationProps.

(** ** A reference store *)

(** An in-memory implementation of the driver interface, with the
    store's semantics for equality filters, [$set] updates and [$match]
    stages (other operators are refused with [OperationFailure]).  Every
    connection reaches the same server; keyword arguments are ignored. *)
Record MemServer := mkMemServer {
  collections : gmap (string * string) (list document);
  next_id : N
}.

Definition MemServer_init : MemServer := mkMemServer ∅ 0.

Definition col_key (coll : Collection) : string * string :=
  (db_name (col_database coll), col_name coll).

Definition docs_of (coll : Collection) (srv : MemServer) : list document :=
  default [] (collections srv !! col_key coll).

Definition set_docs (coll : Collection) (docs : list document) (srv : MemServer)
    : MemServer :=
  mkMemServer (<[col_key coll := docs]> (collections srv)) (next_id srv).

(** A document matches a filter when it has every field of the filter
    with the same value. *)
Definition matches (query doc : document) : bool := bool_decide (query ⊆ doc).

(** [{"$set": fields}] on one document.  The identifier of a stored
    document cannot be changed. *)
Definition apply_update (update : opdoc) (doc : document) : outcome document :=
  match update !! "$set" with
  | Some fields =>
      if decide (dom update = {["$set"]}) then
        match fields !! "_id" with
        | Some v =>
            if decide (doc !! "_id" = Some v) then Returned (fields ∪ doc)
            else Raised OperationFailure
        | None => Returned (fields ∪ doc)
        end
      else Raised OperationFailure
  | None => Raised OperationFailure
  end.

(** The documents after the update of the first match, and the number of
    documents modified. *)
Fixpoint update_first (query : document) (update : opdoc) (docs : list document)
    : outcome (list document * Z) :=
  match docs with
  | [] => Returned ([], 0%Z)
  | d :: ds =>
      if matches query d then
        match apply_update update d with
        | Returned d' => Returned (d' :: ds, if decide (d' = d) then 0%Z else 1%Z)
        | Raised e => Raised e
        | Deadlocked => Deadlocked
        end
      else
        match update_first query update ds with
        | Returned (ds', n) => Returned (d :: ds', n)
        | Raised e => Raised e
        | Deadlocked => Deadlocked
        end
  end.

Fixpoint update_all (query : document) (update : opdoc) (docs : list document)
    : outcome (list document * Z) :=
  match docs with
  | [] => Returned ([], 0%Z)
  | d :: ds =>
      match update_all query update ds with
      | Returned (ds', n) =>
          if matches query d then
            match apply_update update d with
            | Returned d' =>
                Returned (d' :: ds', if decide (d' = d) then n else (n + 1)%Z)
            | Raised e => Raised e
            | Deadlocked => Deadlocked
            end
          else Returned (d :: ds', n)
      | Raised e => Raised e
      | Deadlocked => Deadlocked
      end
  end.

Fixpoint delete_first (query : document) (docs : list document)
    : list document * Z :=
  match docs with
  | [] => ([], 0%Z)
  | d :: ds =>
      if matches query d then (ds, 1%Z)
      else let '(ds', n) := delete_first query ds in (d :: ds', n)
  end.

(** The bytes of a generated identifier. *)
Fixpoint bytes_of_N (len : nat) (n : N) : string :=
  match len with
  | O => EmptyString
  | S len' => bytes_of_N len' (n / 256) +:+ String (ascii_of_N (n mod 256)) EmptyString
  end.

Definition mem_insert (coll : Collection) (doc : document) (srv : MemServer)
    : outcome value * MemServer :=
  let '(id, doc', nid) :=
    match doc !! "_id" with
    | Some v => (v, doc, next_id srv)
    | None =>
        let v := VObjectId (bytes_of_N 12 (next_id srv)) in
        (v, <["_id" := v]> doc, (next_id srv + 1)%N)
    end in
  if existsb (matches {["_id" := id]}) (docs_of coll srv)
  then (Raised OperationFailure, srv)
  else (Returned id,
        mkMemServer (<[col_key coll := (docs_of coll srv ++ [doc'])%list]> (collections srv)) nid).

Fixpoint mem_insert_many (coll : Collection) (docs : list document) (srv : MemServer)
    : outcome (list value) * MemServer :=
  match docs with
  | [] => (Returned [], srv)
  | d :: ds =>
      match mem_insert coll d srv with
      | (Returned id, srv') => then_map (cons id) (mem_insert_many coll ds srv')
      | (Raised e, srv') => (Raised e, srv')
      | (Deadlocked, srv') => (Deadlocked, srv')
      end
  end.

Definition with_docs (coll : Collection) (srv : MemServer)
    (r : outcome (list document * Z)) : outcome Z * MemServer :=
  match r with
  | Returned (docs, n) => (Returned n, set_docs coll docs srv)
  | Raised e => (Raised e, srv)
  | Deadlocked => (Deadlocked, srv)
  end.

Fixpoint mem_aggregate (pipeline : list opdoc) (docs : list document)
    : outcome (list document) :=
  match pipeline with
  | [] => Returned docs
  | stage :: rest =>
      match stage !! "$match" with
      | Some query =>
          if decide (dom stage = {["$match"]})
          then mem_aggregate rest (filter (λ d, matches query d = true) docs)
          else Raised OperationFailure
      | None => Raised OperationFailure
      end
  end.

#[global] Instance MemStore : Driver MemServer := {
  drv_find_one coll query _ srv :=
    (Returned (head (filter (λ d, matches query d = true) (docs_of coll srv))), srv);
  drv_find coll query _ srv :=
    (Returned (filter (λ d, matches query d = true) (docs_of coll srv)), srv);
  drv_insert_one coll doc _ srv := mem_insert coll doc srv;
  drv_insert_many coll docs _ srv := mem_insert_many coll docs srv;
  drv_update_one coll query update _ srv :=
    with_docs coll srv (update_first query update (docs_of coll srv));
  drv_update_many coll query update _ srv :=
    with_docs coll srv (update_all query update (docs_of coll srv));
  drv_delete_one coll query _ srv :=
    with_docs coll srv (Returned (delete_first query (docs_of coll srv)));
  drv_delete_many coll query _ srv :=
    let keep := filter (λ d, matches query d ≠ true) (docs_of coll srv) in
    (Returned (Z.of_nat (length (docs_of coll srv)) - Z.of_nat (length keep))%Z,
     set_docs coll keep srv);
  drv_count_documents coll query _ srv :=
    (Returned (Z.of_nat (length (filter (λ d, matches query d = true) (docs_of coll srv)))),
     srv);
  drv_aggregate coll pipeline _ srv :=
    (mem_aggregate pipeline (docs_of coll srv), srv);
  drv_ObjectId srv :=
    (VObjectId (bytes_of_N 12 (next_id srv)),
     mkMemServer (collections srv) (next_id srv + 1))
}.

(** ** The repository facade ([repository.py]) *)

(** [ObjectId(id)], which raises [InvalidId]. *)
Definition object_id {Server} (id : string) : SysM Server string :=
  λ s, match ObjectId id with
       | Some oid => (Returned oid, s)
       | None => (Raised InvalidId, s)
       end.

Module MongoDBRepository.

Record t := mk { mongo_operation : MongoOperation.t }.

Section Methods.
Context {Server : Type} `{Driver Server}.

Definition find_by_id (self : t) (id : string) : SysM Server (option document) :=
  oid ← object_id id ;
  MongoOperation.find_one (mongo_operation self) {["_id" := VObjectId oid]} [].

Definition find_all (self : t) : SysM Server (list document) :=
  MongoOperation.find_many (mongo_operation self) ∅ [].

(** [entity] is the caller's dictionary, passed by reference. *)
Definition save (self : t) (entity : loc) : SysM Server string :=
  MongoOperation.insert_one_at (mongo_operation self) entity [].

(** [entity] is the caller's dictionary, passed by reference. *)
Definition update (self : t) (id : string) (entity : loc) : SysM Server bool :=
  d ← read_dict entity ;
  (if decide (is_Some (d !! "_id"))
   then write_dict entity (delete "_id" d)
   else mret tt) ;;
  oid ← object_id id ;
  fields ← read_dict entity ;
  result ← MongoOperation.update_one (mongo_operation self)
             {["_id" := VObjectId oid]} {["$set" := fields]} [] ;
  mret (bool_decide (0 < result)%Z).

Definition delete (self : t) (id : string) : SysM Server bool :=
  oid ← object_id id ;
  result ← MongoOperation.delete_one (mongo_operation self)
             {["_id" := VObjectId oid]} [] ;
  mret (bool_decide (0 < result)%Z).
End Methods.
End MongoDBRepository.

(** *** The reference store under [$set] *)

Lemma matches_id v (doc : document) :
  matches {["_id" := v]} doc = true ↔ doc !! "_id" = Some v.
Proof. unfold matches. rewrite bool_decide_eq_true. apply map_singleton_subseteq_l. Qed.

Lemma apply_update_set (fields doc : document) :
  fields !! "_id" = None →
  apply_update {["$set" := fields]} doc = Returned (fields ∪ doc).
Proof.
  intros Hf. unfold apply_update.
  rewrite lookup_singleton_eq, dom_singleton_L, decide_True by done.
  by rewrite Hf.
Qed.

Lemma update_first_set query (fields : document) docs :
  fields !! "_id" = None →
  ∃ docs' n,
    update_first query {["$set" := fields]} docs = Returned (docs', n) ∧
    map (λ d : document, d !! "_id") docs' = map (λ d : document, d !! "_id") docs ∧
    (Forall (λ d, matches query d = false) docs → docs' = docs ∧ n = 0%Z).
Proof.
  intros Hf. induction docs as [|d ds (ds' & n & IH & Hids & Hnone)]; simpl.
  - by eexists _, _.
  - destruct (matches query d) eqn:Hm.
    + rewrite apply_update_set by done. eexists _, _. split; [done|]. split.
      * simpl. by rewrite lookup_union_r.
      * intros Hall. inversion Hall; congruence.
    + rewrite IH. eexists _, _. split; [done|]. split.
      * simpl. by rewrite Hids.
      * intros Hall. inversion Hall as [|? ? _ Hall']; subst.
        destruct (Hnone Hall') as [-> ->]. done.
Qed.

Lemma docs_of_set_docs coll coll' docs srv :
  docs_of coll' (set_docs coll docs srv) =
  if decide (col_key coll = col_key coll') then docs else docs_of coll' srv.
Proof.
  unfold docs_of, set_docs. simpl. destruct (decide _) as [->|Hne].
  - by rewrite lookup_insert_eq.
  - by rewrite lookup_insert_ne.
Qed.

(** The handle that a repository works on. *)
Definition handle_of {Server} (repo : MongoDBRepository.t) (s : Sys Server)
    : MongoDBClient :=
  deref (MongoOperation.client (MongoDBRepository.mongo_operation repo)) s.

Section RepositoryRun.
Context {Server : Type} `{Driver Server}.

(** [update], step by step. *)
Lemma run_update (repo : MongoDBRepository.t) id entity (s : Sys Server) d :
  sys_dicts s !! entity = Some d →
  MongoDBRepository.update repo id entity s =
  let fields := delete "_id" d in
  let s1 := with_dict entity fields s in
  match ObjectId id with
  | None => (Raised InvalidId, s1)
  | Some oid =>
      match client (handle_of repo s) with
      | None => (Raised ConnectionError, s1)
      | Some c =>
          let '(res, srv) :=
            then_map (λ n, bool_decide (0 < n)%Z)
              (drv_update_one
                 (collection_on (MongoDBRepository.mongo_operation repo)
                    (handle_of repo s) c)
                 {["_id" := VObjectId oid]} {["$set" := fields]} [] (sys_server s)) in
          (res, mkSys (sys_handles s) (sys_dicts s1) (sys_world s) srv)
      end
  end.
Proof.
  intros Hd. cbv zeta.
  assert (sys_dicts s !!! entity = d) as Hd' by (by apply lookup_total_correct).
  unfold MongoDBRepository.update, mbind, SysM_bind, read_dict. rewrite Hd'.
  assert (∀ s1 : Sys Server,
    sys_dicts s1 = <[entity := delete "_id" d]> (sys_dicts s) →
    sys_handles s1 = sys_handles s → sys_world s1 = sys_world s →
    sys_server s1 = sys_server s →
    match object_id id s1 with
    | (Returned oid, s2) =>
        match
          MongoOperation.update_one (MongoDBRepository.mongo_operation repo)
            {["_id" := VObjectId oid]} {["$set" := sys_dicts s2 !!! entity]} [] s2
        with
        | (Returned a, s3) => (Returned (bool_decide (0 < a)%Z), s3)
        | (Raised e, s3) => (Raised e, s3)
        | (Deadlocked, s3) => (Deadlocked, s3)
        end
    | (Raised e, s2) => (Raised e, s2)
    | (Deadlocked, s2) => (Deadlocked, s2)
    end =
    match ObjectId id with
    | None => (Raised InvalidId, with_dict entity (delete "_id" d) s)
    | Some oid =>
        match client (handle_of repo s) with
        | None => (Raised ConnectionError, with_dict entity (delete "_id" d) s)
        | Some c =>
            let '(res, srv) :=
              then_map (λ n, bool_decide (0 < n)%Z)
                (drv_update_one
                   (collection_on (MongoDBRepository.mongo_operation repo)
                      (handle_of repo s) c)
                   {["_id" := VObjectId oid]} {["$set" := delete "_id" d]} []
                   (sys_server s)) in
            (res,
             mkSys (sys_handles s) (sys_dicts (with_dict entity (delete "_id" d) s))
                   (sys_world s) srv)
        end
    end) as Hrest.
  { intros [hs ds w srv] Hds Hhs Hw Hsrv.
    simpl in Hds, Hhs, Hw, Hsrv. subst hs ds w srv.
    unfold object_id. destruct (ObjectId id) as [oid|]; [|done].
    pose proof (call_resolves (MongoDBRepository.mongo_operation repo)
      (MongoOperation.UpdateOne {["_id" := VObjectId oid]}
         {["$set" := <[entity := delete "_id" d]> (sys_dicts s) !!! entity]} [])
      (mkSys (sys_handles s) (<[entity := delete "_id" d]> (sys_dicts s))
             (sys_world s) (sys_server s))) as Hcall.
    cbn [sys_dicts sys_handles sys_world sys_server MongoOperation.call] in Hcall |- *.
    rewrite Hcall. clear Hcall.
    rewrite lookup_total_insert_eq.
    unfold handle_of, deref, with_dict. simpl.
    destruct (client _) as [c|]; [|done].
    by destruct (drv_update_one _ _ _ _ _) as [[n|e|] srv]. }
  destruct (decide (is_Some (d !! "_id"))) as [Hid|Hid].
  - simpl. by apply Hrest.
  - simpl. apply Hrest; try done.
    rewrite delete_id by (by apply eq_None_not_Some). by rewrite insert_id.
Qed.
End RepositoryRun.

Section RepositoryProps.
Context {Server : Type} `{Driver Server}.

(** C6 (amended): for an [id] that spells an identifier of the store
    (24 hexadecimal digits) and a handle that holds a connection
    object, [update(id, entity)] makes one call of the driver:
    update-one on the collection of the facade, with the filter
    [{"_id": ObjectId(id)}] and the update [{"$set": fields}], where
    [fields] is [entity] without its "_id" entry and with every other
    entry as it is; it returns whether the modified count is greater
    than zero, and a failure of the driver is raised unchanged.  On
    the reference store the call returns, no stored document changes
    its identifier, and when no stored document has the identifier the
    result is false and the store is as before.  (An [id] that does not
    spell an identifier makes [update] raise [InvalidId] before any
    call of the driver.) *)
Theorem update_sets_non_identifier_fields
    (repo : MongoDBRepository.t) id entity (s : Sys Server) d oid c :
  sys_dicts s !! entity = Some d →
  ObjectId id = Some oid →
  client (handle_of repo s) = Some c →
  let op := MongoDBRepository.mongo_operation repo in
  let fields := delete "_id" d in
  MongoDBRepository.update repo id entity s =
    (let '(res, srv) :=
       then_map (λ n, bool_decide (0 < n)%Z)
         (drv_update_one (collection_on op (handle_of repo s) c)
            {["_id" := VObjectId oid]} {["$set" := fields]} [] (sys_server s)) in
     (res, mkSys (sys_handles s) (<[entity := fields]> (sys_dicts s))
                 (sys_world s) srv)) ∧
  fields !! "_id" = None ∧
  (∀ k, k ≠ "_id" → fields !! k = d !! k) ∧
  ∀ ms : Sys MemServer,
    sys_dicts ms !! entity = Some d →
    client (handle_of repo ms) = Some c →
    ∃ b ms',
      MongoDBRepository.update repo id entity ms = (Returned b, ms') ∧
      (∀ coll, map (λ doc : document, doc !! "_id") (docs_of coll (sys_server ms'))
               = map (λ doc : document, doc !! "_id") (docs_of coll (sys_server ms))) ∧
      (Forall (λ doc : document, doc !! "_id" ≠ Some (VObjectId oid))
         (docs_of (collection_on op (handle_of repo ms) c) (sys_server ms)) →
       b = false ∧
       ∀ coll, docs_of coll (sys_server ms') = docs_of coll (sys_server ms)).
Proof.
  intros Hd Hid Hc. cbv zeta.
  split; [|split; [|split]].
  - rewrite (run_update repo id entity s d Hd). cbv zeta. by rewrite Hid, Hc.
  - apply lookup_delete_eq.
  - intros k Hk. by apply lookup_delete_ne.
  - intros ms Hdm Hcm.
    rewrite (run_update repo id entity ms d Hdm). cbv zeta. rewrite Hid, Hcm.
    simpl.
    destruct (update_first_set {["_id" := VObjectId oid]} (delete "_id" d)
                (docs_of (collection_on (MongoDBRepository.mongo_operation repo)
                            (handle_of repo ms) c) (sys_server ms))
                (lookup_delete_eq _ _))
      as (docs' & n & Hrun & Hids & Hnone).
    rewrite Hrun. simpl. eexists _, _. split; [done|]. simpl. split.
    + intros coll. rewrite docs_of_set_docs.
      destruct (decide _) as [Heq|]; [|done].
      rewrite Hids. unfold docs_of. by rewrite Heq.
    + intros Hall.
      destruct Hnone as [-> ->].
      { eapply Forall_impl; [exact Hall|]. intros doc Hdoc. simpl in Hdoc.
        destruct (matches _ doc) eqn:Hm; [|done].
        by apply matches_id in Hm. }
      split; [done|]. intros coll. rewrite docs_of_set_docs.
      destruct (decide _) as [Heq|]; [|done].
      unfold docs_of. by rewrite Heq.
Qed.

(** C10: when the caller's dictionary has an "_id" entry,
    [update(id, entity)] deletes that entry from the dictionary itself:
    whatever the call does afterwards, and however it ends, the
    caller's dictionary is the one it was without "_id", every other
    entry and every other dictionary is as before, and the rest of the
    call, the delegation to the operation facade, runs as it does when
    the entry had been removed beforehand. *)
Theorem update_deletes_id_in_callers_dict
    (repo : MongoDBRepository.t) id entity (s : Sys Server) d :
  sys_dicts s !! entity = Some d →
  is_Some (d !! "_id") →
  let s' := snd (MongoDBRepository.update repo id entity s) in
  sys_dicts s' !! entity = Some (delete "_id" d) ∧
  delete "_id" d !! "_id" = None ∧
  (∀ k, k ≠ "_id" → delete "_id" d !! k = d !! k) ∧
  (∀ l, l ≠ entity → sys_dicts s' !! l = sys_dicts s !! l) ∧
  MongoDBRepository.update repo id entity s =
    MongoDBRepository.update repo id entity (with_dict entity (delete "_id" d) s).
Proof.
  intros Hd Hid. cbv zeta.
  assert (sys_dicts (snd (MongoDBRepository.update repo id entity s))
          = <[entity := delete "_id" d]> (sys_dicts s)) as Hs'.
  { rewrite (run_update repo id entity s d Hd). cbv zeta.
    destruct (ObjectId id); [|done].
    destruct (client (handle_of repo s)); [|done].
    by destruct (then_map _ _) as [res srv]. }
  rewrite Hs'. split; [by rewrite lookup_insert_eq|].
  split; [apply lookup_delete_eq|].
  split; [intros k Hk; by apply lookup_delete_ne|].
  split; [intros l Hl; by rewrite lookup_insert_ne|].
  rewrite (run_update repo id entity s d Hd).
  rewrite (run_update repo id entity (with_dict entity (delete "_id" d) s)
             (delete "_id" d)) by (simpl; by rewrite lookup_insert_eq).
  cbv zeta. unfold with_dict, handle_of, deref. simpl.
  rewrite insert_insert_eq.
  rewrite (delete_id (delete "_id" d)) by apply lookup_delete_eq.
  done.
Qed.
End RepositoryProps.

(** *** A concrete system *)

Definition users : MongoOperation.t := MongoOperation.mk 0 "users" None.
Definition users_repo : MongoDBRepository.t := MongoDBRepository.mk users.

Definition stored_id : string := default "" (ObjectId "507f1f77bcf86cd799439011").

Definition stored_user : document :=
  {[ "_id" := VObjectId stored_id; "name" := VStr "a"; "email" := VStr "a@x.com" ]}.

(** What a route handler passes to [update]: the new name, and an
    identifier that is not the one of the stored document. *)
Definition new_entity : document :=
  {[ "_id" := VStr "X"; "name" := VStr "b" ]}.

(** The handle 0 is connected, the dictionary 7 is [new_entity], and the
    collection "users" holds [stored_user]. *)
Definition demo_sys : Sys MemServer :=
  mkSys {[ 0%nat := self (connected_state server_up) ]}
        {[ 7%nat := new_entity ]}
        (world (connected_state server_up))
        (mkMemServer {[ ("fastapi_demo", "users") := [stored_user] ]} 0).

Definition users_collection : Collection :=
  mkCollection (mkDatabase 0 "fastapi_demo") "users".

Example update_existing :
  let '(r, s') := MongoDBRepository.update users_repo "507f1f77bcf86cd799439011" 7 demo_sys in
  r = Returned true ∧
  docs_of users_collection (sys_server s') =
    [ {[ "_id" := VObjectId stored_id; "name" := VStr "b"; "email" := VStr "a@x.com" ]} ] ∧
  sys_dicts s' = {[ 7%nat := {[ "name" := VStr "b" ]} ]}.
Proof. vm_compute. repeat split. Qed.

Lemma update_sets_non_identifier_fields_witness :
  sys_dicts demo_sys !! 7%nat = Some new_entity ∧
  ObjectId "0123456789abcdef01234567" = Some (default "" (ObjectId "0123456789abcdef01234567")) ∧
  client (handle_of users_repo demo_sys) = Some 0%nat ∧
  ∃ s', MongoDBRepository.update users_repo "0123456789abcdef01234567" 7 demo_sys
        = (Returned false, s').
Proof.
  split; [reflexivity|]. split; [reflexivity|]. split; [reflexivity|].
  destruct (update_sets_non_identifier_fields users_repo
              "0123456789abcdef01234567" 7 demo_sys new_entity _ 0%nat
              eq_refl eq_refl eq_refl)
    as (_ & _ & _ & Hmem).
  destruct (Hmem demo_sys eq_refl eq_refl) as (b & s' & Hrun & _ & Hmissing).
  destruct Hmissing as [-> _].
  { repeat constructor. by vm_compute. }
  by exists s'.
Defined.

(** C6, as stated, fails for an [id] that is not an identifier of the
    store: the call of the scenario, [update("missing-id", ...)], raises
    [InvalidId]; no call of the driver is made (the store is
    untouched), and the "_id" entry is gone from the caller's
    dictionary all the same. *)
Lemma update_missing_id_raises :
  let r := MongoDBRepository.update users_repo "missing-id" 7 demo_sys in
  fst r = Raised InvalidId ∧
  sys_server (snd r) = sys_server demo_sys ∧
  sys_dicts (snd r) = {[ 7%nat := {[ "name" := VStr "b" ]} ]}.
Proof. vm_compute. repeat split. Qed.

Lemma update_deletes_id_in_callers_dict_witness :
  sys_dicts demo_sys !! 7%nat = Some new_entity ∧
  is_Some (new_entity !! "_id") ∧
  sys_dicts (snd (MongoDBRepository.update users_repo "missing-id" 7 demo_sys)) !! 7%nat
    = Some (delete "_id" new_entity).
Proof.
  split; [reflexivity|]. split; [by eexists|].
  destruct (update_deletes_id_in_callers_dict users_repo "missing-id" 7 demo_sys
              new_entity eq_refl (ex_intro _ (VStr "X") eq_refl))
    as (Hdict & _).
  exact Hdict.
Defined.

(** The scenario of the specification: save, then find by the
    identifier that [save] returned. *)
Example save_then_find_by_id :
  let s0 := mkSys {[ 0%nat := self (connected_state server_up) ]}
                  {[ 3%nat := {[ "name" := VStr "a"; "email" := VStr "a@x.com" ]} ]}
                  (world (connected_state server_up)) MemServer_init in
  let '(r1, s1) := MongoDBRepository.save users_repo 3 s0 in
  r1 = Returned "000000000000000000000000" ∧
  fst (MongoDBRepository.find_by_id users_repo "000000000000000000000000" s1)
    = Returned (Some (<["_id" := VObjectId (bytes_of_N 12 0)]>
                        {[ "name" := VStr "a"; "email" := VStr "a@x.com" ]})) ∧
  fst (MongoDBRepository.find_by_id users_repo "not-a-valid-id" s1) = Raised InvalidId.
Proof. vm_compute. repeat split. Qed.

(** ** Coroutines interleaved by the event loop *)

(** A coroutine of the event loop: not started yet, suspended at an
    await, or finished. *)
Inductive coroutine (A : Type) : Type :=
| Ready (m : Co A)
| Waiting (q : awaitable) (k : option exn → Co A)
| Done (r : outcome A).

Arguments Ready {A} m.
Arguments Waiting {A} q k.
Arguments Done {A} r.

Definition waiting_for {A} (c : coroutine A) : option awaitable :=
  match c with Waiting q _ => Some q | _ => None end.

Definition result {A} (c : coroutine A) : option (outcome A) :=
  match c with Done r => Some r | _ => None end.

Section Race.
Variable wall_clock : nat → Q.

(** One turn of a coroutine: it runs, with nothing in between, until
    its next await or its end. *)
Fixpoint advance {A} (m : Co A) (s : CState) : coroutine A * CState :=
  match m with
  | Ret a => (Done (Returned a), s)
  | Raise e => (Done (Raised e), s)
  | Block => (Done Deadlocked, s)
  | Get k => advance (k s) s
  | Put s' k => advance k s'
  | Now k => advance (k (wall_clock (time_reads (world s)))) (on_world tick s)
  | Await q k => (Waiting q k, s)
  end.

(** The event loop gives a turn to the coroutine [i]: it starts it, or
    resumes it with the result [ans] of what it waits for. *)
Definition turn {A} (i : nat) (ans : option exn)
    (cfg : CState * list (coroutine A)) : CState * list (coroutine A) :=
  match cfg.2 !! i with
  | Some (Ready m) =>
      let '(c, s') := advance m cfg.1 in (s', <[i := c]> cfg.2)
  | Some (Waiting q k) =>
      let '(c, s') := advance (k ans) (on_world resume cfg.1) in
      (s', <[i := c]> cfg.2)
  | _ => cfg
  end.

Definition turns {A} (sched : list (nat * option exn))
    (cfg : CState * list (coroutine A)) : CState * list (coroutine A) :=
  foldl (λ cfg t, turn t.1 t.2 cfg) cfg sched.
End Race.

(** The sequential run is the coroutine taking its turns alone, with
    every await answered by the environment at once. *)
Lemma run_advance {A} (env : Env) (m : Co A) s :
  run env m s =
  match advance (clock env) m s with
  | (Done r, s') => (r, s')
  | (Waiting q k, s') =>
      run env (k (answer env (answered (world s')) q)) (on_world resume s')
  | (Ready m', s') => run env m' s'
  end.
Proof.
  revert s.
  induction m as [a|e| |k IH|s' k IH|k IH|q k IH]; intros s0; simpl;
    try done; apply IH.
Qed.

(** A lock that the thread of the event loop holds is given to it again:
    the second [acquire] does not wait for the first [release]. *)
Lemma RLock_reentrant l l1 :
  RLock_acquire loop_thread l = Some l1 →
  RLock_acquire loop_thread l1 = Some (mkRLock (Some loop_thread) (S (level l1))).
Proof.
  unfold RLock_acquire. destruct (owner l) as [o|].
  - destruct (decide (o = loop_thread)) as [->|]; [|done]. by intros [= <-].
  - by intros [= <-].
Qed.

(** Two callers refresh the connected handle at the same time. *)
Definition two_refreshes : CState * list (coroutine unit) :=
  (connected_state server_up, [Ready refresh_connection; Ready refresh_connection]).


(** C2 fails on the code: the lock of the handle is a [threading.RLock],
    both calls run on the thread of the event loop, and the second call
    enters the critical section while the first is suspended in it.
    After one turn of each call both wait, inside [with self._lock], for
    the cancelled health-check task, and the lock is held twice.  After
    one more turn of each, the first call waits for the probe of the
    connection 1 that its [connect()] has opened, and the [disconnect()]
    of the second call has closed that connection in between. *)
Theorem refresh_connection_not_serialized :
  let after2 := turns (clock server_up) [(0, None); (1, None)]%nat two_refreshes in
  let after4 :=
    turns (clock server_up) [(0, None); (1, None); (0, None); (1, None)]%nat
          two_refreshes in
  map waiting_for after2.2 = [Some (Join 0); Some (Join 0)] ∧
  _lock (self after2.1) = mkRLock (Some loop_thread) 2 ∧
  map waiting_for after4.2 = [Some (Ping 1); Some (Ping 2)] ∧
  _lock (self after4.1) = mkRLock (Some loop_thread) 2 ∧
  client (self after4.1) = Some 2%nat ∧
  elements (live (world after4.1)) = [2%nat] ∧
  take 9 (trace (world after4.1)) =
    [ EvAwait (Ping 2);
      EvOpen 2 "mongodb://localhost:27017" (get_connection_options local_config);
      EvLog INFO MsgConnecting; EvLog INFO MsgClosed; EvClose 1;
      EvAwait (Ping 1);
      EvOpen 1 "mongodb://localhost:27017" (get_connection_options local_config);
      EvLog INFO MsgConnecting; EvLog INFO MsgClosed ].
Proof. cbv zeta. repeat split; reflexivity. Qed.

(** ** What survives the race *)

(** The connections that are open are at most the one that the handle
    holds. *)
Definition one_live (s : CState) : Prop :=
  live (world s) ⊆ match client (self s) with Some c => {[c]} | None => ∅ end.

(** ... and the handle holds one. *)
Definition one_live_present (s : CState) : Prop :=
  one_live s ∧ is_Some (client (self s)).

(** [keeps P m s]: from the state [s] the coroutine [m] reaches each of
    its awaits, and its end, in a state in which [P] holds, provided
    that [P] holds of the state in which it is resumed. *)
Fixpoint keeps (P : CState → Prop) {A} (m : Co A) (s : CState) : Prop :=
  match m with
  | Ret _ | Raise _ | Block => P s
  | Get k => keeps P (k s) s
  | Put s' k => keeps P k s'
  | Now k => ∀ t, keeps P (k t) (on_world tick s)
  | Await q k => P s ∧ ∀ ans s', P s' → keeps P (k ans) (on_world resume s')
  end.

Definition coroutine_keeps (P : CState → Prop) {A} (c : coroutine A) : Prop :=
  match c with
  | Ready m => ∀ s, P s → keeps P m s
  | Waiting q k => ∀ ans s, P s → keeps P (k ans) (on_world resume s)
  | Done _ => True
  end.

Section Keeps.
Variable wall_clock : nat → Q.
Variable P : CState → Prop.

Lemma advance_keeps {A} (m : Co A) s :
  keeps P m s →
  P (advance wall_clock m s).2 ∧ coroutine_keeps P (advance wall_clock m s).1.
Proof.
  revert s. induction m as [a|e| |k IH|s' k IH|k IH|q k IH]; intros s0; simpl;
    try done.
  - apply IH.
  - apply IH.
  - intros Hk. apply IH, Hk.
Qed.

Lemma turn_keeps {A} i ans (cfg : CState * list (coroutine A)) :
  P cfg.1 → Forall (coroutine_keeps P) cfg.2 →
  P (turn wall_clock i ans cfg).1 ∧
  Forall (coroutine_keeps P) (turn wall_clock i ans cfg).2.
Proof.
  intros HP Hpool. unfold turn.
  destruct (cfg.2 !! i) as [[m|q k|r]|] eqn:Hi; try done.
  - pose proof (Forall_lookup_1 _ _ _ _ Hpool Hi) as Hm. simpl in Hm.
    destruct (advance_keeps m cfg.1 (Hm _ HP)) as [HP' Hc].
    destruct (advance wall_clock m cfg.1) as [c s']. simpl in *.
    split; [done|]. by apply Forall_insert.
  - pose proof (Forall_lookup_1 _ _ _ _ Hpool Hi) as Hk. simpl in Hk.
    destruct (advance_keeps (k ans) _ (Hk ans _ HP)) as [HP' Hc].
    destruct (advance wall_clock (k ans) (on_world resume cfg.1)) as [c s']. simpl in *.
    split; [done|]. by apply Forall_insert.
Qed.

Lemma turns_keep {A} sched : ∀ cfg : CState * list (coroutine A),
  P cfg.1 → Forall (coroutine_keeps P) cfg.2 →
  P (turns wall_clock sched cfg).1 ∧
  Forall (coroutine_keeps P) (turns wall_clock sched cfg).2.
Proof.
  induction sched as [|[i ans] sched IH]; intros cfg HP Hpool; [done|].
  simpl. destruct (turn_keeps i ans cfg HP Hpool). by apply IH.
Qed.
End Keeps.

#[local] Set Warnings "-clear-no-such-hyp".

Ltac keeps_cases :=
  repeat first
    [ progress simpl in *
    | progress intros
    | match goal with
      | |- _ ∧ _ => split
      | s : CState |- _ => destruct s as [[? ? ? ? ? ? ?] ?]
      | H : _ ∧ _ |- _ => destruct H
      | H : is_Some None |- _ => by destruct H
      | |- context [match ?x with _ => _ end] => is_var x; destruct x
      | |- context [if ?x then _ else _] => destruct x eqn:?
      | |- context [match RLock_release ?t ?l with _ => _ end] =>
          destruct (RLock_release t l)
      | |- context [match RLock_acquire ?t ?l with _ => _ end] =>
          destruct (RLock_acquire t l)
      end ].

Lemma refresh_connection_keeps_one_live s :
  one_live s → keeps one_live refresh_connection s.
Proof.
  unfold one_live. keeps_cases; try done; try set_solver.
Qed.

Lemma refresh_connection_keeps_one_live_present s :
  one_live_present s → keeps one_live_present refresh_connection s.
Proof.
  unfold one_live_present, one_live. keeps_cases; try done; try set_solver.
Qed.

Lemma refreshes_keep (P : CState → Prop) n :
  (∀ s, P s → keeps P refresh_connection s) →
  Forall (coroutine_keeps P) (replicate n (Ready refresh_connection)).
Proof. intros HP. apply Forall_replicate. exact HP. Qed.

(** X1: however many calls of [refresh_connection()] on one handle the event
    loop interleaves, and however it does, whenever a call is suspended
    or has ended the only connection that can be open is the one that
    the handle holds: the calls never leave two connections open. *)
Theorem concurrent_refreshes_one_live wall_clock n sched s :
  one_live s →
  one_live (turns wall_clock sched (s, replicate n (Ready refresh_connection))).1.
Proof.
  intros Hs.
  apply (turns_keep wall_clock one_live sched
           (s, replicate n (Ready refresh_connection)) Hs).
  apply refreshes_keep, refresh_connection_keeps_one_live.
Qed.

(** X2: on a handle that holds a connection object when the calls start,
    the connection object is present whenever a call of
    [refresh_connection()] is suspended or has ended: no other coroutine
    of the event loop finds it null. *)
Theorem concurrent_refreshes_client_present wall_clock n sched s :
  one_live s → is_Some (client (self s)) →
  is_Some (client (self
    (turns wall_clock sched (s, replicate n (Ready refresh_connection))).1)).
Proof.
  intros Hs Hc.
  apply (turns_keep wall_clock one_live_present sched
           (s, replicate n (Ready refresh_connection)) (conj Hs Hc)).
  apply refreshes_keep, refresh_connection_keeps_one_live_present.
Qed.

Lemma one_live_connected : one_live (connected_state server_up).
Proof. unfold one_live. simpl. set_solver. Qed.

Lemma concurrent_refreshes_one_live_witness :
  one_live (connected_state server_up) ∧
  one_live (turns (clock server_up)
              [(0, None); (1, None); (0, None); (1, None)]%nat two_refreshes).1.
Proof.
  split; [exact one_live_connected|].
  exact (concurrent_refreshes_one_live (clock server_up) 2
           [(0, None); (1, None); (0, None); (1, None)]%nat
           (connected_state server_up) one_live_connected).
Defined.

Lemma concurrent_refreshes_client_present_witness :
  one_live (connected_state server_up) ∧
  is_Some (client (self (connected_state server_up))) ∧
  is_Some (client (self (turns (clock server_up)
              [(0, None); (1, None); (0, None); (1, None)]%nat two_refreshes).1)).
Proof.
  split; [exact one_live_connected|]. split; [by eexists|].
  exact (concurrent_refreshes_client_present (clock server_up) 2
           [(0, None); (1, None); (0, None); (1, None)]%nat
           (connected_state server_up) one_live_connected
           (ex_intro _ 0%nat eq_refl)).
Defined.

(** ** Further properties of the specification *)

(** X3: [disconnect()] always returns and leaves the handle without a
    connection object; on a handle without one it is a no-op, so a
    second [disconnect()] changes nothing and does not raise. *)
Theorem disconnect_idempotent env s :
  ∃ s1, run env disconnect s = (Returned tt, s1) ∧
        client (self s1) = None ∧
        (client (self s) = None → s1 = s) ∧
        ∀ env', run env' disconnect s1 = (Returned tt, s1).
Proof.
  destruct (run_disconnect env s) as (s1 & Hrun & Hc & _ & Hsame & _).
  exists s1. split; [done|]. split; [done|]. split; [done|].
  intros env'.
  destruct (run_disconnect env' s1) as (s2 & Hrun2 & _ & _ & Hsame2 & _).
  by rewrite Hrun2, (Hsame2 Hc).
Qed.

(** X4: on a reachable store [connect()] always returns, and what
    [is_connected()] answers after it depends on the handle that
    [connect()] found.  On a handle without a connection object
    [connect()] opens one and [is_connected()] is true.  On a handle
    that holds one, [connect()] returns at once and [is_connected()] is
    what the ready flag was: false on the handle that a failed probe
    has left (connection object present, flag down), although
    [connect()] has returned normally and the store answers. *)
Theorem connect_then_is_connected env s :
  reachable env →
  ∃ s1 s',
    run env connect s = (Returned tt, s1) ∧
    run env is_connected s1
      = (Returned (match client (self s) with
                   | None => true
                   | Some _ => is_ready (self s)
                   end), s') ∧
    (client (self s) = None → Connected (self s')) ∧
    (is_Some (client (self s)) → s1 = s ∧ self s' = self s) ∧
    run env (connect ;; is_connected) s = run env is_connected s1.
Proof.
  intros Hreach.
  destruct (client (self s)) as [c|] eqn:Hc.
  - exists s. rewrite run_bind, (run_connect_present env s c Hc).
    rewrite run_is_connected, Hc, Hreach.
    destruct (is_ready (self s)) eqn:Hr; cbv zeta.
    + eexists. split; [done|]. split; [done|]. split; [done|]. by split.
    + eexists. split; [done|]. split; [done|]. split; [done|]. by split.
  - destruct (run_connect_absent_ok env s Hc (Hreach _))
      as (s1 & Hrun & Hc1 & Hr1 & _).
    exists s1. rewrite run_bind, Hrun, run_is_connected, Hc1, Hr1, Hreach. cbv zeta.
    eexists. split; [done|]. split; [done|]. split; [|split; [|done]].
    + intros _. unfold Connected. simpl. rewrite Hc1, Hr1. split; [by eexists|done].
    + by intros [? [=]].
Qed.

(** The handle that a failed probe has left, on a store that answers
    again: [connect()] returns and [is_connected()] is false. *)
Lemma connect_then_is_connected_witness :
  reachable server_up ∧
  is_Some (client (self (snd (run server_down connect fresh_state)))) ∧
  fst (run server_up (connect ;; is_connected) (snd (run server_down connect fresh_state)))
    = Returned false.
Proof.
  split; [exact reachable_server_up|]. split; [by eexists|].
  destruct (connect_then_is_connected server_up
              (snd (run server_down connect fresh_state)) reachable_server_up)
    as (s1 & s' & _ & Hrun & _ & _ & ->).
  by rewrite Hrun.
Defined.

(** X5: [register_config] overwrites the configuration under a name and
    does not touch a handle already created for it: [create_client]
    still returns that handle, with the configuration it was created
    from. *)
Theorem register_config_keeps_handle name cfg r l :
  _clients r !! name = Some l →
  create_client name (register_config name cfg r)
    = (Returned l, register_config name cfg r) ∧
  handles (register_config name cfg r) = handles r.
Proof.
  intros Hl. split; [|done]. unfold create_client, register_config. simpl.
  by rewrite lookup_insert_eq, Hl.
Qed.

Lemma register_config_keeps_handle_witness :
  let r := (create_client "default"
              (register_config "default" local_config Registry_init)).2 in
  _clients r !! "default" = Some 0%nat ∧
  handles (register_config "default" (default_config "mongodb://other" "db") r)
    !! 0%nat = Some (__init__ local_config).
Proof.
  cbv zeta. split; [reflexivity|].
  destruct (register_config_keeps_handle "default"
              (default_config "mongodb://other" "db")
              (create_client "default"
                 (register_config "default" local_config Registry_init)).2
              0%nat eq_refl) as [_ ->].
  reflexivity.
Defined.

(** X7: [find_by_id] with an [id] that is not an identifier of the store
    fails with [InvalidId] before anything is asked of the store. *)
Theorem find_by_id_invalid_identifier `{Driver Server}
    (repo : MongoDBRepository.t) id (s : Sys Server) :
  ObjectId id = None →
  MongoDBRepository.find_by_id repo id s = (Raised InvalidId, s).
Proof.
  intros Hid. unfold MongoDBRepository.find_by_id, mbind, SysM_bind, object_id.
  by rewrite Hid.
Qed.

Lemma find_by_id_invalid_identifier_witness :
  ObjectId "not-a-valid-id" = None ∧
  MongoDBRepository.find_by_id users_repo "not-a-valid-id" demo_sys
    = (Raised InvalidId, demo_sys).
Proof.
  split; [reflexivity|].
  exact (find_by_id_invalid_identifier users_repo "not-a-valid-id" demo_sys eq_refl).
Defined.

(** ** Every method of the handle *)

(** The coroutines that a program starts on a handle. *)
Inductive method :=
| Connect
| Disconnect
| IsConnected
| RefreshConnection
| HealthCheckRoutine (passes : nat).

(** A call of a method whose result the caller drops. *)
Definition call_method (m : method) : Co unit :=
  match m with
  | Connect => connect
  | Disconnect => disconnect
  | IsConnected => is_connected ;; Ret tt
  | RefreshConnection => refresh_connection
  | HealthCheckRoutine n => health_check_routine n ;; Ret tt
  end.

(** *** Run alone *)

(** [steady env m]: from a handle that is in order, [m] does not block,
    gives the lock back as it found it, leaves a handle that is not
    ready unless it holds a connection object, and does not touch the
    configuration or the refresh interval. *)
Definition steady (env : Env) {A} (m : Co A) : Prop :=
  ∀ s, handle_ok (self s) →
    (run env m s).1 ≠ Deadlocked ∧
    _lock (self (run env m s).2) = _lock (self s) ∧
    (client (self (run env m s).2) = None → is_ready (self (run env m s).2) = false) ∧
    config (self (run env m s).2) = config (self s) ∧
    _refresh_interval (self (run env m s).2) = _refresh_interval (self s).

Section Steady.
Variable env : Env.

Lemma steady_handle_ok {A} (m : Co A) s :
  steady env m → handle_ok (self s) → handle_ok (self (run env m s).2).
Proof.
  intros Hm Hs. destruct (Hm s Hs) as (_ & Hl & Hr & _).
  split; [rewrite Hl; apply Hs|exact Hr].
Qed.

Lemma steady_handle {A B} (m : Co A) (kr : A → Co B) (ke : exn → Co B) :
  steady env m → (∀ a, steady env (kr a)) → (∀ e, steady env (ke e)) →
  steady env (handle m kr ke).
Proof.
  intros Hm Hr He s Hs. rewrite run_handle.
  pose proof (steady_handle_ok m s Hm Hs) as Hs1.
  destruct (Hm s Hs) as (Hd & Hl & _ & Hc & Hi).
  destruct (run env m s) as [[a|e|] s1]; simpl in *; [| |done].
  - destruct (Hr a s1 Hs1) as (? & Hl' & ? & Hc' & Hi').
    by rewrite Hl', Hc', Hi', Hl, Hc, Hi.
  - destruct (He e s1 Hs1) as (? & Hl' & ? & Hc' & Hi').
    by rewrite Hl', Hc', Hi', Hl, Hc, Hi.
Qed.

Lemma steady_bind {A B} (m : Co A) (f : A → Co B) :
  steady env m → (∀ a, steady env (f a)) → steady env (m ≫= f).
Proof.
  intros Hm Hf. apply steady_handle; [done..|].
  intros e s Hs. simpl. repeat split; try done. apply Hs.
Qed.

Lemma steady_ret {A} (a : A) : steady env (Ret a).
Proof. intros s Hs. simpl. repeat split; try done. apply Hs. Qed.

Lemma steady_raise {A} (e : exn) : steady env (Raise e : Co A).
Proof. intros s Hs. simpl. repeat split; try done. apply Hs. Qed.

Lemma steady_logger l m : steady env (logger l m).
Proof. intros s Hs. simpl. repeat split; try done. apply Hs. Qed.

Lemma steady_await q : steady env (await q).
Proof.
  intros s Hs. unfold await, mbind, Co_bind. simpl.
  destruct (answer env (answered (world s)) q); simpl;
    (repeat split; try done; apply Hs).
Qed.

Lemma steady_time_time : steady env time_time.
Proof. intros s Hs. simpl. repeat split; try done. apply Hs. Qed.

Lemma steady_get_self : steady env get_self.
Proof. intros s Hs. simpl. repeat split; try done. apply Hs. Qed.

Lemma steady_set_last_refresh_time t :
  steady env (modify_self (set_last_refresh_time t)).
Proof. intros s Hs. simpl. repeat split; try done. apply Hs. Qed.

Lemma steady_connect : steady env connect.
Proof.
  intros [[cfg cl rdy lrt ri lk tk] w] [Hlock Hready]. simpl in Hlock, Hready.
  unfold connect, mbind, Co_bind, try_except. simpl.
  destruct cl as [c|]; simpl; [done|].
  destruct (probe env (answered w)) as [e|]; simpl; [|done].
  destruct (is_ConnectionFailure e); simpl; done.
Qed.

Lemma steady_disconnect : steady env disconnect.
Proof.
  intros [[cfg cl rdy lrt ri lk tk] w] [Hlock Hready]. simpl in Hlock, Hready.
  unfold disconnect, mbind, Co_bind, try_except. simpl.
  destruct cl as [c|]; simpl; [|done].
  destruct tk as [t|]; simpl; [|done].
  destruct (joined_cancelled env (answered w)); simpl; done.
Qed.

Lemma steady_is_connected : steady env is_connected.
Proof.
  intros s Hs. rewrite run_is_connected. destruct Hs as [Hlock Hready].
  destruct (client (self s)) as [c|] eqn:Hc; [|by simpl; rewrite Hc].
  destruct (is_ready (self s)) eqn:Hr; [|by simpl; rewrite Hc].
  cbv zeta. destruct (probe env (answered (world s))) as [e|]; simpl.
  - destruct (is_Exception e); simpl; by rewrite ?Hc.
  - by rewrite Hc.
Qed.

Lemma steady_with_lock {A} (body : Co A) :
  steady env body → steady env (with_lock body).
Proof.
  intros Hb s Hs. destruct Hs as [Hlock Hready].
  destruct (lock_ok_acquire _ Hlock) as (l & Hacq & Hrel & Hl).
  rewrite (run_with_lock env body s l Hacq).
  destruct (Hb (on_self (set_lock l) s)) as (Hd & Hl' & Hr' & Hc' & Hi').
  { by split. }
  simpl in Hl', Hc', Hi'.
  destruct (run env body (on_self (set_lock l) s)) as [[a|e|] s']; simpl in *;
    [| |done]; by rewrite Hl', Hrel.
Qed.

Lemma steady_refresh_connection : steady env refresh_connection.
Proof.
  unfold refresh_connection.
  apply steady_bind; [apply steady_logger|]. intros _.
  apply steady_bind.
  - apply steady_with_lock, steady_bind; [apply steady_disconnect|].
    intros _. apply steady_connect.
  - intros _. apply steady_bind; [apply steady_time_time|].
    intros t. apply steady_set_last_refresh_time.
Qed.

Lemma steady_health_check_body : steady env health_check_body.
Proof.
  unfold health_check_body.
  apply steady_bind; [apply steady_time_time|]. intros now.
  apply steady_bind; [apply steady_get_self|]. intros h.
  apply steady_bind.
  { destruct (negb _); [apply steady_refresh_connection|apply steady_ret]. }
  intros _. apply steady_bind; [apply steady_await|]. intros _.
  apply steady_bind; [apply steady_is_connected|]. intros healthy.
  destruct (negb healthy); [|apply steady_ret].
  apply steady_bind; [apply steady_logger|]. intros _.
  apply steady_refresh_connection.
Qed.

Lemma steady_health_check_routine n : steady env (health_check_routine n).
Proof.
  induction n as [|n IH]; [apply steady_ret|].
  cbn [health_check_routine].
  apply steady_handle; [apply steady_health_check_body|done|].
  intros e. destruct (is_CancelledError e).
  { apply steady_bind; [apply steady_logger|]. intros _. apply steady_ret. }
  destruct (is_Exception e); [|apply steady_raise].
  apply steady_bind; [apply steady_logger|]. intros _.
  apply steady_bind; [apply steady_await|]. by intros _.
Qed.

Lemma steady_call_method m : steady env (call_method m).
Proof.
  destruct m; simpl.
  - apply steady_connect.
  - apply steady_disconnect.
  - apply steady_bind; [apply steady_is_connected|]. intros _. apply steady_ret.
  - apply steady_refresh_connection.
  - apply steady_bind; [apply steady_health_check_routine|]. intros _. apply steady_ret.
Qed.
End Steady.

(** Calls made one after the other. *)
Fixpoint call_methods (ms : list method) : Co unit :=
  match ms with
  | [] => Ret tt
  | m :: ms' =>
      try_except (call_method m) (λ _, Some (Ret tt)) ;; call_methods ms'
  end.

Lemma steady_call_methods env ms : steady env (call_methods ms).
Proof.
  induction ms as [|m ms IH]; [apply steady_ret|].
  cbn [call_methods]. apply steady_bind; [|by intros _].
  apply steady_handle; [apply steady_call_method|intros a; apply steady_ret|].
  intros e. apply steady_ret.
Qed.

(** X9: whatever methods a program calls on a handle one after the
    other, whatever the environment answers and however the calls end
    (the caller catching what they raise), the handle stays in order:
    no call waits for the lock, the lock is back as it was, the handle
    is ready only while it holds a connection object, and the
    configuration and the refresh interval are the ones it was built
    with. *)
Theorem methods_keep_handle_ok env ms s :
  handle_ok (self s) →
  let r := run env (call_methods ms) s in
  r.1 = Returned tt ∧
  handle_ok (self r.2) ∧
  _lock (self r.2) = _lock (self s) ∧
  config (self r.2) = config (self s) ∧
  _refresh_interval (self r.2) = _refresh_interval (self s).
Proof.
  intros Hs. cbv zeta.
  pose proof (steady_handle_ok env _ s (steady_call_methods env ms) Hs) as Hok.
  destruct (steady_call_methods env ms s Hs) as (Hd & Hl & _ & Hc & Hi).
  repeat split; try done; try apply Hok.
  clear Hok Hl Hc Hi. revert s Hs Hd.
  induction ms as [|m ms IH]; intros s Hs Hd; [done|].
  revert Hd. simpl. rewrite run_bind. unfold try_except. rewrite run_handle.
  pose proof (steady_handle_ok env _ s (steady_call_method env m) Hs) as Hs1.
  destruct (steady_call_method env m s Hs) as (Hd1 & _).
  destruct (run env (call_method m) s) as [[[]|e|] s1]; simpl in *; [| |done].
  - apply IH, Hs1.
  - apply IH, Hs1.
Qed.

Lemma methods_keep_handle_ok_witness :
  handle_ok (self fresh_state) ∧
  (run server_down
     (call_methods [Connect; IsConnected; RefreshConnection; Disconnect;
                    HealthCheckRoutine 2]) fresh_state).1 = Returned tt.
Proof.
  split; [exact handle_ok_fresh|].
  exact (proj1 (methods_keep_handle_ok server_down
                  [Connect; IsConnected; RefreshConnection; Disconnect;
                   HealthCheckRoutine 2] fresh_state handle_ok_fresh)).
Defined.

(** *** Interleaved by the event loop *)

(** [kept P m]: resumed in any state in which [P] holds, [m] reaches its
    next await, and its end, in such a state. *)
Definition kept (P : CState → Prop) {A} (m : Co A) : Prop :=
  ∀ s, P s → keeps P m s.

Section Kept.
Variable P : CState → Prop.

Lemma keeps_handle {A B} (m : Co A) (kr : A → Co B) (ke : exn → Co B) s :
  keeps P m s → (∀ a, kept P (kr a)) → (∀ e, kept P (ke e)) →
  keeps P (handle m kr ke) s.
Proof.
  intros Hm Hr He. revert s Hm.
  induction m as [a|e| |k IH|s' k IH|k IH|q k IH]; intros s0 Hm; simpl in *.
  - by apply Hr.
  - by apply He.
  - done.
  - by apply IH.
  - by apply IH.
  - intros t. by apply IH.
  - destruct Hm as [HP Hk]. split; [done|]. intros ans s' Hs'. by apply IH, Hk.
Qed.

Lemma kept_handle {A B} (m : Co A) (kr : A → Co B) (ke : exn → Co B) :
  kept P m → (∀ a, kept P (kr a)) → (∀ e, kept P (ke e)) →
  kept P (handle m kr ke).
Proof. intros Hm Hr He s Hs. apply keeps_handle; [by apply Hm|done..]. Qed.

Lemma kept_ret {A} (a : A) : kept P (Ret a).
Proof. by intros s Hs. Qed.

Lemma kept_raise {A} (e : exn) : kept P (Raise e : Co A).
Proof. by intros s Hs. Qed.

Lemma kept_bind {A B} (m : Co A) (f : A → Co B) :
  kept P m → (∀ a, kept P (f a)) → kept P (m ≫= f).
Proof. intros Hm Hf. apply kept_handle; [done..|]. intros e. apply kept_raise. Qed.
End Kept.

(** The open connections are at most the one that the handle holds:
    kept by every method, at every await. *)
Lemma connect_keeps_one_live : kept one_live connect.
Proof. intros s. unfold one_live. keeps_cases; try done; try set_solver. Qed.

Lemma disconnect_keeps_one_live : kept one_live disconnect.
Proof. intros s. unfold one_live. keeps_cases; try done; try set_solver. Qed.

Lemma is_connected_keeps_one_live : kept one_live is_connected.
Proof. intros s. unfold one_live. keeps_cases; try done; try set_solver. Qed.

Lemma logger_keeps_one_live l m : kept one_live (logger l m).
Proof. by intros s. Qed.

Lemma await_keeps_one_live q : kept one_live (await q).
Proof. intros s. unfold one_live. keeps_cases; try done; try set_solver. Qed.

Lemma health_check_body_keeps_one_live : kept one_live health_check_body.
Proof.
  unfold health_check_body.
  apply kept_bind; [by intros s Hs t|]. intros now.
  apply kept_bind; [by intros s Hs|]. intros h.
  apply kept_bind.
  { destruct (negb _); [|apply kept_ret].
    intros s. apply refresh_connection_keeps_one_live. }
  intros _. apply kept_bind; [apply await_keeps_one_live|]. intros _.
  apply kept_bind; [apply is_connected_keeps_one_live|]. intros healthy.
  destruct (negb healthy); [|apply kept_ret].
  apply kept_bind; [apply logger_keeps_one_live|]. intros _.
  intros s. apply refresh_connection_keeps_one_live.
Qed.

Lemma health_check_routine_keeps_one_live n :
  kept one_live (health_check_routine n).
Proof.
  induction n as [|n IH]; [apply kept_ret|].
  cbn [health_check_routine].
  apply kept_handle; [apply health_check_body_keeps_one_live|done|].
  intros e. destruct (is_CancelledError e).
  { apply kept_bind; [apply logger_keeps_one_live|]. intros _. apply kept_ret. }
  destruct (is_Exception e); [|apply kept_raise].
  apply kept_bind; [apply logger_keeps_one_live|]. intros _.
  apply kept_bind; [apply await_keeps_one_live|]. by intros _.
Qed.

Lemma call_method_keeps_one_live m : kept one_live (call_method m).
Proof.
  destruct m; cbn [call_method].
  - apply connect_keeps_one_live.
  - apply disconnect_keeps_one_live.
  - apply kept_bind; [apply is_connected_keeps_one_live|]. intros _. apply kept_ret.
  - intros s. apply refresh_connection_keeps_one_live.
  - apply kept_bind; [apply health_check_routine_keeps_one_live|].
    intros _. apply kept_ret.
Qed.

(** X10: whatever calls of [connect], [disconnect], [is_connected],
    [refresh_connection] and whatever health-check loops run on one
    handle, and however the event loop interleaves them and whatever
    their awaits are answered, whenever all of them are suspended or
    have ended the only connection that can be open is the one that the
    handle holds: no interleaving leaves a connection open that the
    handle has lost. *)
Theorem methods_never_leak_connection wall_clock ms sched s :
  one_live s →
  one_live (turns wall_clock sched (s, map (λ m, Ready (call_method m)) ms)).1.
Proof.
  intros Hs.
  apply (turns_keep wall_clock one_live sched
           (s, map (λ m, Ready (call_method m)) ms) Hs).
  apply Forall_map, Forall_forall. intros m _. apply call_method_keeps_one_live.
Qed.

Lemma methods_never_leak_connection_witness :
  one_live fresh_state ∧
  one_live (turns (clock server_up)
              [(0, None); (1, None); (2, None); (0, Some ConnectionFailure);
               (2, None); (1, None)]%nat
              (fresh_state,
               map (λ m, Ready (call_method m))
                   [Connect; RefreshConnection; HealthCheckRoutine 1])).1.
Proof.
  assert (one_live fresh_state) as H0 by (unfold one_live; simpl; set_solver).
  split; [exact H0|].
  exact (methods_never_leak_connection (clock server_up)
           [Connect; RefreshConnection; HealthCheckRoutine 1]
           [(0, None); (1, None); (2, None); (0, Some ConnectionFailure);
            (2, None); (1, None)]%nat fresh_state H0).
Defined.

(** *** [is_connected] latches *)

(** X11: once [is_connected()] has answered false, the handle answers
    false from then on without asking the server, whatever the server
    would say, and [connect()] on a handle that holds a connection
    object does nothing about it; it takes [refresh_connection()] (or
    [disconnect()] and [connect()]) to get a true answer again. *)
Theorem is_connected_false_latches env s s' :
  handle_ok (self s) →
  run env is_connected s = (Returned false, s') →
  (∀ env', run env' is_connected s' = (Returned false, s')) ∧
  (∀ env' n, is_Some (client (self s')) →
     run env' (times n connect ;; is_connected) s' = (Returned false, s')) ∧
  (∀ env', reachable env' →
     ∃ s'', run env' (refresh_connection ;; is_connected) s' = (Returned true, s'') ∧
            Connected (self s'')).
Proof.
  intros Hok Hrun.
  assert (run env is_connected s' = (Returned false, s') ∧ handle_ok (self s')
          ∧ (client (self s') = None ∨ is_ready (self s') = false))
    as (_ & Hok' & Hoff).
  { pose proof (steady_handle_ok env is_connected s (steady_is_connected env) Hok)
      as Hok'.
    rewrite Hrun in Hok'. simpl in Hok'.
    rewrite run_is_connected in Hrun |- *.
    destruct (client (self s)) as [c|] eqn:Hc.
    2:{ injection Hrun as <-. rewrite Hc. auto. }
    destruct (is_ready (self s)) eqn:Hr.
    2:{ injection Hrun as <-. rewrite Hc, Hr. auto. }
    cbv zeta in Hrun. destruct (probe env (answered (world s))) as [e|]; [|done].
    destruct (is_Exception e); [|done]. injection Hrun as <-. simpl.
    rewrite Hc. auto. }
  assert (∀ env', run env' is_connected s' = (Returned false, s')) as Hlatch.
  { intros env'. rewrite run_is_connected.
    destruct Hoff as [-> | Hoff]; [done|].
    destruct (client (self s')); [|done]. by rewrite Hoff. }
  split; [exact Hlatch|]. split.
  - intros env' n [c Hc]. rewrite run_bind.
    assert (run env' (times n connect) s' = (Returned tt, s')) as ->; [|apply Hlatch].
    induction n as [|n IH]; [done|].
    change (times (S n) connect) with (connect ;; times n connect).
    by rewrite run_bind, (run_connect_present env' s' c Hc).
  - intros env' Hreach.
    destruct (run_refresh_connection_reachable env' s' Hok' Hreach)
      as (l & s1 & s2 & _ & _ & _ & _ & [[c Hc] Hrd] & Hrefresh & _).
    rewrite run_bind, Hrefresh, run_is_connected. simpl.
    rewrite Hc, Hrd, Hreach. eexists. split; [done|].
    split; simpl; [by rewrite Hc|done].
Qed.

(** The probe of [is_connected] fails once. *)
Definition one_failed_probe : Env :=
  mkEnv (λ _, 1000%Q)
        (λ k, match k with 1%nat => Some OperationFailure | _ => None end)
        (λ _, false) (λ _, false).

Lemma is_connected_false_latches_witness :
  handle_ok (self (connected_state one_failed_probe)) ∧
  (run one_failed_probe is_connected (connected_state one_failed_probe)).1
    = Returned false ∧
  (run server_up (times 3 connect ;; is_connected)
     (run one_failed_probe is_connected (connected_state one_failed_probe)).2).1
    = Returned false.
Proof.
  assert (handle_ok (self (connected_state one_failed_probe))) as Hok by (by split).
  assert (run one_failed_probe is_connected (connected_state one_failed_probe)
          = (Returned false,
             (run one_failed_probe is_connected (connected_state one_failed_probe)).2))
    as Hrun by (vm_compute; reflexivity).
  split; [exact Hok|]. split; [vm_compute; reflexivity|].
  destruct (is_connected_false_latches one_failed_probe
              (connected_state one_failed_probe)
              (run one_failed_probe is_connected (connected_state one_failed_probe)).2
              Hok Hrun) as (_ & Hconn & _).
  rewrite (Hconn server_up 3%nat); [reflexivity|].
  exists 0%nat. vm_compute. reflexivity.
Defined.

(** *** Two calls of [disconnect] at once *)

(** What the awaited health-check task can end with so that
    [disconnect] goes on: it returns, or it ends cancelled. *)
Definition swallowed (ans : option exn) : Prop :=
  ans = None ∨ ans = Some CancelledError.

(** X12: two calls of [disconnect()] that the event loop interleaves on
    a handle with a connection object and a health-check task: both
    cancel the task and wait for it; the one resumed first closes the
    connection and clears the handle; the other finds no connection
    object to close and raises [AttributeError]. *)
Theorem concurrent_disconnects_raise wall_clock s c t a b :
  client (self s) = Some c →
  _health_check_task (self s) = Some t →
  swallowed a → swallowed b →
  let cfg := turns wall_clock [(0, None); (1, None); (0, a); (1, b)]%nat
                   (s, [Ready disconnect; Ready disconnect]) in
  map result cfg.2 = [Some (Returned tt); Some (Raised AttributeError)] ∧
  client (self cfg.1) = None ∧
  c ∉ live (world cfg.1).
Proof.
  destruct s as [[cfg0 cl rdy lrt ri lk tk] w]. simpl.
  intros -> -> [-> | ->] [-> | ->]; cbv zeta; simpl;
    (split; [done|]; split; [done|]; set_solver).
Qed.

Lemma concurrent_disconnects_raise_witness :
  client (self (connected_state server_up)) = Some 0%nat ∧
  _health_check_task (self (connected_state server_up)) = Some 0%nat ∧
  swallowed (Some CancelledError) ∧
  map result
    (turns (clock server_up)
       [(0, None); (1, None); (0, Some CancelledError); (1, Some CancelledError)]%nat
       (connected_state server_up, [Ready disconnect; Ready disconnect])).2
  = [Some (Returned tt); Some (Raised AttributeError)].
Proof.
  split; [reflexivity|]. split; [reflexivity|]. split; [by right|].
  exact (proj1 (concurrent_disconnects_raise (clock server_up)
                  (connected_state server_up) 0%nat 0%nat
                  (Some CancelledError) (Some CancelledError)
                  eq_refl eq_refl (or_intror eq_refl) (or_intror eq_refl))).
Defined.

(** *** One pass of the health check *)

(** No sleep of the coroutine is cancelled. *)
Definition never_cancelled (env : Env) : Prop := ∀ k, cancelled env k = false.

Section HealthPass.
Variable env : Env.

Lemma run_disconnect_tasks s :
  ∃ s', run env disconnect s = (Returned tt, s') ∧
    client (self s') = None ∧
    (is_Some (client (self s)) → _health_check_task (self s') = None) ∧
    tasks (world s') =
      tasks (world s) ∖
        (match client (self s), _health_check_task (self s) with
         | Some _, Some t => {[t]}
         | _, _ => ∅
         end) ∧
    next_task (world s') = next_task (world s).
Proof.
  destruct s as [[cfg cl rdy lrt ri lk tk] w].
  unfold disconnect, mbind, Co_bind, try_except; simpl.
  destruct cl as [c|]; simpl.
  - destruct tk as [t|]; simpl; [destruct (joined_cancelled env (answered w)); simpl|];
      (eexists; split; [reflexivity|]; simpl; repeat split; try done;
       by rewrite ?difference_empty_L).
  - eexists; split; [reflexivity|]; simpl.
    repeat split; try done. by rewrite difference_empty_L.
Qed.

Lemma run_connect_tasks s :
  client (self s) = None →
  probe env (answered (world s)) = None →
  ∃ s', run env connect s = (Returned tt, s') ∧
    Connected (self s') ∧
    _health_check_task (self s') = Some (next_task (world s)) ∧
    tasks (world s') = {[next_task (world s)]} ∪ tasks (world s) ∧
    next_task (world s') = S (next_task (world s)) ∧
    _refresh_interval (self s') = _refresh_interval (self s).
Proof.
  destruct s as [[cfg cl rdy lrt ri lk tk] w]; simpl. intros -> Hp.
  unfold connect, mbind, Co_bind, try_except; simpl. rewrite Hp; simpl.
  eexists. split; [reflexivity|]. unfold Connected. simpl.
  repeat split; done.
Qed.

(** The refresh, with the health-check tasks: the task of the handle is
    cancelled and a new one takes its place. *)
Lemma run_refresh_connection_tasks s :
  handle_ok (self s) → reachable env →
  ∃ s', run env refresh_connection s = (Returned tt, s') ∧
    Connected (self s') ∧
    handle_ok (self s') ∧
    client (self s') = Some (next_conn (world s)) ∧
    _health_check_task (self s') = Some (next_task (world s)) ∧
    tasks (world s') =
      {[next_task (world s)]} ∪
      tasks (world s) ∖
        (match client (self s), _health_check_task (self s) with
         | Some _, Some t => {[t]}
         | _, _ => ∅
         end) ∧
    last_refresh_time (self s') = clock env (S (time_reads (world s))) ∧
    _refresh_interval (self s') = _refresh_interval (self s) ∧
    live (world s') =
      {[next_conn (world s)]} ∪
      live (world s) ∖ (match client (self s) with Some c => {[c]} | None => ∅ end).
Proof.
  intros Hok Hreach.
  destruct (run_refresh_connection_reachable env s Hok Hreach)
    as (l & s1 & s2 & Hacq & Hd & _ & Hc & Hconn & Hrun & Hcl & Htr & Hlive).
  destruct (run_disconnect_tasks (enter l s)) as (s1' & Hd' & Hc1 & _ & Ht1 & Hn1).
  rewrite Hd in Hd'. injection Hd' as <-.
  destruct (run_connect_tasks s1 Hc1 (Hreach _))
    as (s2' & Hc' & _ & Ht2 & Htk2 & Hn2 & Hi2).
  rewrite Hc in Hc'. injection Hc' as <-.
  assert (_refresh_interval (self s1) = _refresh_interval (self s)) as Hi1.
  { destruct (steady_disconnect env (enter l s)) as (_ & _ & _ & _ & Hi).
    - split; [|apply Hok]. simpl. by destruct (lock_ok_acquire _ (ok_lock _ Hok))
        as (l' & Hacq' & _ & Hl'); rewrite Hacq in Hacq'; injection Hacq' as ->.
    - rewrite Hd in Hi. exact Hi. }
  simpl in Ht1, Hn1.
  exists (leave env (_lock (self s)) s2). split; [exact Hrun|].
  split; [exact Hconn|]. split.
  { split; [apply Hok|]. simpl. intros Hnone. destruct Hconn as [[c Hsome] _].
    rewrite Hsome in Hnone. done. }
  simpl. rewrite Hcl, Ht2, Htk2, Ht1, Hn1, Htr, Hi2, Hi1, Hlive. done.
Qed.

End HealthPass.

(** X13: a pass of the health check over a handle that is connected and
    not due for a refresh, with the sleep not cancelled and the probe
    answered: the pass sleeps 30 seconds, probes the connection and
    leaves the handle, the open connections and the health-check tasks
    exactly as they were. *)
Theorem health_check_pass_healthy env s c :
  client (self s) = Some c →
  is_ready (self s) = true →
  stale (clock env (time_reads (world s))) (self s) = false →
  cancelled env (answered (world s)) = false →
  probe env (S (answered (world s))) = None →
  ∃ s', run env health_check_body s = (Returned tt, s') ∧
    self s' = self s ∧
    live (world s') = live (world s) ∧
    tasks (world s') = tasks (world s) ∧
    trace (world s') = EvAwait (Ping c) :: EvAwait (Sleep 30) :: trace (world s) ∧
    ∀ n, run env (health_check_routine (S n)) s = run env (health_check_routine n) s'.
Proof.
  intros Hc Hr Hst Hcan Hp.
  assert (∃ s', run env health_check_body s = (Returned tt, s') ∧
    self s' = self s ∧ live (world s') = live (world s) ∧
    tasks (world s') = tasks (world s) ∧
    trace (world s') = EvAwait (Ping c) :: EvAwait (Sleep 30) :: trace (world s))
    as (s' & Hrun & Hrest).
  { rewrite run_health_check_body. cbv zeta. rewrite Hst.
    rewrite run_sleep by done. rewrite run_is_connected. simpl.
    rewrite Hc, Hr, Hp. by eexists. }
  exists s'. split; [done|]. repeat split; try apply Hrest.
  intros n. by rewrite run_health_check_routine_S, Hrun.
Qed.

Lemma health_check_pass_healthy_witness :
  ∃ s', run server_up health_check_body (connected_state server_up) = (Returned tt, s') ∧
        self s' = self (connected_state server_up).
Proof.
  destruct (health_check_pass_healthy server_up (connected_state server_up) 0%nat
              eq_refl eq_refl eq_refl eq_refl eq_refl) as (s' & Hrun & Hself & _).
  by exists s'.
Defined.

(** X14: a pass of the health check over a connected handle that is due
    for a refresh, with the store reachable and no sleep cancelled: the
    pass returns with the handle connected on a new connection, the old
    one closed; the refresh has cancelled the health-check task that the
    handle held and [connect()] has started another one, which the
    handle holds now; and the loop that made the pass is not ended by
    it: it goes on with its next pass. *)
Theorem health_check_pass_refreshes env s c t :
  handle_ok (self s) →
  client (self s) = Some c →
  _health_check_task (self s) = Some t →
  reachable env → never_cancelled env →
  stale (clock env (time_reads (world s))) (self s) = true →
  ∃ s', run env health_check_body s = (Returned tt, s') ∧
    Connected (self s') ∧
    client (self s') = Some (next_conn (world s)) ∧
    live (world s') = {[next_conn (world s)]} ∪ live (world s) ∖ {[c]} ∧
    _health_check_task (self s') = Some (next_task (world s)) ∧
    tasks (world s') = {[next_task (world s)]} ∪ tasks (world s) ∖ {[t]} ∧
    last_refresh_time (self s') = clock env (S (S (time_reads (world s)))) ∧
    ∀ n, run env (health_check_routine (S n)) s = run env (health_check_routine n) s'.
Proof.
  intros Hok Hc Ht Hreach Hnc Hst.
  destruct (run_refresh_connection_tasks env (on_world tick s) Hok Hreach)
    as (s1 & Hrun1 & [[c1 Hc1] Hr1] & Hok1 & Hcl1 & Htk1 & Hts1 & Hlrt1 & _ & Hlive1).
  simpl in Hcl1, Htk1, Hts1, Hlrt1, Hlive1. rewrite Hc in Hts1, Hlive1.
  rewrite Ht in Hts1.
  assert (∃ s', run env health_check_body s = (Returned tt, s') ∧
            self s' = self s1 ∧ live (world s') = live (world s1) ∧
            tasks (world s') = tasks (world s1)) as (s' & Hrun & Hself & Hlive & Htasks).
  { rewrite run_health_check_body. cbv zeta. rewrite Hst, Hrun1.
    rewrite run_sleep by apply Hnc. rewrite run_is_connected. simpl.
    rewrite Hc1, Hr1, Hreach. by eexists. }
  exists s'. split; [done|]. rewrite Hself, Hlive, Htasks.
  split; [split; [by eexists|done]|].
  repeat split; try done.
  intros n. by rewrite run_health_check_routine_S, Hrun.
Qed.

(** The handle was refreshed at 1000; every later reading of the clock
    is 2000. *)
Definition long_after : Env :=
  mkEnv (λ k, match k with O => 1000 | _ => 2000 end%Q)
        (λ _, None) (λ _, false) (λ _, false).

Lemma health_check_pass_refreshes_witness :
  let s := connected_state long_after in
  handle_ok (self s) ∧ client (self s) = Some 0%nat ∧
  _health_check_task (self s) = Some 0%nat ∧
  reachable long_after ∧ never_cancelled long_after ∧
  stale (clock long_after (time_reads (world s))) (self s) = true ∧
  ∃ s', run long_after health_check_body s = (Returned tt, s') ∧
        _health_check_task (self s') = Some 1%nat.
Proof.
  cbv zeta.
  assert (handle_ok (self (connected_state long_after))) as Hok by (by split).
  assert (reachable long_after) as Hreach by (by intros k).
  assert (never_cancelled long_after) as Hnc by (by intros k).
  split; [exact Hok|]. split; [reflexivity|]. split; [reflexivity|].
  split; [exact Hreach|]. split; [exact Hnc|]. split; [reflexivity|].
  destruct (health_check_pass_refreshes long_after (connected_state long_after)
              0%nat 0%nat Hok eq_refl eq_refl Hreach Hnc eq_refl)
    as (s' & Hrun & _ & _ & _ & Htk & _).
  by exists s'.
Defined.

(** ** The registry, whatever is called on it *)

(** What holds of the registry after any calls: a handle was created
    only under a registered name, it is an object of the heap, and no
    two names share a handle. *)
Record registry_ok (r : Registry) : Prop := mk_registry_ok {
  ok_configured : ∀ n l, _clients r !! n = Some l → is_Some (_configs r !! n);
  ok_allocated : ∀ n l, _clients r !! n = Some l → is_Some (handles r !! l);
  ok_distinct : ∀ n1 n2 l,
    _clients r !! n1 = Some l → _clients r !! n2 = Some l → n1 = n2
}.

Lemma registry_ok_init : registry_ok Registry_init.
Proof. split; simpl; intros *; by rewrite lookup_empty. Qed.

Lemma registry_ok_register_config n cfg r :
  registry_ok r → registry_ok (register_config n cfg r).
Proof.
  intros [Hc Ha Hd]. split; simpl; [|done..].
  intros m l Hm. destruct (decide (n = m)) as [->|Hne].
  - rewrite lookup_insert_eq. by eexists.
  - rewrite lookup_insert_ne by done. by eapply Hc.
Qed.

Lemma registry_ok_create_client n r :
  registry_ok r → registry_ok (create_client n r).2.
Proof.
  intros [Hc Ha Hd]. unfold create_client.
  destruct (_configs r !! n) as [cfg|] eqn:Hn; [|by split].
  destruct (_clients r !! n) as [l|] eqn:Hl; [by split|]. simpl.
  assert (handles r !! fresh (dom (handles r)) = None) as Hfresh
    by apply not_elem_of_dom, is_fresh.
  split; simpl.
  - intros m l. destruct (decide (n = m)) as [->|Hne].
    + rewrite Hn. by eexists.
    + rewrite lookup_insert_ne by done. apply Hc.
  - intros m l. destruct (decide (n = m)) as [->|Hne].
    + rewrite lookup_insert_eq. intros [= <-]. rewrite lookup_insert_eq. by eexists.
    + rewrite lookup_insert_ne by done. intros Hm.
      destruct (Ha m l Hm) as [h Hh].
      rewrite lookup_insert_ne; [by eexists|]. intros <-. congruence.
  - intros n1 n2 l.
    destruct (decide (n1 = n)) as [->|Hne1]; destruct (decide (n2 = n)) as [->|Hne2];
      rewrite ?lookup_insert_eq, ?lookup_insert_ne by done; try done.
    + intros [= <-] H2. destruct (Ha n2 _ H2) as [h Hh]. congruence.
    + intros H1 [= <-]. destruct (Ha n1 _ H1) as [h Hh]. congruence.
    + apply Hd.
Qed.

Lemma registry_ok_calls cs : ∀ r, registry_ok r → registry_ok (calls_registry cs r).
Proof.
  induction cs as [|c cs IH]; intros r Hr; [done|].
  simpl. apply IH. destruct c as [n cfg|n]; simpl.
  - by apply registry_ok_register_config.
  - by apply registry_ok_create_client.
Qed.

Lemma create_client_keeps_handles n r l h :
  handles r !! l = Some h → handles (create_client n r).2 !! l = Some h.
Proof.
  intros Hl. unfold create_client.
  destruct (_configs r !! n); [|done]. destruct (_clients r !! n); [done|]. simpl.
  rewrite lookup_insert_ne; [done|]. intros <-.
  assert (handles r !! fresh (dom (handles r)) = None) as Hfresh
    by apply not_elem_of_dom, is_fresh.
  congruence.
Qed.

(** X15: after any calls of [register_config] and [create_client] on a
    new factory, two names that [create_client] answers with the same
    handle are the same name (every configuration name has a handle of
    its own), the handle is an object that was constructed, its name is
    registered, and a further [create_client], for whatever name,
    leaves every handle object that exists as it is. *)
Theorem registry_handles_distinct cs n1 n2 l :
  let r := calls_registry cs Registry_init in
  _clients r !! n1 = Some l →
  _clients r !! n2 = Some l →
  n1 = n2 ∧
  is_Some (handles r !! l) ∧
  is_Some (_configs r !! n1) ∧
  create_client n1 r = (Returned l, r) ∧
  ∀ n l' h, handles r !! l' = Some h → handles (create_client n r).2 !! l' = Some h.
Proof.
  cbv zeta. intros H1 H2.
  destruct (registry_ok_calls cs Registry_init registry_ok_init) as [Hc Ha Hd].
  split; [by eapply Hd|]. split; [by eapply Ha|]. split; [by eapply Hc|].
  split.
  - unfold create_client. destruct (Hc n1 l H1) as [cfg ->]. by rewrite H1.
  - intros n l' h. apply create_client_keeps_handles.
Qed.

Lemma registry_handles_distinct_witness :
  let cs := [Register "a" local_config; Register "b" local_config;
             Create "a"; Create "b"; Create "a"] in
  _clients (calls_registry cs Registry_init) !! "a" = Some 0%nat ∧
  _clients (calls_registry cs Registry_init) !! "b" = Some 1%nat ∧
  is_Some (handles (calls_registry cs Registry_init) !! 0%nat).
Proof.
  cbv zeta. split; [reflexivity|]. split; [reflexivity|].
  exact (proj1 (proj2 (registry_handles_distinct
          [Register "a" local_config; Register "b" local_config;
           Create "a"; Create "b"; Create "a"] "a" "a" 0%nat eq_refl eq_refl))).
Defined.

(** ** The factory is a singleton ([factory.py], [__new__] and [__init__]) *)

(** An instance of [MongoDBClientFactory]: [_initialized], and the two
    dictionaries once [__init__] has made them. *)
Record Factory := mkFactory {
  _initialized : bool;
  factory_configs : option (gmap string MongoDBConfig);
  factory_clients : option (gmap string loc)
}.

(** The class attribute [_instance], the instances by identity, and the
    handles by identity. *)
Record FactoryClass := mkFactoryClass {
  _instance : option loc;
  factories : gmap loc Factory;
  client_objects : gmap loc MongoDBClient
}.

(** The class as the module defines it. *)
Definition FactoryClass_init : FactoryClass := mkFactoryClass None ∅ ∅.

(** [MongoDBClientFactory.__new__(cls)]; the class lock is free before
    and after. *)
Definition __new__ (cls : FactoryClass) : loc * FactoryClass :=
  match _instance cls with
  | Some l => (l, cls)
  | None =>
      let l := fresh (dom (factories cls)) in
      (l, mkFactoryClass (Some l)
            (<[l := mkFactory false None None]> (factories cls))
            (client_objects cls))
  end.

(** [MongoDBClientFactory.__init__(self)] *)
Definition Factory__init__ (self : loc) (cls : FactoryClass) : FactoryClass :=
  match factories cls !! self with
  | Some f =>
      if negb (_initialized f)
      then mkFactoryClass (_instance cls)
             (<[self := mkFactory true (Some ∅) (Some ∅)]> (factories cls))
             (client_objects cls)
      else cls
  | None => cls
  end.

(** The expression [MongoDBClientFactory()]. *)
Definition MongoDBClientFactory (cls : FactoryClass) : loc * FactoryClass :=
  let '(l, cls') := __new__ cls in (l, Factory__init__ l cls').

(** A method of the registry on the instance [self]; it fails with
    [AttributeError] on an object that lacks the dictionaries. *)
Definition on_factory {A} (self : loc) (f : Registry → outcome A * Registry)
    (cls : FactoryClass) : outcome A * FactoryClass :=
  match factories cls !! self with
  | Some (mkFactory i (Some cfgs) (Some cls_)) =>
      let '(r, reg) := f (mkRegistry cfgs cls_ (client_objects cls)) in
      (r, mkFactoryClass (_instance cls)
            (<[self := mkFactory i (Some (_configs reg)) (Some (_clients reg))]>
               (factories cls))
            (handles reg))
  | _ => (Raised AttributeError, cls)
  end.

(** What a program does with the class and its instances. *)
Inductive factory_call :=
| Construct
| Call (self : loc) (c : registry_call).

Definition call_factory (c : factory_call) (cls : FactoryClass) : FactoryClass :=
  match c with
  | Construct => (MongoDBClientFactory cls).2
  | Call self (Register n cfg) =>
      (on_factory self (λ r, (Returned tt, register_config n cfg r)) cls).2
  | Call self (Create n) => (on_factory self (create_client n) cls).2
  end.

Definition calls_factory (cs : list factory_call) (cls : FactoryClass) : FactoryClass :=
  foldl (λ cls c, call_factory c cls) cls cs.

(** The registry that the instance [self] holds. *)
Definition registry_at (self : loc) (cls : FactoryClass) : option Registry :=
  match factories cls !! self with
  | Some (mkFactory _ (Some cfgs) (Some cls_)) =>
      Some (mkRegistry cfgs cls_ (client_objects cls))
  | _ => None
  end.

(** The class holds an instance, and [__init__] has run on it. *)
Definition constructed (l : loc) (cls : FactoryClass) : Prop :=
  _instance cls = Some l ∧
  ∃ cfgs cls_, factories cls !! l = Some (mkFactory true (Some cfgs) (Some cls_)).

Lemma constructed_first cls :
  _instance cls = None →
  constructed (MongoDBClientFactory cls).1 (MongoDBClientFactory cls).2 ∧
  registry_at (MongoDBClientFactory cls).1 (MongoDBClientFactory cls).2
    = Some (mkRegistry ∅ ∅ (client_objects cls)).
Proof.
  intros Hn. unfold MongoDBClientFactory, __new__. rewrite Hn. simpl.
  unfold Factory__init__, registry_at, constructed. simpl.
  rewrite lookup_insert_eq. simpl. rewrite lookup_insert_eq.
  split; [|done]. split; [done|]. by eexists _, _.
Qed.

Lemma constructed_again l cls :
  constructed l cls → MongoDBClientFactory cls = (l, cls).
Proof.
  intros [Hi (cfgs & cls_ & Hf)].
  unfold MongoDBClientFactory, __new__. rewrite Hi.
  unfold Factory__init__. by rewrite Hf.
Qed.

Lemma constructed_on_factory {A} l self (f : Registry → outcome A * Registry) cls :
  constructed l cls → constructed l (on_factory self f cls).2.
Proof.
  intros [Hi (cfgs & cls_ & Hf)]. unfold on_factory.
  destruct (factories cls !! self) as [[i [cfgs'|] [cls'|]]|] eqn:Hs;
    try (split; [done|by eexists _, _]).
  destruct (f _) as [r reg]. unfold constructed. simpl. split; [done|].
  destruct (decide (self = l)) as [->|Hne].
  - rewrite Hf in Hs. injection Hs as <- <- <-.
    eexists _, _. by rewrite lookup_insert_eq.
  - eexists _, _. by rewrite lookup_insert_ne.
Qed.

Lemma constructed_call l c cls :
  constructed l cls → constructed l (call_factory c cls).
Proof.
  intros Hl. destruct c as [|self [n cfg|n]]; simpl.
  - by rewrite (constructed_again l cls Hl).
  - by apply constructed_on_factory.
  - by apply constructed_on_factory.
Qed.

Lemma constructed_calls l cs : ∀ cls,
  constructed l cls → constructed l (calls_factory cs cls).
Proof.
  induction cs as [|c cs IH]; intros cls Hl; [done|].
  simpl. by apply IH, constructed_call.
Qed.

(** X16: the first [MongoDBClientFactory()] makes the instance, with
    empty dictionaries; every later [MongoDBClientFactory()], whatever
    was constructed, registered or created in between, returns that
    same instance and changes nothing: the configurations registered
    and the handles created are kept. *)
Theorem factory_is_singleton cs :
  let first := MongoDBClientFactory FactoryClass_init in
  let later := calls_factory cs first.2 in
  registry_at first.1 first.2 = Some Registry_init ∧
  MongoDBClientFactory later = (first.1, later) ∧
  is_Some (registry_at first.1 later).
Proof.
  cbv zeta.
  destruct (constructed_first FactoryClass_init eq_refl) as [Hc Hr].
  split; [exact Hr|].
  pose proof (constructed_calls _ cs _ Hc) as Hl.
  split; [by apply constructed_again|].
  destruct Hl as [_ (cfgs & cls_ & Hf)]. unfold registry_at. rewrite Hf. by eexists.
Qed.

(** The start of [main.py] and of [example_usage]: a configuration is
    registered on the instance; constructing the factory again gives
    the instance that has it. *)
Example factory_keeps_registered_config :
  let '(l1, c1) := MongoDBClientFactory FactoryClass_init in
  let c2 := call_factory (Call l1 (Register "default" local_config)) c1 in
  let '(l2, c3) := MongoDBClientFactory c2 in
  l2 = l1 ∧ c3 = c2 ∧
  (on_factory l2 (create_client "default") c3).1 = Returned 0%nat.
Proof. vm_compute. repeat split. Qed.

(** ** Identifiers there and back *)

Lemma hex_byte (b : ascii) :
  let n := N_of_ascii b in
  is_space (hex_char (n / 16)) = false ∧
  hex_digit (hex_char (n / 16)) = Some (n / 16)%N ∧
  hex_digit (hex_char (n mod 16)) = Some (n mod 16)%N ∧
  ascii_of_N (16 * (n / 16) + n mod 16) = b.
Proof.
  destruct b as [[] [] [] [] [] [] [] []]; vm_compute; done.
Qed.

Lemma fromhex_hex bs : fromhex (hex bs) = Some bs.
Proof.
  induction bs as [|b bs IH]; [done|].
  destruct (hex_byte b) as (Hs & Hh & Hl & Hb).
  cbn [hex fromhex]. cbv zeta in Hs, Hh, Hl, Hb |- *.
  by rewrite Hs, Hh, Hl, IH, Hb.
Qed.

Lemma length_hex bs : String.length (hex bs) = (2 * String.length bs)%nat.
Proof. induction bs as [|b bs IH]; [done|]. cbn [hex String.length]. lia. Qed.

Lemma length_app_string (a b : string) :
  String.length (a +:+ b) = (String.length a + String.length b)%nat.
Proof. induction a as [|c a IH]; [done|]. simpl. by rewrite IH. Qed.

Lemma length_bytes_of_N len n : String.length (bytes_of_N len n) = len.
Proof.
  revert n. induction len as [|len IH]; intros n; [done|].
  cbn [bytes_of_N]. rewrite length_app_string, IH. simpl. lia.
Qed.

(** [ObjectId(str(oid))] is [oid]. *)
Lemma ObjectId_str oid :
  String.length oid = 12%nat → ObjectId (str (VObjectId oid)) = Some oid.
Proof.
  intros Hl. unfold ObjectId. simpl. rewrite length_hex, Hl.
  rewrite decide_True by done. apply fromhex_hex.
Qed.

(** ** The repository on the reference store *)

Lemma matches_empty (doc : document) : matches ∅ doc = true.
Proof. unfold matches. apply bool_decide_eq_true. apply map_empty_subseteq. Qed.

Lemma filter_matches_app query (docs1 docs2 : list document) :
  filter (λ d, matches query d = true) (docs1 ++ docs2)%list =
  (filter (λ d, matches query d = true) docs1 ++
   filter (λ d, matches query d = true) docs2)%list.
Proof. apply filter_app. Qed.

Lemma filter_matches_none query (docs : list document) :
  Forall (λ d, matches query d = false) docs →
  filter (λ d, matches query d = true) docs = [].
Proof.
  induction 1 as [|d ds Hd _ IH]; [done|].
  rewrite filter_cons_False; [done|]. by rewrite Hd.
Qed.

Lemma existsb_matches_none query (docs : list document) :
  Forall (λ d, matches query d = false) docs → existsb (matches query) docs = false.
Proof. induction 1 as [|d ds Hd _ IH]; [done|]. simpl. by rewrite Hd. Qed.

Lemma fresh_id_not_matched v (docs : list document) :
  Forall (λ doc : document, doc !! "_id" ≠ Some v) docs →
  Forall (λ d, matches {["_id" := v]} d = false) docs.
Proof.
  intros Hall. eapply Forall_impl; [exact Hall|]. intros doc Hdoc. simpl in Hdoc.
  destruct (matches _ doc) eqn:Hm; [|done]. by apply matches_id in Hm.
Qed.

(** What [delete_first] removes is the first match. *)
Lemma delete_first_spec query (docs : list document) :
  match head (filter (λ d, matches query d = true) docs) with
  | Some d =>
      ∃ before after,
        docs = (before ++ d :: after)%list ∧
        Forall (λ d, matches query d = false) before ∧
        delete_first query docs = ((before ++ after)%list, 1%Z)
  | None => delete_first query docs = (docs, 0%Z)
  end.
Proof.
  induction docs as [|d ds IH]; [done|]. simpl.
  destruct (matches query d) eqn:Hm.
  - rewrite filter_cons_True by done. simpl.
    exists [], ds. by repeat split.
  - rewrite filter_cons_False by (by rewrite Hm).
    destruct (head (filter _ ds)) as [d'|].
    + destruct IH as (before & after & -> & Hb & ->).
      exists (d :: before), after.
      split; [done|]. split; [by constructor|done].
    + by rewrite IH.
Qed.

Lemma Sys_eta {Server} (s : Sys Server) :
  mkSys (sys_handles s) (sys_dicts s) (sys_world s) (sys_server s) = s.
Proof. by destruct s. Qed.

Section RepositoryOnMemStore.
Variable repo : MongoDBRepository.t.
Variable s : Sys MemServer.
Variable c : conn.
Hypothesis Hclient : client (handle_of repo s) = Some c.

(** The collection of the repository. *)
Definition collection_of : Collection :=
  collection_on (MongoDBRepository.mongo_operation repo) (handle_of repo s) c.

Lemma run_find_by_id id oid :
  ObjectId id = Some oid →
  MongoDBRepository.find_by_id repo id s =
  (Returned (head (filter (λ d, matches {["_id" := VObjectId oid]} d = true)
                     (docs_of collection_of (sys_server s)))), s).
Proof using Hclient.
  intros Hid. unfold MongoDBRepository.find_by_id, mbind, SysM_bind, object_id.
  rewrite Hid.
  pose proof (call_resolves (MongoDBRepository.mongo_operation repo)
                (MongoOperation.FindOne {["_id" := VObjectId oid]} []) s) as Hcall.
  cbn [MongoOperation.call] in Hcall. rewrite Hcall.
  fold (handle_of repo s). rewrite Hclient. simpl. by rewrite Sys_eta.
Qed.

Lemma run_delete id oid :
  ObjectId id = Some oid →
  MongoDBRepository.delete repo id s =
  let '(docs, n) := delete_first {["_id" := VObjectId oid]}
                      (docs_of collection_of (sys_server s)) in
  (Returned (bool_decide (0 < n)%Z),
   mkSys (sys_handles s) (sys_dicts s) (sys_world s)
         (set_docs collection_of docs (sys_server s))).
Proof using Hclient.
  intros Hid. unfold MongoDBRepository.delete, mbind, SysM_bind, object_id.
  rewrite Hid.
  pose proof (call_resolves (MongoDBRepository.mongo_operation repo)
                (MongoOperation.DeleteOne {["_id" := VObjectId oid]} []) s) as Hcall.
  cbn [MongoOperation.call] in Hcall. rewrite Hcall.
  fold (handle_of repo s). rewrite Hclient. simpl.
  by destruct (delete_first _ _) as [docs n].
Qed.

Lemma run_save entity d :
  sys_dicts s !! entity = Some d →
  d !! "_id" = None →
  MongoDBRepository.save repo entity s =
  let oid := VObjectId (bytes_of_N 12 (next_id (sys_server s))) in
  let '(res, srv) :=
    then_map str
      (mem_insert collection_of (<["_id" := oid]> d)
         (mkMemServer (collections (sys_server s)) (next_id (sys_server s) + 1))) in
  (res, mkSys (sys_handles s) (<[entity := <["_id" := oid]> d]> (sys_dicts s))
              (sys_world s) srv).
Proof using Hclient.
  intros Hd Hid.
  unfold MongoDBRepository.save, MongoOperation.insert_one_at,
    MongoOperation.get_collection, get_collection, get_database,
    mbind, SysM_bind, read_dict.
  fold (handle_of repo s). rewrite Hclient.
  rewrite (lookup_total_correct _ _ _ Hd), Hid.
  rewrite decide_False by (by intros [? ?]).
  unfold new_ObjectId, write_dict, with_dict, driver.
  cbn [drv_ObjectId drv_insert_one MemStore sys_server sys_dicts sys_handles sys_world].
  rewrite lookup_total_insert_eq. unfold collection_of, collection_on. cbv zeta.
  by destruct (mem_insert _ _ _) as [[v|e|] srv].
Qed.
End RepositoryOnMemStore.


Lemma handle_of_server {Server} (repo : MongoDBRepository.t) (s : Sys Server)
    (srv : Server) :
  handle_of repo (mkSys (sys_handles s) (sys_dicts s) (sys_world s) srv)
  = handle_of repo s.
Proof. done. Qed.

Lemma docs_of_next_id coll cs n n' :
  docs_of coll (mkMemServer cs n) = docs_of coll (mkMemServer cs n').
Proof. done. Qed.

(** [save], then [find_by_id] with what it returned. *)
Lemma run_save_then_find_by_id
    (repo : MongoDBRepository.t) entity (s : Sys MemServer) d c :
  sys_dicts s !! entity = Some d →
  d !! "_id" = None →
  client (handle_of repo s) = Some c →
  let coll := collection_of repo s c in
  let oid := bytes_of_N 12 (next_id (sys_server s)) in
  let stored : document := <["_id" := VObjectId oid]> d in
  Forall (λ doc : document, doc !! "_id" ≠ Some (VObjectId oid))
         (docs_of coll (sys_server s)) →
  ∃ s1,
    MongoDBRepository.save repo entity s = (Returned (hex oid), s1) ∧
    String.length (hex oid) = 24%nat ∧
    MongoDBRepository.find_by_id repo (hex oid) s1 = (Returned (Some stored), s1) ∧
    docs_of coll (sys_server s1) = (docs_of coll (sys_server s) ++ [stored])%list ∧
    sys_handles s1 = sys_handles s ∧
    sys_dicts s1 = <[entity := stored]> (sys_dicts s) ∧
    sys_world s1 = sys_world s.
Proof.
  intros Hd Hid Hc. cbv zeta. intros Hfresh.
  pose proof (fresh_id_not_matched _ _ Hfresh) as Hnone.
  rewrite (run_save repo s c Hc entity d Hd Hid). cbv zeta.
  unfold mem_insert. rewrite lookup_insert_eq.
  assert (docs_of (collection_of repo s c)
            {| collections := collections (sys_server s);
               next_id := (next_id (sys_server s) + 1)%N |}
          = docs_of (collection_of repo s c) (sys_server s)) as Hsame by done.
  rewrite Hsame, (existsb_matches_none _ _ Hnone). cbn [then_map str collections next_id].
  eexists. split; [reflexivity|].
  split; [by rewrite length_hex, length_bytes_of_N|].
  assert (ObjectId (hex (bytes_of_N 12 (next_id (sys_server s))))
          = Some (bytes_of_N 12 (next_id (sys_server s)))) as Hoid.
  { apply (ObjectId_str (bytes_of_N 12 (next_id (sys_server s)))).
    apply length_bytes_of_N. }
  match goal with
  | |- context [MongoDBRepository.find_by_id repo _ ?s1] =>
      rewrite (run_find_by_id repo s1 c Hc _ _ Hoid)
  end.
  match goal with
  | |- context [collection_of repo ?s1 c] =>
      change (collection_of repo s1 c) with (collection_of repo s c)
  end.
  cbn [sys_server sys_handles sys_dicts sys_world].
  assert (docs_of (collection_of repo s c)
            {| collections :=
                 <[col_key (collection_of repo s c) :=
                     (docs_of (collection_of repo s c) (sys_server s) ++
                      [<["_id" := VObjectId (bytes_of_N 12 (next_id (sys_server s)))]> d])%list]>
                   (collections (sys_server s));
               next_id := (next_id (sys_server s) + 1)%N |}
          = (docs_of (collection_of repo s c) (sys_server s) ++
             [<["_id" := VObjectId (bytes_of_N 12 (next_id (sys_server s)))]> d])%list)
    as Hdocs.
  { unfold docs_of at 1. cbn [collections]. by rewrite lookup_insert_eq. }
  rewrite Hdocs. split; [|done].
  rewrite filter_matches_app, (filter_matches_none _ _ Hnone).
  rewrite filter_cons_True.
  2:{ apply matches_id. by rewrite lookup_insert_eq. }
  done.
Qed.

Lemma existsb_matches_false query (docs : list document) :
  existsb (matches query) docs = false → Forall (λ d, matches query d = false) docs.
Proof.
  induction docs as [|d ds IH]; [by constructor|]. simpl.
  intros [Hd Hds]%orb_false_iff. constructor; [done|by apply IH].
Qed.

(** X17: [save] and [find_by_id] there and back, on the reference store,
    for a dictionary of the caller without "_id" and a handle that
    holds a connection object.  [save] writes the identifier that the
    driver generates into the caller's dictionary, whether the store
    accepts the document or not.  When no document of the collection
    has that identifier, the dictionary, with the identifier, is stored
    at the end of the collection, [save] returns the 24 hexadecimal
    digits of the identifier, and [find_by_id] with what [save]
    returned gives back the dictionary as the caller has it now.  When
    the identifier is in use, [save] raises and the collection is as
    before. *)
Theorem save_then_find_by_id_round_trip
    (repo : MongoDBRepository.t) entity (s : Sys MemServer) d c :
  sys_dicts s !! entity = Some d →
  d !! "_id" = None →
  client (handle_of repo s) = Some c →
  let coll := collection_of repo s c in
  let oid := bytes_of_N 12 (next_id (sys_server s)) in
  let stored : document := <["_id" := VObjectId oid]> d in
  ∃ s1,
    sys_dicts s1 = <[entity := stored]> (sys_dicts s) ∧
    sys_handles s1 = sys_handles s ∧
    if existsb (matches {["_id" := VObjectId oid]}) (docs_of coll (sys_server s))
    then
      MongoDBRepository.save repo entity s = (Raised OperationFailure, s1) ∧
      docs_of coll (sys_server s1) = docs_of coll (sys_server s)
    else
      MongoDBRepository.save repo entity s = (Returned (hex oid), s1) ∧
      String.length (hex oid) = 24%nat ∧
      MongoDBRepository.find_by_id repo (hex oid) s1 = (Returned (Some stored), s1) ∧
      sys_dicts s1 !! entity = Some stored ∧
      docs_of coll (sys_server s1) = (docs_of coll (sys_server s) ++ [stored])%list.
Proof.
  intros Hd Hid Hc. cbv zeta.
  destruct (existsb _ _) eqn:Hused.
  - rewrite (run_save repo s c Hc entity d Hd Hid). cbv zeta.
    unfold mem_insert. rewrite lookup_insert_eq.
    assert (docs_of (collection_of repo s c)
              {| collections := collections (sys_server s);
                 next_id := (next_id (sys_server s) + 1)%N |}
            = docs_of (collection_of repo s c) (sys_server s)) as Hsame by done.
    rewrite Hsame, Hused. cbn [then_map].
    eexists. split; [|split; [|split; [reflexivity|exact Hsame]]]; reflexivity.
  - assert (Forall (λ doc : document,
              doc !! "_id" ≠ Some (VObjectId (bytes_of_N 12 (next_id (sys_server s)))))
              (docs_of (collection_of repo s c) (sys_server s))) as Hfresh.
    { eapply Forall_impl; [exact (existsb_matches_false _ _ Hused)|].
      intros doc Hdoc Hdid. cbv beta in Hdoc. apply matches_id in Hdid. congruence. }
    destruct (run_save_then_find_by_id repo entity s d c Hd Hid Hc Hfresh)
      as (s1 & Hsave & Hlen & Hfind & Hdocs & Hh & Hdicts & _).
    exists s1. split; [exact Hdicts|]. split; [exact Hh|].
    split; [exact Hsave|]. split; [exact Hlen|]. split; [exact Hfind|].
    split; [|exact Hdocs]. rewrite Hdicts. apply lookup_insert_eq.
Qed.

(** A connected handle, an empty store, and the dictionary 3 that a
    route handler is about to save. *)
Definition plain_user : document := {[ "name" := VStr "a" ]}.

Definition empty_sys : Sys MemServer :=
  mkSys {[ 0%nat := self (connected_state server_up) ]}
        {[ 3%nat := plain_user ]}
        (world (connected_state server_up)) MemServer_init.

Lemma save_then_find_by_id_round_trip_witness :
  ∃ s1, MongoDBRepository.save users_repo 3 empty_sys
          = (Returned "000000000000000000000000", s1) ∧
        (MongoDBRepository.find_by_id users_repo "000000000000000000000000" s1).1
          = Returned (Some (<["_id" := VObjectId (bytes_of_N 12 0)]> plain_user)) ∧
        sys_dicts s1 !! 3%nat
          = Some (<["_id" := VObjectId (bytes_of_N 12 0)]> plain_user).
Proof.
  assert (sys_dicts empty_sys !! 3%nat = Some plain_user) as Hd by reflexivity.
  assert (plain_user !! "_id" = None) as Hid by reflexivity.
  assert (client (handle_of users_repo empty_sys) = Some 0%nat) as Hc by reflexivity.
  destruct (save_then_find_by_id_round_trip users_repo 3 empty_sys plain_user 0%nat
              Hd Hid Hc) as (s1 & _ & _ & Hcase).
  change (existsb _ _) with false in Hcase.
  destruct Hcase as (Hsave & _ & Hfind & Hdict & _).
  exists s1. split; [exact Hsave|]. split; [exact (f_equal fst Hfind)|exact Hdict].
Defined.

(** X18: [delete] removes what [find_by_id] finds, on the reference
    store: for an [id] that spells an identifier and a handle that
    holds a connection object, [delete] returns true exactly when
    [find_by_id] finds a document; the document found is the first of
    the collection with that identifier, and it is the one removed;
    when none is found the collections are as before; the other
    collections are never touched. *)
Theorem delete_removes_what_find_by_id_finds
    (repo : MongoDBRepository.t) (s : Sys MemServer) c id oid :
  client (handle_of repo s) = Some c →
  ObjectId id = Some oid →
  let coll := collection_of repo s c in
  ∃ found s1,
    MongoDBRepository.find_by_id repo id s = (Returned found, s) ∧
    MongoDBRepository.delete repo id s = (Returned (bool_decide (is_Some found)), s1) ∧
    match found with
    | Some d =>
        d !! "_id" = Some (VObjectId oid) ∧
        ∃ before after,
          docs_of coll (sys_server s) = (before ++ d :: after)%list ∧
          Forall (λ doc : document, doc !! "_id" ≠ Some (VObjectId oid)) before ∧
          docs_of coll (sys_server s1) = (before ++ after)%list
    | None => docs_of coll (sys_server s1) = docs_of coll (sys_server s)
    end ∧
    (∀ coll', col_key coll' ≠ col_key coll →
       docs_of coll' (sys_server s1) = docs_of coll' (sys_server s)) ∧
    sys_handles s1 = sys_handles s ∧ sys_dicts s1 = sys_dicts s.
Proof.
  intros Hc Hid. cbv zeta.
  rewrite (run_find_by_id repo s c Hc id oid Hid).
  rewrite (run_delete repo s c Hc id oid Hid).
  pose proof (delete_first_spec {["_id" := VObjectId oid]}
                (docs_of (collection_of repo s c) (sys_server s))) as Hdel.
  destruct (head (filter _ (docs_of (collection_of repo s c) (sys_server s))))
    as [d|] eqn:Hhead.
  - destruct Hdel as (before & after & Hdocs & Hbefore & ->).
    eexists _, _. split; [reflexivity|]. split.
    { reflexivity. }
    cbn [sys_server sys_handles sys_dicts].
    split; [|split; [|done]].
    + split.
      * apply head_Some_elem_of in Hhead.
        apply list_elem_of_filter in Hhead as [Hm _]. by apply matches_id.
      * exists before, after. split; [done|]. split.
        -- eapply Forall_impl; [exact Hbefore|]. intros doc Hdoc Hdid. simpl in Hdoc.
           apply matches_id in Hdid. congruence.
        -- rewrite docs_of_set_docs. by rewrite decide_True.
    + intros coll' Hne. rewrite docs_of_set_docs. by rewrite decide_False.
  - rewrite Hdel.
    eexists _, _. split; [reflexivity|]. split.
    { reflexivity. }
    cbn [sys_server sys_handles sys_dicts].
    split; [|split; [|done]].
    + rewrite docs_of_set_docs. by rewrite decide_True.
    + intros coll' Hne. rewrite docs_of_set_docs. by rewrite decide_False.
Qed.

Lemma delete_removes_what_find_by_id_finds_witness :
  client (handle_of users_repo demo_sys) = Some 0%nat ∧
  ObjectId "507f1f77bcf86cd799439011" = Some stored_id ∧
  ∃ found s1,
    MongoDBRepository.find_by_id users_repo "507f1f77bcf86cd799439011" demo_sys
      = (Returned found, demo_sys) ∧
    MongoDBRepository.delete users_repo "507f1f77bcf86cd799439011" demo_sys
      = (Returned (bool_decide (is_Some found)), s1).
Proof.
  assert (client (handle_of users_repo demo_sys) = Some 0%nat) as Hc by reflexivity.
  assert (ObjectId "507f1f77bcf86cd799439011" = Some stored_id) as Hid by reflexivity.
  split; [exact Hc|]. split; [exact Hid|].
  destruct (delete_removes_what_find_by_id_finds users_repo demo_sys 0%nat
              "507f1f77bcf86cd799439011" stored_id Hc Hid)
    as (found & s1 & Hfind & Hdel & _).
  exists found, s1. split; [exact Hfind|exact Hdel].
Defined.

(** The stored user is found, and deleted. *)
Example delete_stored_user :
  let r := MongoDBRepository.delete users_repo "507f1f77bcf86cd799439011" demo_sys in
  r.1 = Returned true ∧ docs_of users_collection (sys_server r.2) = [].
Proof. vm_compute. by split. Qed.

(** ** The web application ([app/api], [main.py], [out1.py]) *)

(** What a route handler raises: [HTTPException] with its status code,
    or what reaches it from the layers below. *)
Inductive api_exn :=
| HTTPException (status_code : Z)
| Below (e : exn).

(** [HTTPException] is an [Exception]. *)
Definition api_is_Exception (e : api_exn) : bool :=
  match e with
  | HTTPException _ => true
  | Below e => is_Exception e
  end.

Inductive reply (A : Type) : Type :=
| Responded (a : A)
| Failed (e : api_exn)
| Hung.

Arguments Responded {A} a.
Arguments Failed {A} e.
Arguments Hung {A}.

(** The program of [main.py]: the dictionaries of [mongo_factory], the
    attribute [app.state.mongo_client] when it is set, and the objects,
    the world and the store. *)
Record App (Server : Type) := mkApp {
  factory_configs_ : gmap string MongoDBConfig;
  factory_clients_ : gmap string loc;
  state_mongo_client : option loc;
  app_sys : Sys Server
}.

Arguments mkApp {Server}.
Arguments factory_configs_ {Server}.
Arguments factory_clients_ {Server}.
Arguments state_mongo_client {Server}.
Arguments app_sys {Server}.

Definition ApiM (Server A : Type) : Type := App Server → reply A * App Server.

#[global] Instance ApiM_ret {Server} : MRet (ApiM Server) := λ A a app, (Responded a, app).
#[global] Instance ApiM_bind {Server} : MBind (ApiM Server) := λ A B f m app,
  match m app with
  | (Responded a, app') => f a app'
  | (Failed e, app') => (Failed e, app')
  | (Hung, app') => (Hung, app')
  end.

Definition to_reply {A} (r : outcome A) : reply A :=
  match r with
  | Returned a => Responded a
  | Raised e => Failed (Below e)
  | Deadlocked => Hung
  end.

Definition with_sys {Server} (s : Sys Server) (app : App Server) : App Server :=
  mkApp (factory_configs_ app) (factory_clients_ app) (state_mongo_client app) s.

(** A call into the layers below. *)
Definition lift {Server A} (m : SysM Server A) : ApiM Server A :=
  λ app, let '(r, s) := m (app_sys app) in (to_reply r, with_sys s app).

Definition raise {Server A} (e : api_exn) : ApiM Server A := λ app, (Failed e, app).

(** [try: body  except Exception: handler] *)
Definition except_Exception {Server A} (body handler : ApiM Server A) : ApiM Server A :=
  λ app,
    match body app with
    | (Failed e, app') =>
        if api_is_Exception e then handler app' else (Failed e, app')
    | r => r
    end.

(** A new dictionary of the caller. *)
Definition new_dict {Server} (d : document) : SysM Server loc :=
  λ s, let l := fresh (dom (sys_dicts s)) in (Returned l, with_dict l d s).

(** [not user], for an optional dictionary. *)
Definition falsy (o : option document) : bool :=
  match o with
  | Some d => bool_decide (d = ∅)
  | None => true
  end.

(** The request bodies ([app/schema/schemauser.py]). *)
Module UserCreateModel.
Record t := mk { name : string; email : string; age : option Z }.

Definition model_dump (m : t) : document :=
  {[ "name" := VStr (name m); "email" := VStr (email m);
     "age" := from_option VInt VNone (age m) ]}.
End UserCreateModel.

Module UserUpdateModel.
Record t := mk { name : option string; email : option string; age : option Z }.

Definition model_dump (m : t) : document :=
  {[ "name" := from_option VStr VNone (name m);
     "email" := from_option VStr VNone (email m);
     "age" := from_option VInt VNone (age m) ]}.
End UserUpdateModel.

(** [{k: v for k, v in d.items() if v is not None}] *)
Definition without_None (d : document) : document :=
  filter (λ kv, kv.2 ≠ VNone) d.

(** The body of the answer of [/health]. *)
Inductive health_reply :=
| HealthBody (status : string) (database_connected : bool)   (* 200 *)
| HealthUnavailable.                                          (* JSONResponse, 503 *)

Section Api.
Context {Server : Type} `{Driver Server}.
Variable env : Env.

(** *** [app/api/dependencies.py] *)

Definition get_mongo_client : ApiM Server loc :=
  λ app,
    match state_mongo_client app with
    | None => (Failed (HTTPException 503), app)
    | Some mongo_client =>
        (connected ← lift (invoke env mongo_client is_connected) ;
         (if negb connected
          then except_Exception (lift (invoke env mongo_client refresh_connection))
                 (raise (HTTPException 503))
          else mret tt) ;;
         mret mongo_client) app
    end.

Definition get_user_repository (client : loc) : MongoDBRepository.t :=
  MongoDBRepository.mk (MongoOperation.mk client "users" None).

(** *** [app/api/endpoints/users.py] *)

(** [now] is what [datetime.now()] gives, as the store holds it. *)
Definition create_user (now : value) (user : UserCreateModel.t)
    (repo : MongoDBRepository.t) : ApiM Server document :=
  user_dict ← lift (new_dict (<["created_at" := now]> (UserCreateModel.model_dump user))) ;
  user_id ← lift (MongoDBRepository.save repo user_dict) ;
  created_user ← lift (MongoDBRepository.find_by_id repo user_id) ;
  if falsy created_user then raise (HTTPException 500)
  else mret (default ∅ created_user).

Definition get_all_users (repo : MongoDBRepository.t) : ApiM Server (list document) :=
  lift (MongoDBRepository.find_all repo).

Definition get_user (user_id : string) (repo : MongoDBRepository.t)
    : ApiM Server document :=
  except_Exception
    (user ← lift (MongoDBRepository.find_by_id repo user_id) ;
     if falsy user then raise (HTTPException 404)
     else mret (default ∅ user))
    (raise (HTTPException 400)).

Definition update_user (user_id : string) (user_update : UserUpdateModel.t)
    (repo : MongoDBRepository.t) : ApiM Server (option document) :=
  except_Exception
    (existing_user ← lift (MongoDBRepository.find_by_id repo user_id) ;
     if falsy existing_user then raise (HTTPException 404)
     else
       let update_data := without_None (UserUpdateModel.model_dump user_update) in
       if decide (update_data = ∅) then mret existing_user
       else
         entity ← lift (new_dict update_data) ;
         success ← lift (MongoDBRepository.update repo user_id entity) ;
         if negb success then raise (HTTPException 500)
         else lift (MongoDBRepository.find_by_id repo user_id))
    (raise (HTTPException 400)).

Definition delete_user (user_id : string) (repo : MongoDBRepository.t)
    : ApiM Server unit :=
  except_Exception
    (existing_user ← lift (MongoDBRepository.find_by_id repo user_id) ;
     if falsy existing_user then raise (HTTPException 404)
     else
       success ← lift (MongoDBRepository.delete repo user_id) ;
       if negb success then raise (HTTPException 500)
       else mret tt)
    (raise (HTTPException 400)).

Definition find_user_by_email (email : string) (client : loc)
    : ApiM Server document :=
  let operation := MongoOperation.mk client "users" None in
  user ← lift (MongoOperation.find_one operation {["email" := VStr email]} []) ;
  if falsy user then raise (HTTPException 404)
  else mret (default ∅ user).

(** *** [app/api/endpoints/health.py] *)

Definition health_check (client : loc) : ApiM Server health_reply :=
  except_Exception
    (lift (invoke env client is_connected) ≫= λ is_conn : bool,
     mret (HealthBody (if is_conn then "healthy" else "unhealthy") is_conn))
    (mret HealthUnavailable).

(** *** Start and stop ([main.py], [out1.py]) *)

(** [mongo_factory.create_client(name)]: the handles are objects of the
    program. *)
Definition factory_create_client (config_name : string) : ApiM Server loc :=
  λ app,
    let s := app_sys app in
    let '(r, reg) :=
      create_client config_name
        (mkRegistry (factory_configs_ app) (factory_clients_ app) (sys_handles s)) in
    (to_reply r,
     mkApp (_configs reg) (_clients reg) (state_mongo_client app)
           (mkSys (handles reg) (sys_dicts s) (sys_world s) (sys_server s))).

Definition set_state_mongo_client (l : loc) : ApiM Server unit :=
  λ app, (Responded tt,
          mkApp (factory_configs_ app) (factory_clients_ app) (Some l) (app_sys app)).

Definition startup_db_client : ApiM Server unit :=
  mongo_client ← factory_create_client "default" ;
  lift (invoke env mongo_client connect) ;;
  set_state_mongo_client mongo_client.

Definition shutdown_db_client : ApiM Server unit :=
  λ app,
    match state_mongo_client app with
    | Some mongo_client => lift (invoke env mongo_client disconnect) app
    | None => (Responded tt, app)
    end.


End Api.

(** The module [main.py], before the application starts: the factory
    holds the configuration "default" and [app.state] is empty. *)
Definition main_config : MongoDBConfig :=
  mkConfig "mongodb://localhost:27017" 20 1 60000 5000 5000 "fastapi_demo".

Definition main_module {Server} (srv : Server) : App Server :=
  mkApp {[ "default" := main_config ]} ∅ None (mkSys ∅ ∅ World_init srv).

(** *** The dependency *)

Lemma CState_eta (s : CState) : mkCState (self s) (world s) = s.
Proof. by destruct s. Qed.

Lemma invoke_run {Server A} env l (m : Co A) (s : Sys Server) :
  invoke env l m s =
  ((run env m (mkCState (deref l s) (sys_world s))).1,
   mkSys (<[l := self (run env m (mkCState (deref l s) (sys_world s))).2]> (sys_handles s))
         (sys_dicts s)
         (world (run env m (mkCState (deref l s) (sys_world s))).2)
         (sys_server s)).
Proof. unfold invoke. by destruct (run _ _ _). Qed.

(** A method of the handle at [l], from the state of the handle. *)
Definition handle_state {Server} (l : loc) (s : Sys Server) : CState :=
  mkCState (deref l s) (sys_world s).

(** The objects after the method has left the handle in the state [cs]. *)
Definition with_handle {Server} (l : loc) (cs : CState) (s : Sys Server) : Sys Server :=
  mkSys (<[l := self cs]> (sys_handles s)) (sys_dicts s) (world cs) (sys_server s).

Lemma handle_state_with_handle {Server} l cs (s : Sys Server) :
  handle_state l (with_handle l cs s) = cs.
Proof.
  unfold handle_state, with_handle, deref. simpl.
  rewrite lookup_total_insert_eq. apply CState_eta.
Qed.

Lemma is_connected_outcomes env s :
  handle_ok (self s) →
  match run env is_connected s with
  | (Returned true, s') => Connected (self s') ∧ handle_ok (self s')
  | (Returned false, s') => handle_ok (self s')
  | (Raised e, s') => is_Exception e = false ∧ handle_ok (self s')
  | (Deadlocked, _) => False
  end.
Proof.
  intros Hok.
  pose proof (steady_handle_ok env is_connected s (steady_is_connected env) Hok) as Hok'.
  revert Hok'. rewrite run_is_connected.
  destruct (client (self s)) as [c|] eqn:Hc; [|done].
  destruct (is_ready (self s)) eqn:Hr; [|done].
  cbv zeta. destruct (probe env (answered (world s))) as [e|].
  - destruct (is_Exception e) eqn:He; [done|]. simpl. by intros ?.
  - simpl. intros Hok'. split; [|done]. split; [by rewrite Hc|done].
Qed.

Lemma refresh_connection_outcomes env s :
  handle_ok (self s) →
  match run env refresh_connection s with
  | (Returned _, s') => Connected (self s') ∧ handle_ok (self s')
  | (Raised e, s') => handle_ok (self s')
  | (Deadlocked, _) => False
  end.
Proof.
  intros Hok.
  pose proof (steady_handle_ok env refresh_connection s
                (steady_refresh_connection env) Hok) as Hok'.
  destruct (steady_refresh_connection env s Hok) as (Hd & _).
  revert Hok' Hd.
  destruct (lock_ok_acquire _ (ok_lock _ Hok)) as (l & Hacq & _).
  rewrite (run_refresh_connection env s l Hacq).
  destruct (run_disconnect env (enter l s)) as (s1 & -> & Hc1 & _).
  destruct (probe env (answered (world s1))) as [e|] eqn:Hp.
  - destruct (run_connect_absent_fail env s1 e Hc1 Hp) as (s2 & -> & _).
    by destruct (RLock_release loop_thread (_lock (self s2))).
  - destruct (run_connect_absent_ok env s1 Hc1 Hp) as (s2 & -> & Hc2 & Hr2 & _).
    destruct (RLock_release loop_thread (_lock (self s2))); [|done].
    intros Hok' _. split; [|done]. split; simpl; [by rewrite Hc2|done].
Qed.

Section Dependency.
Context {Server : Type} `{Driver Server}.
Variable env : Env.

(** X19: [get_mongo_client] answers 503 when [app.state] has no
    [mongo_client].  When it has one, the dependency returns that
    handle, and it returns it only connected (connection object
    present and ready flag up: [is_connected()] was true, or the
    refresh it tried went through); what it raises is 503 or a
    cancellation, never another error of the handle; it never waits
    for the lock, and it touches neither the store nor [app.state]. *)
Theorem get_mongo_client_gives_connected_handle (app : App Server) :
  (state_mongo_client app = None →
   get_mongo_client env app = (Failed (HTTPException 503), app)) ∧
  ∀ l, state_mongo_client app = Some l →
    handle_ok (deref l (app_sys app)) →
    let r := get_mongo_client env app in
    match r.1 with
    | Responded l' => l' = l ∧ Connected (deref l (app_sys r.2))
    | Failed e => e = HTTPException 503 ∨ api_is_Exception e = false
    | Hung => False
    end ∧
    handle_ok (deref l (app_sys r.2)) ∧
    state_mongo_client r.2 = Some l ∧
    sys_server (app_sys r.2) = sys_server (app_sys app) ∧
    sys_dicts (app_sys r.2) = sys_dicts (app_sys app).
Proof.
  split.
  { intros Hn. unfold get_mongo_client. by rewrite Hn. }
  intros l Hl Hok. cbv zeta. unfold get_mongo_client. rewrite Hl.
  unfold mbind, ApiM_bind, lift, except_Exception, raise, mret, ApiM_ret.
  rewrite invoke_run. fold (handle_state l (app_sys app)).
  pose proof (is_connected_outcomes env (handle_state l (app_sys app)) Hok) as H1.
  destruct (run env is_connected (handle_state l (app_sys app))) as [[[]|e|] cs1];
    cbn [fst snd to_reply negb with_sys app_sys state_mongo_client].
  - destruct H1 as [Hconn Hok1]. fold (with_handle l cs1 (app_sys app)).
    unfold with_handle at 1 2. rewrite !deref_insert.
    split; [by split|]. split; [exact Hok1|]. by split.
  - fold (with_handle l cs1 (app_sys app)).
    rewrite invoke_run. fold (handle_state l (with_handle l cs1 (app_sys app))).
    rewrite handle_state_with_handle.
    pose proof (refresh_connection_outcomes env cs1 H1) as H2.
    destruct (run env refresh_connection cs1) as [[[]|e|] cs2];
      cbn [fst snd to_reply with_sys app_sys state_mongo_client api_is_Exception];
      [| |done].
    + destruct H2 as [Hconn Hok2]. rewrite !deref_insert.
      split; [by split|]. split; [exact Hok2|]. by split.
    + destruct (is_Exception e) eqn:He;
        unfold with_sys; cbn [fst snd app_sys state_mongo_client];
        rewrite !deref_insert;
        (split; [by (left + right)|]); (split; [exact H2|]); by split.
  - destruct H1 as [He Hok1]. fold (with_handle l cs1 (app_sys app)).
    unfold with_handle. rewrite !deref_insert.
    split; [by right|]. split; [exact Hok1|]. by split.
  - done.
Qed.
End Dependency.

(** The program with the handle 0 of [demo_sys] in [app.state]. *)
Definition demo_app : App MemServer :=
  mkApp {[ "default" := main_config ]} {[ "default" := 0%nat ]} (Some 0%nat) demo_sys.

Lemma get_mongo_client_gives_connected_handle_witness :
  state_mongo_client demo_app = Some 0%nat ∧
  handle_ok (deref 0%nat (app_sys demo_app)) ∧
  handle_ok (deref 0%nat (app_sys (get_mongo_client server_up demo_app).2)).
Proof.
  assert (state_mongo_client demo_app = Some 0%nat) as Hl by reflexivity.
  assert (handle_ok (deref 0%nat (app_sys demo_app))) as Hok by (by split).
  split; [exact Hl|]. split; [exact Hok|].
  destruct (get_mongo_client_gives_connected_handle server_up demo_app) as [_ Hsome].
  destruct (Hsome 0%nat Hl Hok) as (_ & Hok' & _).
  exact Hok'.
Defined.

(** *** The route handlers *)

Lemma except_Exception_only {Server A} (body : ApiM Server A) e0 app e :
  (except_Exception body (raise e0) app).1 = Failed e →
  e = e0 ∨ api_is_Exception e = false.
Proof.
  unfold except_Exception, raise. destruct (body app) as [[a|e1|] app']; simpl; try done.
  destruct (api_is_Exception e1) eqn:He; simpl; intros [= <-]; auto.
Qed.

Section Handlers.
Context {Server : Type} `{Driver Server}.

(** X20: the three handlers that wrap their body in [try: ... except
    Exception] answer no error but 400: whatever [get_user],
    [update_user] or [delete_user] raises is [HTTPException] with the
    status 400, or a cancellation, so that the 404 and the 500 that
    their bodies raise never reach the caller.  In particular a user
    that [find_by_id] does not find is answered 400 by the three of
    them, and so is an error that [find_by_id] raises (an identifier
    that is not one, a handle without connection). *)
Theorem user_handlers_answer_only_400
    (user_id : string) (user_update : UserUpdateModel.t)
    (repo : MongoDBRepository.t) (app : App Server) :
  let found := MongoDBRepository.find_by_id repo user_id (app_sys app) in
  (∀ e,
     (get_user user_id repo app).1 = Failed e ∨
     (update_user user_id user_update repo app).1 = Failed e ∨
     (delete_user user_id repo app).1 = Failed e →
     e = HTTPException 400 ∨ api_is_Exception e = false) ∧
  (found.1 = Returned None ∨ (∃ e, found.1 = Raised e ∧ is_Exception e = true) →
   get_user user_id repo app = (Failed (HTTPException 400), with_sys found.2 app) ∧
   update_user user_id user_update repo app
     = (Failed (HTTPException 400), with_sys found.2 app) ∧
   delete_user user_id repo app = (Failed (HTTPException 400), with_sys found.2 app)).
Proof.
  cbv zeta. split.
  { intros e [He|[He|He]]; revert He; apply except_Exception_only. }
  unfold get_user, update_user, delete_user, except_Exception, raise,
    mbind, ApiM_bind, lift.
  destruct (MongoDBRepository.find_by_id repo user_id (app_sys app))
    as [[[d|]|e|] s1]; cbn [fst snd to_reply falsy].
  - intros [[=]|(e & [=] & _)].
  - done.
  - intros [[=]|(e' & [= <-] & He)]. cbn [api_is_Exception]. by rewrite He.
  - intros [[=]|(e & [=] & _)].
Qed.
End Handlers.

Lemma user_handlers_answer_only_400_witness :
  get_user "0123456789abcdef01234567" users_repo demo_app
    = (Failed (HTTPException 400), demo_app) ∧
  get_user "no-id" users_repo demo_app = (Failed (HTTPException 400), demo_app).
Proof.
  pose proof (user_handlers_answer_only_400 "0123456789abcdef01234567"
                (UserUpdateModel.mk None None None) users_repo demo_app) as [_ H1].
  pose proof (user_handlers_answer_only_400 "no-id"
                (UserUpdateModel.mk None None None) users_repo demo_app) as [_ H2].
  cbv zeta in H1, H2.
  split.
  - destruct H1 as (Hg & _); [left; vm_compute; reflexivity|].
    rewrite Hg. vm_compute. reflexivity.
  - destruct H2 as (Hg & _); [right; exists InvalidId; vm_compute; by split|].
    rewrite Hg. vm_compute. reflexivity.
Defined.

Section Health.
Context {Server : Type} `{Driver Server}.
Variable env : Env.

(** X21: [health_check] always answers with the 200 body: on a handle
    between two method calls its [except Exception] branch, the 503
    answer, is never taken, because [is_connected] raises no
    [Exception] (only a cancellation passes through it, and through
    the handler).  The status is "healthy" exactly when
    [database_connected] is true, and then the handle holds a
    connection object and is ready; the handler never waits for the
    lock. *)
Theorem health_check_never_unavailable (client : loc) (app : App Server) :
  handle_ok (deref client (app_sys app)) →
  let r := health_check env client app in
  match r.1 with
  | Responded (HealthBody status database_connected) =>
      status = (if database_connected then "healthy" else "unhealthy") ∧
      (database_connected = true → Connected (deref client (app_sys r.2)))
  | Responded HealthUnavailable => False
  | Failed e => api_is_Exception e = false
  | Hung => False
  end ∧
  handle_ok (deref client (app_sys r.2)) ∧
  sys_server (app_sys r.2) = sys_server (app_sys app).
Proof.
  intros Hok. cbv zeta.
  unfold health_check, except_Exception, mbind, ApiM_bind, lift, mret, ApiM_ret.
  rewrite invoke_run. fold (handle_state client (app_sys app)).
  pose proof (is_connected_outcomes env (handle_state client (app_sys app)) Hok) as H1.
  destruct (run env is_connected (handle_state client (app_sys app))) as [[[]|e|] cs1];
    cbn [fst snd to_reply api_is_Exception]; [| | |done].
  - destruct H1 as [Hconn Hok1]. unfold with_sys. cbn [app_sys].
    rewrite !deref_insert. split; [by split|]. by split.
  - unfold with_sys. cbn [app_sys]. rewrite !deref_insert.
    split; [by split|]. by split.
  - destruct H1 as [He Hok1]. rewrite He. cbn [fst snd]. unfold with_sys. cbn [app_sys].
    rewrite !deref_insert. by split.
Qed.
End Health.

Lemma health_check_never_unavailable_witness :
  handle_ok (deref 0%nat (app_sys demo_app)) ∧
  handle_ok (deref 0%nat (app_sys (health_check server_up 0%nat demo_app).2)) ∧
  sys_server (app_sys (health_check server_up 0%nat demo_app).2)
    = sys_server (app_sys demo_app).
Proof.
  assert (handle_ok (deref 0%nat (app_sys demo_app))) as Hok by (by split).
  split; [exact Hok|].
  exact (proj2 (health_check_never_unavailable server_up 0%nat demo_app Hok)).
Defined.

(** *** The route handlers on the reference store *)

Lemma App_eta {Server} (app : App Server) : with_sys (app_sys app) app = app.
Proof. by destruct app. Qed.

Lemma head_filter_first query (before after : list document) d :
  Forall (λ d, matches query d = false) before →
  matches query d = true →
  head (filter (λ d, matches query d = true) (before ++ d :: after)%list) = Some d.
Proof.
  intros Hb Hd. rewrite filter_matches_app, (filter_matches_none _ _ Hb).
  by rewrite filter_cons_True.
Qed.

Lemma update_first_spec query (fields : document) before d after :
  fields !! "_id" = None →
  Forall (λ d, matches query d = false) before →
  matches query d = true →
  update_first query {["$set" := fields]} (before ++ d :: after)%list =
  Returned ((before ++ (fields ∪ d) :: after)%list,
            if decide (fields ∪ d = d) then 0%Z else 1%Z).
Proof.
  intros Hf Hb Hd. induction Hb as [|b bs Hbm _ IH]; simpl.
  - by rewrite Hd, apply_update_set.
  - by rewrite Hbm, IH.
Qed.

Lemma union_same_subseteq (fields d : document) : fields ∪ d = d ↔ fields ⊆ d.
Proof.
  split.
  - intros <-. apply map_union_subseteq_l.
  - apply map_subseteq_union.
Qed.

Lemma falsy_with_id (d : document) v : d !! "_id" = Some v → falsy (Some d) = false.
Proof. intros Hd. simpl. apply bool_decide_eq_false. intros ->. by rewrite lookup_empty in Hd. Qed.

(** The dictionary that [update_user] passes to [update] has the fields
    of the request and no other. *)
Lemma update_data_no_id (user_update : UserUpdateModel.t) :
  without_None (UserUpdateModel.model_dump user_update) !! "_id" = None.
Proof.
  unfold without_None. apply map_lookup_filter_None. left.
  unfold UserUpdateModel.model_dump.
  rewrite !lookup_insert_ne by done. by apply lookup_singleton_ne.
Qed.

(** [update] on the first document of the identifier. *)
Lemma run_update_first (repo : MongoDBRepository.t) (s : Sys MemServer) c
    id oid entity (fields : document) before d after :
  client (handle_of repo s) = Some c →
  ObjectId id = Some oid →
  sys_dicts s !! entity = Some fields →
  fields !! "_id" = None →
  docs_of (collection_of repo s c) (sys_server s) = (before ++ d :: after)%list →
  Forall (λ d, matches {["_id" := VObjectId oid]} d = false) before →
  matches {["_id" := VObjectId oid]} d = true →
  MongoDBRepository.update repo id entity s =
  (Returned (bool_decide (fields ∪ d ≠ d)),
   mkSys (sys_handles s) (sys_dicts s) (sys_world s)
         (set_docs (collection_of repo s c) (before ++ (fields ∪ d) :: after)%list
                   (sys_server s))).
Proof.
  intros Hc Hid He Hf Hdocs Hb Hd.
  rewrite (run_update repo id entity s fields He). cbv zeta.
  rewrite Hid, Hc, (delete_id fields) by done.
  fold (collection_of repo s c). cbn [drv_update_one MemStore].
  rewrite Hdocs, (update_first_spec _ _ _ _ _ Hf Hb Hd).
  cbn [with_docs then_map with_dict sys_dicts]. rewrite insert_id by done.
  f_equal. f_equal. destruct (decide (fields ∪ d = d)) as [Heq|Hne].
  - rewrite bool_decide_eq_false_2 by lia. symmetry. by apply bool_decide_eq_false_2; intros ?.
  - rewrite bool_decide_eq_true_2 by lia. symmetry. by apply bool_decide_eq_true_2.
Qed.

(** The state in which a handler finds the objects after a call of
    [new_dict]. *)
Lemma collection_of_with_dict (repo : MongoDBRepository.t) (s : Sys MemServer) c l d :
  collection_of repo (with_dict l d s) c = collection_of repo s c.
Proof. done. Qed.

(** X22: [update_user] on the reference store, for the identifier of a
    stored user (the first document of the collection "users" with that
    identifier is [d]) and a connected handle.  With no field in the
    request, the stored user is returned and the store is not written.
    With fields that the stored user already has with the same values,
    the store modifies nothing, [update] returns false, and the answer
    is 400 (the 500 of the handler, caught by its own [except]).
    Otherwise the fields are set on that document, the other documents
    stay, and the updated user is returned. *)
Theorem update_user_on_store
    (user_id : string) (user_update : UserUpdateModel.t)
    (repo : MongoDBRepository.t) (app : App MemServer) c oid before d after :
  let s := app_sys app in
  let coll := collection_of repo s c in
  let fields := without_None (UserUpdateModel.model_dump user_update) in
  client (handle_of repo s) = Some c →
  ObjectId user_id = Some oid →
  docs_of coll (sys_server s) = (before ++ d :: after)%list →
  Forall (λ doc : document, doc !! "_id" ≠ Some (VObjectId oid)) before →
  d !! "_id" = Some (VObjectId oid) →
  let r := update_user user_id user_update repo app in
  (if decide (fields = ∅) then r = (Responded (Some d), app)
   else if decide (fields ⊆ d)
   then r.1 = Failed (HTTPException 400) ∧
        docs_of coll (sys_server (app_sys r.2)) = (before ++ d :: after)%list
   else r.1 = Responded (Some (fields ∪ d)) ∧
        docs_of coll (sys_server (app_sys r.2)) = (before ++ (fields ∪ d) :: after)%list) ∧
  sys_handles (app_sys r.2) = sys_handles s ∧
  ∀ coll', col_key coll' ≠ col_key coll →
    docs_of coll' (sys_server (app_sys r.2)) = docs_of coll' (sys_server s).
Proof.
  intros s coll fields Hc Hid Hdocs Hbefore Hdid r.
  pose proof (fresh_id_not_matched _ _ Hbefore) as Hb.
  assert (matches {["_id" := VObjectId oid]} d = true) as Hm by (by apply matches_id).
  assert (MongoDBRepository.find_by_id repo user_id s = (Returned (Some d), s)) as Hfind.
  { rewrite (run_find_by_id repo s c Hc _ _ Hid). fold coll. rewrite Hdocs.
    by rewrite head_filter_first. }
  assert (r =
    if decide (fields = ∅) then (Responded (Some d), app)
    else
      let s2 :=
        mkSys (sys_handles s) (<[fresh (dom (sys_dicts s)) := fields]> (sys_dicts s))
              (sys_world s)
              (set_docs coll (before ++ (fields ∪ d) :: after)%list (sys_server s)) in
      if decide (fields ⊆ d) then (Failed (HTTPException 400), with_sys s2 app)
      else (Responded (Some (fields ∪ d)), with_sys s2 app)) as Hr.
  { unfold r, update_user, except_Exception, mbind at 1, ApiM_bind, lift at 1.
    fold s. rewrite Hfind. cbn [to_reply]. rewrite (falsy_with_id _ _ Hdid).
    fold fields. replace (with_sys s app) with app by (symmetry; apply App_eta).
    destruct (decide (fields = ∅)) as [Hempty|Hfields]; [reflexivity|].
    unfold mbind, ApiM_bind, lift, new_dict, raise. fold s.
    cbn [to_reply with_sys app_sys].
    set (l := fresh (dom (sys_dicts s))).
    rewrite (run_update_first repo (with_dict l fields s) c user_id oid l fields
               before d after);
      [|exact Hc|exact Hid|by apply lookup_insert_eq|apply update_data_no_id
       |exact Hdocs|exact Hb|exact Hm].
    cbn [to_reply with_sys app_sys with_dict sys_handles sys_dicts sys_world sys_server].
    rewrite collection_of_with_dict. fold coll.
    unfold with_sys.
    cbn [app_sys factory_configs_ factory_clients_ state_mongo_client].
    destruct (decide (fields ⊆ d)) as [Hsub|Hnsub].
    - rewrite bool_decide_eq_false_2 by (by intros Hne; apply Hne, union_same_subseteq).
      reflexivity.
    - rewrite bool_decide_eq_true_2 by (by intros Heq; apply Hnsub, union_same_subseteq).
      cbn [negb app_sys].
      match goal with
      | |- context [MongoDBRepository.find_by_id repo user_id ?s2] =>
          assert (MongoDBRepository.find_by_id repo user_id s2
                  = (Returned (Some (fields ∪ d)), s2)) as Hfind2
      end.
      { match goal with
        | |- MongoDBRepository.find_by_id repo user_id ?s2 = _ =>
            rewrite (run_find_by_id repo s2 c Hc _ _ Hid)
        end.
        match goal with
        | |- context [collection_of repo ?s2 c] =>
            change (collection_of repo s2 c) with coll
        end.
        cbn [sys_server]. rewrite docs_of_set_docs, decide_True by done.
        rewrite head_filter_first; [done|done|].
        apply matches_id. rewrite lookup_union_r; [done|apply update_data_no_id]. }
      rewrite Hfind2. reflexivity. }
  clearbody r. subst r.
  destruct (decide (fields = ∅)) as [Hempty|Hfields].
  { split; [reflexivity|]. split; [reflexivity|]. intros coll' _. reflexivity. }
  cbv zeta. unfold with_sys.
  destruct (decide (fields ⊆ d)) as [Hsub|Hnsub];
    cbn [fst snd app_sys sys_server sys_handles].
  - rewrite (proj2 (union_same_subseteq fields d) Hsub).
    split; [split; [reflexivity|]|split; [reflexivity|]].
    + rewrite docs_of_set_docs. by rewrite decide_True.
    + intros coll' Hne. rewrite docs_of_set_docs. by rewrite decide_False.
  - split; [split; [reflexivity|]|split; [reflexivity|]].
    + rewrite docs_of_set_docs. by rewrite decide_True.
    + intros coll' Hne. rewrite docs_of_set_docs. by rewrite decide_False.
Qed.

(** The stored user has the name that the request gives. *)
Lemma update_user_on_store_witness :
  client (handle_of users_repo (app_sys demo_app)) = Some 0%nat ∧
  ObjectId "507f1f77bcf86cd799439011" = Some stored_id ∧
  (update_user "507f1f77bcf86cd799439011" (UserUpdateModel.mk (Some "a") None None)
     users_repo demo_app).1 = Failed (HTTPException 400).
Proof.
  assert (client (handle_of users_repo (app_sys demo_app)) = Some 0%nat) as Hc
    by reflexivity.
  assert (ObjectId "507f1f77bcf86cd799439011" = Some stored_id) as Hid by reflexivity.
  assert (docs_of (collection_of users_repo (app_sys demo_app) 0%nat)
            (sys_server (app_sys demo_app)) = ([] ++ stored_user :: [])%list) as Hdocs
    by reflexivity.
  assert (stored_user !! "_id" = Some (VObjectId stored_id)) as Hdid by reflexivity.
  split; [exact Hc|]. split; [exact Hid|].
  pose proof (update_user_on_store "507f1f77bcf86cd799439011"
                (UserUpdateModel.mk (Some "a") None None) users_repo demo_app
                0%nat stored_id [] stored_user [] Hc Hid Hdocs (Forall_nil_2 _) Hdid)
    as [H _].
  vm_compute in H. vm_compute. exact (proj1 H).
Defined.

(** X23: [delete_user] on the reference store, for a string that spells
    an identifier and a connected handle.  When the collection "users"
    has a document with that identifier, the first such document is
    removed, the others stay in their order, and the handler returns
    (204); its 500 is never raised.  When there is none, the answer is
    400 and nothing is written.  The handles and the other collections
    are not touched. *)
Theorem delete_user_on_store
    (user_id : string) (repo : MongoDBRepository.t) (app : App MemServer) c oid :
  let s := app_sys app in
  let coll := collection_of repo s c in
  client (handle_of repo s) = Some c →
  ObjectId user_id = Some oid →
  let r := delete_user user_id repo app in
  match head (filter (λ d, matches {["_id" := VObjectId oid]} d = true)
                (docs_of coll (sys_server s))) with
  | Some d =>
      r.1 = Responded tt ∧
      ∃ before after,
        docs_of coll (sys_server s) = (before ++ d :: after)%list ∧
        Forall (λ doc : document, doc !! "_id" ≠ Some (VObjectId oid)) before ∧
        docs_of coll (sys_server (app_sys r.2)) = (before ++ after)%list
  | None => r = (Failed (HTTPException 400), app)
  end ∧
  sys_handles (app_sys r.2) = sys_handles s ∧
  ∀ coll', col_key coll' ≠ col_key coll →
    docs_of coll' (sys_server (app_sys r.2)) = docs_of coll' (sys_server s).
Proof.
  intros s coll Hc Hid r.
  pose proof (delete_first_spec {["_id" := VObjectId oid]}
                (docs_of coll (sys_server s))) as Hdel.
  assert (r =
    match head (filter (λ d, matches {["_id" := VObjectId oid]} d = true)
                  (docs_of coll (sys_server s))) with
    | Some d =>
        (Responded tt,
         with_sys (mkSys (sys_handles s) (sys_dicts s) (sys_world s)
                     (set_docs coll
                        (delete_first {["_id" := VObjectId oid]}
                           (docs_of coll (sys_server s))).1 (sys_server s))) app)
    | None => (Failed (HTTPException 400), app)
    end) as Hr.
  { unfold r, delete_user, except_Exception, mbind, ApiM_bind, lift, raise.
    fold s. rewrite (run_find_by_id repo s c Hc _ _ Hid). fold coll.
    destruct (head _) as [d|] eqn:Hhead; cbn [to_reply].
    - assert (d !! "_id" = Some (VObjectId oid)) as Hdid.
      { apply head_Some_elem_of in Hhead.
        apply list_elem_of_filter in Hhead as [Hm _]. by apply matches_id. }
      rewrite (falsy_with_id _ _ Hdid). unfold with_sys. cbn [app_sys].
      rewrite (run_delete repo s c Hc _ _ Hid). fold coll.
      destruct Hdel as (before & after & _ & _ & ->).
      cbn [to_reply fst]. rewrite bool_decide_eq_true_2 by lia. reflexivity.
    - cbn [falsy api_is_Exception].
      replace (with_sys s app) with app by (symmetry; apply App_eta). reflexivity. }
  clearbody r. subst r.
  destruct (head _) as [d|] eqn:Hhead.
  - destruct Hdel as (before & after & Hdocs & Hbefore & ->).
    unfold with_sys. cbn [fst snd app_sys sys_server sys_handles].
    split; [split; [reflexivity|]|split; [reflexivity|]].
    + exists before, after. split; [exact Hdocs|]. split.
      * eapply Forall_impl; [exact Hbefore|]. intros doc Hdoc Hdid. simpl in Hdoc.
        apply matches_id in Hdid. congruence.
      * rewrite docs_of_set_docs. by rewrite decide_True.
    + intros coll' Hne. rewrite docs_of_set_docs. by rewrite decide_False.
  - cbn [fst snd]. split; [reflexivity|]. split; [reflexivity|]. intros coll' _. reflexivity.
Qed.

Lemma delete_user_on_store_witness :
  client (handle_of users_repo (app_sys demo_app)) = Some 0%nat ∧
  ObjectId "507f1f77bcf86cd799439011" = Some stored_id ∧
  (delete_user "507f1f77bcf86cd799439011" users_repo demo_app).1 = Responded tt.
Proof.
  assert (client (handle_of users_repo (app_sys demo_app)) = Some 0%nat) as Hc
    by reflexivity.
  assert (ObjectId "507f1f77bcf86cd799439011" = Some stored_id) as Hid by reflexivity.
  split; [exact Hc|]. split; [exact Hid|].
  pose proof (delete_user_on_store "507f1f77bcf86cd799439011" users_repo demo_app
                0%nat stored_id Hc Hid) as [H _].
  vm_compute in H. vm_compute. exact (proj1 H).
Defined.

Lemma user_dict_no_id (now : value) (user : UserCreateModel.t) :
  (<["created_at" := now]> (UserCreateModel.model_dump user) : document) !! "_id" = None.
Proof.
  unfold UserCreateModel.model_dump.
  rewrite !lookup_insert_ne by done. by apply lookup_singleton_ne.
Qed.

Lemma filter_matches_empty (docs : list document) :
  filter (λ d, matches ∅ d = true) docs = docs.
Proof.
  induction docs as [|d ds IH]; [done|].
  rewrite filter_cons_True by apply matches_empty. by rewrite IH.
Qed.

(** X24: [create_user] on the reference store, with a connected handle
    and a store whose next identifier is not in use in the collection:
    the user is stored at the end of the collection "users" with the
    fields of the request, the time of creation and a new identifier;
    the handler returns that document (its 500 is not raised), and
    [get_all_users] then returns the documents that were there,
    followed by the new one. *)
Theorem create_user_on_store
    (now : value) (user : UserCreateModel.t)
    (repo : MongoDBRepository.t) (app : App MemServer) c :
  let s := app_sys app in
  let coll := collection_of repo s c in
  let oid := bytes_of_N 12 (next_id (sys_server s)) in
  let stored : document :=
    <["_id" := VObjectId oid]>
      (<["created_at" := now]> (UserCreateModel.model_dump user)) in
  client (handle_of repo s) = Some c →
  Forall (λ doc : document, doc !! "_id" ≠ Some (VObjectId oid))
         (docs_of coll (sys_server s)) →
  let r := create_user now user repo app in
  r.1 = Responded stored ∧
  docs_of coll (sys_server (app_sys r.2)) = (docs_of coll (sys_server s) ++ [stored])%list ∧
  (get_all_users repo r.2).1 = Responded (docs_of coll (sys_server s) ++ [stored])%list ∧
  sys_handles (app_sys r.2) = sys_handles s.
Proof.
  intros s coll oid stored Hc Hfresh r.
  set (d := (<["created_at" := now]> (UserCreateModel.model_dump user) : document)) in *.
  set (l := fresh (dom (sys_dicts s))).
  destruct (run_save_then_find_by_id repo l (with_dict l d s) d c)
    as (s2 & Hsave & _ & Hfind & Hdocs & Hh & _);
    [by apply lookup_insert_eq|apply user_dict_no_id|exact Hc|exact Hfresh|].
  change (collection_of repo (with_dict l d s) c) with coll in Hdocs.
  change (sys_server (with_dict l d s)) with (sys_server s) in Hsave, Hfind, Hdocs.
  fold oid in Hsave, Hfind, Hdocs. fold stored in Hfind, Hdocs.
  assert (r = (Responded stored, with_sys s2 app)) as Hr.
  { unfold r, create_user, mbind, ApiM_bind, lift, new_dict, raise, mret, ApiM_ret.
    fold s. fold d. fold l. unfold with_sys. cbn [to_reply app_sys].
    rewrite Hsave. cbn [to_reply app_sys]. rewrite Hfind. cbn [to_reply].
    rewrite (falsy_with_id stored (VObjectId oid)) by apply lookup_insert_eq.
    reflexivity. }
  clearbody r. subst r. unfold with_sys. cbn [fst snd app_sys].
  split; [reflexivity|]. split; [exact Hdocs|]. split; [|exact Hh].
  unfold get_all_users, lift. cbn [app_sys].
  pose proof (call_resolves (MongoDBRepository.mongo_operation repo)
                (MongoOperation.FindMany ∅ []) s2) as Hcall.
  cbn [MongoOperation.call] in Hcall.
  unfold MongoDBRepository.find_all. rewrite Hcall.
  change (deref (MongoOperation.client (MongoDBRepository.mongo_operation repo)) s2)
    with (handle_of repo s2).
  assert (handle_of repo s2 = handle_of repo s) as Hhandle.
  { unfold handle_of, deref. by rewrite Hh. }
  rewrite Hhandle, Hc. fold (collection_of repo s c). fold coll.
  cbn [on_collection drv_find MemStore fst to_reply]. rewrite Hdocs.
  by rewrite filter_matches_empty.
Qed.

Lemma create_user_on_store_witness :
  client (handle_of users_repo (app_sys demo_app)) = Some 0%nat ∧
  (create_user (VInt 0) (UserCreateModel.mk "b" "b@x.com" None) users_repo demo_app).1
  = Responded
      (<["_id" := VObjectId (bytes_of_N 12 0)]>
         (<["created_at" := VInt 0]>
            (UserCreateModel.model_dump (UserCreateModel.mk "b" "b@x.com" None)))).
Proof.
  assert (client (handle_of users_repo (app_sys demo_app)) = Some 0%nat) as Hc
    by reflexivity.
  split; [exact Hc|].
  refine (proj1 (create_user_on_store (VInt 0) (UserCreateModel.mk "b" "b@x.com" None)
                   users_repo demo_app 0%nat Hc _)).
  change (Forall (λ doc : document, doc !! "_id" ≠ Some (VObjectId (bytes_of_N 12 0)))
            [stored_user]).
  constructor; [|constructor]. vm_compute. discriminate.
Defined.

Lemma falsy_with_field (d : document) k v : d !! k = Some v → falsy (Some d) = false.
Proof. intros Hd. simpl. apply bool_decide_eq_false. intros ->. by rewrite lookup_empty in Hd. Qed.

(** X25: the two handlers that look one user up, on the reference
    store and with a connected handle, for the repository that
    [get_user_repository] builds on that handle.  [find_user_by_email]
    returns the first document of the collection "users" with that
    address, and answers 404 when there is none; [get_user], for a
    string that spells an identifier, returns the first document with
    that identifier, and answers 400 (not 404) when there is none.
    Neither of them writes: the program is left as it was. *)
Theorem lookups_on_store (user_id email : string) (cl : loc) (app : App MemServer) c :
  let s := app_sys app in
  let repo := get_user_repository cl in
  let users := docs_of (collection_of repo s c) (sys_server s) in
  client (deref cl s) = Some c →
  find_user_by_email email cl app =
    (match head (filter (λ d, matches {["email" := VStr email]} d = true) users) with
     | Some d => Responded d
     | None => Failed (HTTPException 404)
     end, app) ∧
  ∀ oid, ObjectId user_id = Some oid →
    get_user user_id repo app =
      (match head (filter (λ d, matches {["_id" := VObjectId oid]} d = true) users) with
       | Some d => Responded d
       | None => Failed (HTTPException 400)
       end, app).
Proof.
  intros s repo users Hc. split.
  - unfold find_user_by_email, mbind, ApiM_bind, lift, raise, mret, ApiM_ret.
    fold s.
    pose proof (call_resolves (MongoOperation.mk cl "users" None)
                  (MongoOperation.FindOne {["email" := VStr email]} []) s) as Hcall.
    cbn [MongoOperation.call MongoOperation.client] in Hcall. rewrite Hcall, Hc.
    cbn [on_collection drv_find_one MemStore to_reply].
    change (docs_of _ (sys_server s)) with users. rewrite Sys_eta.
    replace (with_sys s app) with app by (symmetry; apply App_eta).
    destruct (head _) as [d|] eqn:Hhead; [|reflexivity].
    assert (d !! "email" = Some (VStr email)) as Hd.
    { apply head_Some_elem_of in Hhead.
      apply list_elem_of_filter in Hhead as [Hm _].
      unfold matches in Hm. apply bool_decide_eq_true in Hm.
      by apply map_singleton_subseteq_l. }
    by rewrite (falsy_with_field _ _ _ Hd).
  - intros oid Hid.
    unfold get_user, except_Exception, mbind, ApiM_bind, lift, raise, mret, ApiM_ret.
    fold s. rewrite (run_find_by_id repo s c Hc _ _ Hid).
    change (docs_of _ (sys_server s)) with users. cbn [to_reply].
    replace (with_sys s app) with app by (symmetry; apply App_eta).
    destruct (head _) as [d|] eqn:Hhead; [|reflexivity].
    assert (d !! "_id" = Some (VObjectId oid)) as Hd.
    { apply head_Some_elem_of in Hhead.
      apply list_elem_of_filter in Hhead as [Hm _]. by apply matches_id. }
    by rewrite (falsy_with_field _ _ _ Hd).
Qed.

Lemma lookups_on_store_witness :
  client (deref 0%nat (app_sys demo_app)) = Some 0%nat ∧
  find_user_by_email "a@x.com" 0%nat demo_app = (Responded stored_user, demo_app) ∧
  find_user_by_email "b@x.com" 0%nat demo_app = (Failed (HTTPException 404), demo_app).
Proof.
  assert (client (deref 0%nat (app_sys demo_app)) = Some 0%nat) as Hc by reflexivity.
  split; [exact Hc|].
  split.
  - rewrite (proj1 (lookups_on_store "" "a@x.com" 0%nat demo_app 0%nat Hc)).
    vm_compute. reflexivity.
  - rewrite (proj1 (lookups_on_store "" "b@x.com" 0%nat demo_app 0%nat Hc)).
    vm_compute. reflexivity.
Defined.

(** *** Start and stop *)

Section StartStop.
Context {Server : Type} `{Driver Server}.
Variable env : Env.

(** X26: [startup_db_client] and [shutdown_db_client], awaited (as the
    [on_event] hooks of [out1.py] are), on a program whose factory has
    the configuration "default" and no handle for it yet, with a
    reachable store.  The start constructs the handle from that
    configuration, connects it (one more connection is open, the handle
    holds it and is ready, its health-check task runs) and puts it into
    [app.state]; [get_mongo_client] then returns this handle.  The stop
    disconnects it: the connection is closed, the task is cancelled and
    the handle holds no connection.  The store is not touched. *)
Theorem startup_connects_shutdown_disconnects (app : App Server) cfg :
  factory_configs_ app !! "default" = Some cfg →
  factory_clients_ app !! "default" = None →
  reachable env →
  let l := fresh (dom (sys_handles (app_sys app))) in
  let c := next_conn (sys_world (app_sys app)) in
  let t := next_task (sys_world (app_sys app)) in
  ∃ app1 app2,
    startup_db_client env app = (Responded tt, app1) ∧
    state_mongo_client app1 = Some l ∧
    factory_clients_ app1 !! "default" = Some l ∧
    config (deref l (app_sys app1)) = cfg ∧
    client (deref l (app_sys app1)) = Some c ∧
    is_ready (deref l (app_sys app1)) = true ∧
    _health_check_task (deref l (app_sys app1)) = Some t ∧
    live (sys_world (app_sys app1)) = {[c]} ∪ live (sys_world (app_sys app)) ∧
    tasks (sys_world (app_sys app1)) = {[t]} ∪ tasks (sys_world (app_sys app)) ∧
    (∀ l' h, sys_handles (app_sys app) !! l' = Some h →
             sys_handles (app_sys app1) !! l' = Some h) ∧
    (get_mongo_client env app1).1 = Responded l ∧
    shutdown_db_client env app1 = (Responded tt, app2) ∧
    client (deref l (app_sys app2)) = None ∧
    is_ready (deref l (app_sys app2)) = false ∧
    live (sys_world (app_sys app2)) = live (sys_world (app_sys app)) ∖ {[c]} ∧
    tasks (sys_world (app_sys app2)) = tasks (sys_world (app_sys app)) ∖ {[t]} ∧
    state_mongo_client app2 = Some l ∧
    sys_server (app_sys app2) = sys_server (app_sys app) ∧
    sys_dicts (app_sys app2) = sys_dicts (app_sys app).
Proof.
  intros Hcfg Hnone Hreach. cbv zeta.
  set (s := app_sys app).
  set (l := fresh (dom (sys_handles s))).
  assert (sys_handles s !! l = None) as Hfresh by apply not_elem_of_dom, is_fresh.
  (* the start *)
  set (s0 := mkCState (__init__ cfg) (sys_world s)).
  destruct (run_connect_absent_ok env s0 eq_refl (Hreach _))
    as (s1 & Hrun1 & Hc1 & Hr1 & _ & _ & _ & Hcfg1 & Hlive1 & _).
  destruct (run_connect_tasks env s0 eq_refl (Hreach _))
    as (s1' & Hrun1' & _ & Htk1 & Htasks1 & _).
  rewrite Hrun1 in Hrun1'. injection Hrun1' as <-.
  cbn [world self s0] in Hc1, Hcfg1, Hlive1, Htk1, Htasks1.
  set (hs1 := <[l := self s1]> (<[l := __init__ cfg]> (sys_handles s))).
  set (app1 := mkApp (factory_configs_ app) (<["default" := l]> (factory_clients_ app))
                     (Some l)
                     (mkSys hs1 (sys_dicts s) (world s1) (sys_server s))).
  assert (startup_db_client env app = (Responded tt, app1)) as Hstart.
  { unfold startup_db_client, mbind, ApiM_bind, factory_create_client, create_client,
      set_state_mongo_client, lift.
    cbn [_configs _clients handles]. fold s. rewrite Hcfg, Hnone.
    cbn [to_reply _configs _clients handles app_sys]. fold l.
    rewrite invoke_run. rewrite deref_insert. cbn [sys_world sys_handles sys_dicts sys_server].
    fold s0. rewrite Hrun1. reflexivity. }
  assert (deref l (app_sys app1) = self s1) as Hderef1.
  { unfold app1, hs1. cbn [app_sys]. apply deref_insert. }
  (* the dependency *)
  assert (run env is_connected (mkCState (self s1) (world s1))
          = (Returned true,
             on_world resume (on_world (emit (EvAwait (Ping (next_conn (sys_world s)))))
                                (mkCState (self s1) (world s1))))) as Hconn.
  { rewrite run_is_connected. cbn [self world]. by rewrite Hc1, Hr1, Hreach. }
  (* the stop *)
  destruct (run_disconnect env (mkCState (self s1) (world s1)))
    as (s2 & Hrun2 & Hc2 & Hr2 & _ & _ & _ & _ & Hlive2 & _).
  destruct (run_disconnect_tasks env (mkCState (self s1) (world s1)))
    as (s2' & Hrun2' & _ & _ & Htasks2 & _).
  rewrite Hrun2 in Hrun2'. injection Hrun2' as <-.
  cbn [self world] in Hr2, Hlive2, Htasks2. rewrite Hc1 in Hlive2, Htasks2.
  rewrite Htk1 in Htasks2.
  exists app1, (with_sys (mkSys (<[l := self s2]> hs1) (sys_dicts s) (world s2)
                                (sys_server s)) app1).
  split; [exact Hstart|]. split; [reflexivity|].
  split; [apply lookup_insert_eq|].
  rewrite !Hderef1.
  split; [by rewrite Hcfg1|]. split; [exact Hc1|]. split; [exact Hr1|].
  split; [exact Htk1|]. split; [exact Hlive1|]. split; [exact Htasks1|].
  split.
  { intros l' h Hl'. unfold app1, hs1. cbn [app_sys sys_handles].
    assert (l' ≠ l) as Hne by (intros ->; fold s in Hl'; congruence).
    by rewrite !lookup_insert_ne. }
  split.
  { unfold get_mongo_client. cbn [state_mongo_client app1].
    unfold mbind, ApiM_bind, lift, mret, ApiM_ret.
    rewrite invoke_run. rewrite Hderef1.
    change (sys_world (app_sys app1)) with (world s1). rewrite Hconn. reflexivity. }
  split.
  { unfold shutdown_db_client. cbn [state_mongo_client app1]. unfold lift.
    rewrite invoke_run. rewrite Hderef1.
    change (sys_world (app_sys app1)) with (world s1). rewrite Hrun2. reflexivity. }
  unfold with_sys. cbn [app_sys sys_world sys_server sys_dicts state_mongo_client].
  rewrite deref_insert.
  split; [exact Hc2|]. split; [apply Hr2; by rewrite Hc1|].
  split; [rewrite Hlive2, Hlive1; set_solver|].
  split; [rewrite Htasks2, Htasks1; set_solver|].
  done.
Qed.

End StartStop.

(** [out1.py] on a store that answers: the handle 0 is made, connected
    and put into [app.state]. *)
Lemma startup_connects_shutdown_disconnects_witness :
  reachable server_up ∧
  ∃ app1, startup_db_client server_up (main_module MemServer_init) = (Responded tt, app1) ∧
          state_mongo_client app1 = Some 0%nat ∧
          (get_mongo_client server_up app1).1 = Responded 0%nat.
Proof.
  split; [exact reachable_server_up|].
  destruct (startup_connects_shutdown_disconnects server_up (main_module MemServer_init)
              main_config eq_refl eq_refl reachable_server_up)
    as (app1 & app2 & Hstart & Hstate & _ & _ & _ & _ & _ & _ & _ & _ & Hget & _).
  exists app1. split; [exact Hstart|]. split; [exact Hstate|exact Hget].
Defined.

